(** * AQI sensor node firmware: a shallow embedding and its properties

    The program is the ESP32 sketch of [src/Receiver.py]: one global
    [SensorData] record, three "last fired" stamps, a packet counter, and
    the functions [setup], [loop], [readAllSensors], [readPMS5003],
    [calculateAQI], [transmitData], [createCSVHeader], [writeToSDCard] and
    [getAQICategory].

    Conventions of the embedding.
    - [int] and [long] are 32 bits wide on the ESP32: a [Z] reduced with
      [wrap_s32]; [unsigned long] is a [Z] reduced with [wrap_u32].
    - [float] is IEEE-754 binary32 and [double] binary64, both modelled by
      the [spec_float] operations of the standard library (round to
      nearest, ties to even), every C operation rounded on its own.
    - A conversion from floating point to an integer type whose value is
      not representable has no defined result in C++: the conversions
      return [option].
    - The serial receive queue is the list of bytes buffered when a
      function is entered (no byte arrives during a call, bytes arrive
      between two passes of [loop]); the local array of [readPMS5003]
      starts with whatever the stack holds, a parameter.
    - The microSD file is a list of lines, or absent; whether the card
      answers is an input of each call.
    - The console is the list of the fixed lines printed by the functions
      modelled here; the banner of [setup], [displayReadings] and the lines
      that print values are left out, they change no state. *)

From Stdlib Require Import ZArith List Bool Lia String.
From Stdlib Require Import Strings.Byte.
From Stdlib Require Import Floats.SpecFloat.
From stdpp Require Import base option list.
Import ListNotations.

Local Open Scope Z_scope.

(** ** Machine integers *)

Module Int.

(** Two's-complement reduction to a signed 32-bit value ([int], [long]). *)
Definition wrap_s32 (z : Z) : Z := (z + 2147483648) mod 4294967296 - 2147483648.

(** Reduction to an unsigned 32-bit value ([unsigned long]). *)
Definition wrap_u32 (z : Z) : Z := z mod 4294967296.

Definition in_s32 (z : Z) : bool := (-2147483648 <=? z) && (z <=? 2147483647).

End Int.

(** ** Floating point *)

Module Flt.

(** A [float] or a [double]: the format is fixed by the operation. *)
Definition flt := spec_float.

Definition is_nan (x : flt) : bool :=
  match x with S754_nan => true | _ => false end.

(** binary32 *)
Definition f32_of_Z (z : Z) : flt := binary_normalize 24 128 z 0 false.
Definition f32_add : flt -> flt -> flt := SFadd 24 128.
Definition f32_sub : flt -> flt -> flt := SFsub 24 128.
Definition f32_mul : flt -> flt -> flt := SFmul 24 128.

(** binary64 *)
Definition f64_of_Z (z : Z) : flt := binary_normalize 53 1024 z 0 false.
Definition f64_add : flt -> flt -> flt := SFadd 53 1024.
Definition f64_mul : flt -> flt -> flt := SFmul 53 1024.
Definition f64_div : flt -> flt -> flt := SFdiv 53 1024.

(** A decimal literal [num / den] of type [double], for instance [35.4]
    as [f64_lit 354 10]: the nearest double, since both parts are exact
    and the division is correctly rounded. *)
Definition f64_lit (num den : Z) : flt := f64_div (f64_of_Z num) (f64_of_Z den).

(** Promotion [float -> double] (exact) and conversion [double -> float]
    (rounded). *)
Definition f64_of_f32 (x : flt) : flt :=
  match x with
  | S754_finite s m e => binary_round 53 1024 s m e
  | _ => x
  end.

Definition f32_of_f64 (x : flt) : flt :=
  match x with
  | S754_finite s m e => binary_round 24 128 s m e
  | _ => x
  end.

(** [abs] of the core on a [float]: the sign is cleared. *)
Definition f_abs : flt -> flt := SFabs.

(** Comparison of the exact values.  [SFcompare] compares exponents first
    and so needs both operands in the canonical form of one format; the
    comparisons of the sketch are stated on values, which is the same on
    canonical operands and does not depend on the representation. *)
Definition signed_mant (s : bool) (m : positive) : Z := cond_Zopp s (Zpos m).

Definition f_compare (x y : flt) : option comparison :=
  match x, y with
  | S754_nan, _ | _, S754_nan => None
  | S754_infinity s1, S754_infinity s2 =>
      Some (match s1, s2 with
            | true, false => Lt
            | false, true => Gt
            | _, _ => Eq
            end)
  | S754_infinity s, _ => Some (if s then Lt else Gt)
  | _, S754_infinity s => Some (if s then Gt else Lt)
  | S754_zero _, S754_zero _ => Some Eq
  | S754_finite s _ _, S754_zero _ => Some (if s then Lt else Gt)
  | S754_zero _, S754_finite s _ _ => Some (if s then Gt else Lt)
  | S754_finite s1 m1 e1, S754_finite s2 m2 e2 =>
      let e := Z.min e1 e2 in
      Some (Z.compare (signed_mant s1 m1 * 2 ^ (e1 - e))
                      (signed_mant s2 m2 * 2 ^ (e2 - e)))
  end.

Definition f_lt (x y : flt) : bool :=
  match f_compare x y with Some Lt => true | _ => false end.
Definition f_le (x y : flt) : bool :=
  match f_compare x y with Some (Lt | Eq) => true | _ => false end.
Definition f_gt (x y : flt) : bool :=
  match f_compare x y with Some Gt => true | _ => false end.

(** Truncation toward zero of the magnitude [m * 2^e]. *)
Definition trunc_mag (m : positive) (e : Z) : Z :=
  if 0 <=? e then Zpos m * 2 ^ e else Zpos m / 2 ^ (- e).

(** The casts [(int) x] and [(long) x]: truncation toward zero, defined
    only when the truncated value fits the 32-bit type. *)
Definition f_to_int (x : flt) : option Z :=
  match x with
  | S754_zero _ => Some 0
  | S754_finite s m e =>
      let z := cond_Zopp s (trunc_mag m e) in
      if Int.in_s32 z then Some z else None
  | S754_infinity _ | S754_nan => None
  end.

(** [round] of the C library on a double: to the nearest integer, halves
    away from zero. *)
Definition f64_round (x : flt) : flt :=
  match x with
  | S754_finite s m e =>
      if 0 <=? e then x
      else
        let q := Zpos m / 2 ^ (- e) in
        let r := Zpos m mod 2 ^ (- e) in
        let n := if 2 ^ (- e) <=? 2 * r then q + 1 else q in
        binary_normalize 53 1024 (cond_Zopp s n) 0 s
  | _ => x
  end.

(** A [double] literal stored in a [float] variable. *)
Definition f32_lit (num den : Z) : flt := f32_of_f64 (f64_lit num den).

End Flt.

(** ** The numeric literals of [calculateAQI], evaluated once *)

Module Lit.
Import Flt.

(** Integer literals converted to [float]. *)
Definition f0 : flt := Eval vm_compute in f32_of_Z 0.
Definition f10 : flt := Eval vm_compute in f32_of_Z 10.
Definition f25 : flt := Eval vm_compute in f32_of_Z 25.
Definition f35 : flt := Eval vm_compute in f32_of_Z 35.
Definition f50 : flt := Eval vm_compute in f32_of_Z 50.
Definition f54 : flt := Eval vm_compute in f32_of_Z 54.
Definition f80 : flt := Eval vm_compute in f32_of_Z 80.
Definition f154 : flt := Eval vm_compute in f32_of_Z 154.
Definition f254 : flt := Eval vm_compute in f32_of_Z 254.
Definition f354 : flt := Eval vm_compute in f32_of_Z 354.
Definition f424 : flt := Eval vm_compute in f32_of_Z 424.
Definition f500 : flt := Eval vm_compute in f32_of_Z 500.

(** [double] literals. *)
Definition d12_0 : flt := Eval vm_compute in f64_lit 12 1.
Definition d35_4 : flt := Eval vm_compute in f64_lit 354 10.
Definition d55_4 : flt := Eval vm_compute in f64_lit 554 10.
Definition d150_4 : flt := Eval vm_compute in f64_lit 1504 10.
Definition d250_4 : flt := Eval vm_compute in f64_lit 2504 10.
Definition d0_4 : flt := Eval vm_compute in f64_lit 4 10.
Definition d0_3 : flt := Eval vm_compute in f64_lit 3 10.
Definition d0_15 : flt := Eval vm_compute in f64_lit 15 100.
Definition d0_05 : flt := Eval vm_compute in f64_lit 5 100.
Definition d100_0 : flt := Eval vm_compute in f64_lit 100 1.
Definition d10_0 : flt := Eval vm_compute in f64_lit 10 1.

(** [double] literals assigned to a [float]. *)
Definition f1_0 : flt := Eval vm_compute in f32_lit 1 1.
Definition f1_1 : flt := Eval vm_compute in f32_lit 11 10.
Definition f1_05 : flt := Eval vm_compute in f32_lit 105 100.

End Lit.

(** ** The Arduino core *)

Module Arduino.

(** [long map(long x, long in_min, long in_max, long out_min, long out_max)]
    of the Arduino core, in [long] arithmetic with C division:
    [(x - in_min) * (out_max - out_min) / (in_max - in_min) + out_min]. *)
Definition map (x in_min in_max out_min out_max : Z) : Z :=
  Int.wrap_s32
    (Int.wrap_s32 (Int.wrap_s32 (x - in_min) * Int.wrap_s32 (out_max - out_min))
       ÷ Int.wrap_s32 (in_max - in_min)
     + out_min).

(** A byte as the integer a [uint8_t] promotes to. *)
Definition byte_val (b : byte) : Z := Z.of_N (Byte.to_N b).

End Arduino.

#[global] Instance byte_inhabited : Inhabited byte := populate x00.

(** ** Configuration (the [#define]s of the sketch) *)

Definition NODE_ID : Z := 1.
Definition SENSOR_READ_INTERVAL : Z := 5000.
Definition LORA_TRANSMIT_INTERVAL : Z := 30000.
Definition SD_WRITE_INTERVAL : Z := 10000.

(** ** Data *)

Import Flt.

(** [struct SensorData]. *)
Record SensorData := mkSensorData {
  timestamp : Z;        (* unsigned long *)
  temperature : flt;    (* float *)
  humidity : flt;       (* float *)
  pm25 : flt;           (* float *)
  pm10 : flt;           (* float *)
  gasLevel : Z;         (* int *)
  smokeLevel : Z;       (* int *)
  aqi : Z               (* int *)
}.

(** The JSON document handed to the radio, field by field. *)
Record Packet := mkPacket {
  pk_node_id : Z;
  pk_packet : Z;
  pk_timestamp : Z;
  pk_temp : flt;
  pk_humidity : flt;
  pk_pm25 : flt;
  pk_pm10 : flt;
  pk_gas : Z;
  pk_smoke : Z;
  pk_aqi : Z
}.

(** One field of a line of [/aqi_data.csv]: text, an integer, or a float
    (the decimal rendering of numbers is not modelled). *)
Inductive Field :=
| FText (s : string)
| FInt (z : Z)
| FFloat (x : flt).

(** A line is its comma-separated fields. *)
Definition Line := list Field.

Definition csv_header : Line :=
  List.map FText
    ["timestamp"; "node_id"; "temperature"; "humidity"; "pm25"; "pm10";
     "gas"; "smoke"; "aqi"]%string.

Definition csv_row (d : SensorData) : Line :=
  [FInt (timestamp d); FInt NODE_ID; FFloat (temperature d);
   FFloat (humidity d); FFloat (pm25 d); FFloat (pm10 d);
   FInt (gasLevel d); FInt (smokeLevel d); FInt (aqi d)].

(** The globals of the sketch, the [static] flag of [readPMS5003], and the
    devices it talks to. *)
Record Node := mkNode {
  currentData : SensorData;
  lastSensorRead : Z;        (* unsigned long *)
  lastLoRaTransmit : Z;      (* unsigned long *)
  lastSDWrite : Z;           (* unsigned long *)
  packetCounter : Z;         (* int *)
  firstRead : bool;          (* static bool firstRead *)
  pmsSerial : list byte;     (* bytes waiting in the receive queue *)
  sd_file : option (list Line);  (* /aqi_data.csv; [None]: no such file *)
  console : list string;     (* lines printed on Serial, oldest first *)
  lora_sent : list Packet    (* packets sent, oldest first *)
}.

Definition with_data (d : SensorData) (n : Node) : Node :=
  mkNode d (lastSensorRead n) (lastLoRaTransmit n) (lastSDWrite n)
    (packetCounter n) (firstRead n) (pmsSerial n) (sd_file n) (console n)
    (lora_sent n).

Definition with_lastSensorRead (t : Z) (n : Node) : Node :=
  mkNode (currentData n) t (lastLoRaTransmit n) (lastSDWrite n)
    (packetCounter n) (firstRead n) (pmsSerial n) (sd_file n) (console n)
    (lora_sent n).

Definition with_lastLoRaTransmit (t : Z) (n : Node) : Node :=
  mkNode (currentData n) (lastSensorRead n) t (lastSDWrite n)
    (packetCounter n) (firstRead n) (pmsSerial n) (sd_file n) (console n)
    (lora_sent n).

Definition with_lastSDWrite (t : Z) (n : Node) : Node :=
  mkNode (currentData n) (lastSensorRead n) (lastLoRaTransmit n) t
    (packetCounter n) (firstRead n) (pmsSerial n) (sd_file n) (console n)
    (lora_sent n).

Definition with_packetCounter (c : Z) (n : Node) : Node :=
  mkNode (currentData n) (lastSensorRead n) (lastLoRaTransmit n)
    (lastSDWrite n) c (firstRead n) (pmsSerial n) (sd_file n) (console n)
    (lora_sent n).

Definition with_firstRead (b : bool) (n : Node) : Node :=
  mkNode (currentData n) (lastSensorRead n) (lastLoRaTransmit n)
    (lastSDWrite n) (packetCounter n) b (pmsSerial n) (sd_file n) (console n)
    (lora_sent n).

Definition with_pmsSerial (q : list byte) (n : Node) : Node :=
  mkNode (currentData n) (lastSensorRead n) (lastLoRaTransmit n)
    (lastSDWrite n) (packetCounter n) (firstRead n) q (sd_file n) (console n)
    (lora_sent n).

Definition with_sd_file (f : option (list Line)) (n : Node) : Node :=
  mkNode (currentData n) (lastSensorRead n) (lastLoRaTransmit n)
    (lastSDWrite n) (packetCounter n) (firstRead n) (pmsSerial n) f (console n)
    (lora_sent n).

Definition println (s : string) (n : Node) : Node :=
  mkNode (currentData n) (lastSensorRead n) (lastLoRaTransmit n)
    (lastSDWrite n) (packetCounter n) (firstRead n) (pmsSerial n) (sd_file n)
    (console n ++ [s]) (lora_sent n).

Definition lora_send (p : Packet) (n : Node) : Node :=
  mkNode (currentData n) (lastSensorRead n) (lastLoRaTransmit n)
    (lastSDWrite n) (packetCounter n) (firstRead n) (pmsSerial n) (sd_file n)
    (console n) (lora_sent n ++ [p]).

Definition set_pm (p25 p10 : flt) (d : SensorData) : SensorData :=
  mkSensorData (timestamp d) (temperature d) (humidity d) p25 p10
    (gasLevel d) (smokeLevel d) (aqi d).

Definition set_aqi (a : Z) (d : SensorData) : SensorData :=
  mkSensorData (timestamp d) (temperature d) (humidity d) (pm25 d) (pm10 d)
    (gasLevel d) (smokeLevel d) a.

(** What the drivers return during one pass of [loop]. *)
Record Readings := mkReadings {
  dht_temperature : flt;     (* dht.readTemperature() *)
  dht_humidity : flt;        (* dht.readHumidity() *)
  pms_stack : list byte;     (* what [uint8_t buffer[32]] holds on entry *)
  adc_gas : Z;               (* analogRead(GAS_SENSOR_PIN) *)
  adc_smoke : Z;             (* analogRead(SMOKE_SENSOR_PIN) *)
  stamp_millis : Z;          (* millis() when the time stamp is taken *)
  sd_card_ok : bool          (* whether SD.open succeeds *)
}.

(** ** readPMS5003 *)

(** The scanning loop (source lines 198-209).  The second [read()] is not
    guarded by [available()]: on an empty queue it yields -1, which is 0xff
    as a [uint8_t] and differs from 0x4d. *)
Fixpoint find_sync (q : list byte) : bool * list byte :=
  match q with
  | [] => (false, [])
  | byte1 :: q1 =>
      if Byte.eqb byte1 x42 then
        match q1 with
        | [] => (false, [])
        | byte2 :: q2 =>
            if Byte.eqb byte2 x4d then (true, q2) else find_sync q2
        end
      else find_sync q1
  end.

(** The loop [for (i = 2; i < 32; i++)] (lines 213-219), with [n] passes
    left and [i] the index to write next: it stops early when the queue is
    empty. *)
Fixpoint read_frame (n i : nat) (buffer q : list byte) : list byte * list byte :=
  match n with
  | O => (buffer, q)
  | S n' =>
      match q with
      | [] => (buffer, q)
      | b :: q' => read_frame n' (S i) (<[i := b]> buffer) q'
      end
  end.

(** [(buffer[i] << 8) | buffer[i+1]] converted to [float]. *)
Definition be16 (buffer : list byte) (i : nat) : Z :=
  Z.lor (Z.shiftl (Arduino.byte_val (buffer !!! i)) 8)
        (Arduino.byte_val (buffer !!! S i)).

Definition readPMS5003 (stack : list byte) (n : Node) : Node :=
  if 32 <=? Z.of_nat (length (pmsSerial n)) then
    let '(frameFound, q1) := find_sync (pmsSerial n) in
    if frameFound then
      let buffer0 := <[1%nat := x4d]> (<[0%nat := x42]> stack) in
      let '(buffer, q2) := read_frame 30 2 buffer0 q1 in
      with_pmsSerial q2
        (with_data (set_pm (f32_of_Z (be16 buffer 12)) (f32_of_Z (be16 buffer 14))
                      (currentData n)) n)
    else with_pmsSerial q1 n
  else if firstRead n then
    with_firstRead false
      (with_data (set_pm (f32_of_Z 0) (f32_of_Z 0) (currentData n)) n)
  else n.

(** ** readAllSensors *)

Definition dht_warning : string := "Warning: DHT11 reading failed!".

Definition readAllSensors (r : Readings) (n : Node) : Node :=
  let t := dht_temperature r in
  let h := dht_humidity r in
  let failed := is_nan t || is_nan h in
  let n1 := if failed then println dht_warning n else n in
  let t1 := if failed then f32_of_Z 0 else t in
  let h1 := if failed then f32_of_Z 0 else h in
  let n2 := readPMS5003 (pms_stack r) n1 in
  let d := currentData n2 in
  with_data
    (mkSensorData (Int.wrap_u32 (stamp_millis r) / 1000) t1 h1 (pm25 d) (pm10 d)
       (adc_gas r) (adc_smoke r) (aqi d))
    n2.

(** ** calculateAQI *)

(** Lines 243-256: the PM2.5 sub-index [pm25_aqi].  Every branch converts
    [pm25 * 10] (a [float] product) to [long] for [map]. *)
Definition pm25_aqi_of (pm25 : flt) : option Z :=
  x ← f_to_int (f32_mul pm25 Lit.f10);
  let p := f64_of_f32 pm25 in
  Some (if f_le p Lit.d12_0 then Arduino.map x 0 120 0 50
        else if f_le p Lit.d35_4 then Arduino.map x 121 354 51 100
        else if f_le p Lit.d55_4 then Arduino.map x 355 554 101 150
        else if f_le p Lit.d150_4 then Arduino.map x 555 1504 151 200
        else if f_le p Lit.d250_4 then Arduino.map x 1505 2504 201 300
        else
          let a := Arduino.map x 2505 5000 301 500 in
          if 500 <? a then 500 else a).

(** Lines 259-275: the PM10 sub-index [pm10_aqi]. *)
Definition pm10_aqi_of (pm10 : flt) : option Z :=
  x ← f_to_int pm10;
  Some (if f_le pm10 Lit.f54 then Arduino.map x 0 54 0 50
        else if f_le pm10 Lit.f154 then Arduino.map x 55 154 51 100
        else if f_le pm10 Lit.f254 then Arduino.map x 155 254 101 150
        else if f_le pm10 Lit.f354 then Arduino.map x 255 354 151 200
        else if f_le pm10 Lit.f424 then Arduino.map x 355 424 201 300
        else
          let a := Arduino.map x 425 604 301 500 in
          if 500 <? a then 500 else a).

(** Lines 278-289. *)
Definition tempFactor_of (t : flt) : flt :=
  if f_gt t Lit.f35 then Lit.f1_1
  else if f_lt t Lit.f0 then Lit.f1_05
  else Lit.f1_0.

Definition humidityFactor_of (h : flt) : flt :=
  if f_gt h Lit.f80 then Lit.f1_05 else Lit.f1_0.

Definition calculateAQI (d : SensorData) : option SensorData :=
  pm25_aqi ← pm25_aqi_of (pm25 d);
  pm10_aqi ← pm10_aqi_of (pm10 d);
  let tempFactor := tempFactor_of (temperature d) in
  let humidityFactor := humidityFactor_of (humidity d) in
  let gasFactor := f32_of_Z (Arduino.map (gasLevel d) 0 4095 0 50) in
  let smokeFactor := f32_of_Z (Arduino.map (smokeLevel d) 0 4095 0 50) in
  let compositeAQI :=
    f32_of_f64
      (f64_add
         (f64_add
            (f64_add (f64_mul (f64_of_Z pm25_aqi) Lit.d0_4)
                     (f64_mul (f64_of_Z pm10_aqi) Lit.d0_3))
            (f64_mul (f64_of_f32 gasFactor) Lit.d0_15))
         (f64_mul (f64_of_f32 smokeFactor) Lit.d0_05)) in
  let compositeAQI := f32_mul (f32_mul compositeAQI tempFactor) humidityFactor in
  let envStress :=
    f32_of_f64
      (f64_div
         (f64_of_f32
            (f32_add (f_abs (f32_sub (temperature d) Lit.f25))
                     (f_abs (f32_sub (humidity d) Lit.f50))))
         Lit.d100_0) in
  let compositeAQI := f32_add compositeAQI (f32_mul envStress Lit.f10) in
  let compositeAQI :=
    if f_gt compositeAQI Lit.f500 then Lit.f500 else compositeAQI in
  let compositeAQI :=
    if f_lt compositeAQI Lit.f0 then Lit.f0 else compositeAQI in
  a ← f_to_int compositeAQI;
  Some (set_aqi a d).

(** ** transmitData *)

(** [round(x * 10) / 10.0] *)
Definition round1 (x : flt) : flt :=
  f64_div (f64_round (f64_of_f32 (f32_mul x Lit.f10))) Lit.d10_0.

Definition transmitData (n : Node) : Node :=
  let d := currentData n in
  let doc :=
    mkPacket NODE_ID (packetCounter n) (timestamp d)
      (round1 (temperature d)) (round1 (humidity d))
      (round1 (pm25 d)) (round1 (pm10 d))
      (gasLevel d) (smokeLevel d) (aqi d) in
  lora_send doc
    (with_packetCounter (Int.wrap_s32 (packetCounter n + 1))
       (println ">>> Transmitting data via LoRa..." n)).

(** ** SD card functions *)

(** [card_ok]: whether the card answers, so that [SD.exists] can see the
    file and [SD.open] succeeds. *)
Definition createCSVHeader (card_ok : bool) (n : Node) : Node :=
  if card_ok && bool_decide (is_Some (sd_file n)) then n
  else if card_ok then
    println "CSV header created on SD card" (with_sd_file (Some [csv_header]) n)
  else println "Error creating CSV file" n.

(** [FILE_APPEND] creates the file when there is none. *)
Definition writeToSDCard (card_ok : bool) (n : Node) : Node :=
  if card_ok then
    println "✓ Data written to SD card"
      (with_sd_file (Some (default [] (sd_file n) ++ [csv_row (currentData n)])) n)
  else println "✗ Error writing to SD card" n.

(** ** setup *)

Record Boot := mkBoot {
  boot_serial : list byte;            (* bytes already queued by the sensor *)
  boot_file : option (list Line);     (* what the card holds *)
  sd_begin_ok : bool;                 (* SD.begin(SD_CS) *)
  sd_header_ok : bool;                (* the card answers in createCSVHeader *)
  lora_begin_ok : bool                (* LoRa.begin(LORA_FREQUENCY) *)
}.

(** The globals as the C++ runtime initialises them. *)
Definition power_on (b : Boot) : Node :=
  mkNode (mkSensorData 0 (S754_zero false) (S754_zero false) (S754_zero false)
            (S754_zero false) 0 0 0)
    0 0 0 0 true (boot_serial b) (boot_file b) [] [].

(** [None]: the radio did not start and the sketch spins in [while (1)]. *)
Definition setup (b : Boot) : option Node :=
  let n := power_on b in
  let n :=
    if sd_begin_ok b then createCSVHeader (sd_header_ok b) n
    else println "Warning: SD Card not available. Data will not be logged." n in
  if lora_begin_ok b then Some n else None.

(** ** loop *)

Inductive Action := ActSample | ActPersist | ActTransmit.

#[global] Instance Action_eq_dec : EqDecision Action.
Proof. solve_decision. Defined.

(** One pass of [loop] at [currentMillis = now]; the result lists the
    timed actions it ran, in order.  [None] when [calculateAQI] has no
    defined result. *)
Definition loop (now : Z) (r : Readings) (n : Node) : option (list Action * Node) :=
  '(acts, n) ←
    (if SENSOR_READ_INTERVAL <=? Int.wrap_u32 (now - lastSensorRead n) then
       let n := readAllSensors r n in
       d ← calculateAQI (currentData n);
       let n := with_data d n in
       let '(acts, n) :=
         if SD_WRITE_INTERVAL <=? Int.wrap_u32 (now - lastSDWrite n) then
           ([ActSample; ActPersist],
            with_lastSDWrite now (writeToSDCard (sd_card_ok r) n))
         else ([ActSample], n) in
       Some (acts, with_lastSensorRead now n)
     else Some ([], n));
  if LORA_TRANSMIT_INTERVAL <=? Int.wrap_u32 (now - lastLoRaTransmit n) then
    Some (acts ++ [ActTransmit], with_lastLoRaTransmit now (transmitData n))
  else Some (acts, n).

(** The checks of a clock trace, one pass per entry. *)
Fixpoint run (trace : list (Z * Readings)) (n : Node)
  : option (list (Z * list Action) * Node) :=
  match trace with
  | [] => Some ([], n)
  | (now, r) :: rest =>
      '(acts, n1) ← loop now r n;
      '(log, n2) ← run rest n1;
      Some ((now, acts) :: log, n2)
  end.

(** The clock values at which action [a] ran. *)
Definition fired_at (a : Action) (log : list (Z * list Action)) : list Z :=
  List.map fst (List.filter (fun e => bool_decide (a ∈ e.2)) log).

(** ** getAQICategory *)

(** Lines 437-444: the label [displayReadings] prints beside the index. *)
Definition getAQICategory (aqi : Z) : string :=
  if aqi <=? 50 then "Good"
  else if aqi <=? 100 then "Moderate"
  else if aqi <=? 150 then "Unhealthy for Sensitive"
  else if aqi <=? 200 then "Unhealthy"
  else if aqi <=? 300 then "Very Unhealthy"
  else "Hazardous".

(** ** The loop with its serial input *)

(** One check of the loop as the hardware presents it: the bytes the
    particulate sensor has sent since the check before, the value of
    [millis()], and what the drivers return. *)
Record LoopCheck := mkLoopCheck {
  arrived : list byte;
  clock : Z;
  drivers : Readings
}.

(** The UART appends what arrives to the receive queue. *)
Definition receive (bytes : list byte) (n : Node) : Node :=
  with_pmsSerial (pmsSerial n ++ bytes) n.

(** The passes of [loop] over a trace of checks, bytes arriving between
    them. *)
Fixpoint run_checks (trace : list LoopCheck) (n : Node)
  : option (list (Z * list Action) * Node) :=
  match trace with
  | [] => Some ([], n)
  | c :: rest =>
      '(acts, n1) ← loop (clock c) (drivers c) (receive (arrived c) n);
      '(log, n2) ← run_checks rest n1;
      Some ((clock c, acts) :: log, n2)
  end.

(** ** The reference algorithm of the specification (section 4.3)

    These definitions follow the words of the specification, not the
    source: a table of breakpoint bands per pollutant, one interpolation
    function, and the composite as a formula.  Concentrations are the
    integers the frame decoder delivers.  Where the specification leaves a
    number open (the lower end of a band, the upper end of the top band) the
    table takes the one of the sketch; the arithmetic types are the ones of
    the C expressions. *)

Module Reference.

(** A band maps the concentrations [c_lo..c_hi] onto the sub-indices
    [i_lo..i_hi]. *)
Record Band := mkBand { c_lo : Z; c_hi : Z; i_lo : Z; i_hi : Z }.

(** Linear interpolation inside a band, truncated to an integer. *)
Definition interpolate (b : Band) (c : Z) : Z :=
  i_lo b + (c - c_lo b) * (i_hi b - i_lo b) ÷ (c_hi b - c_lo b).

(** The first band whose upper breakpoint is not below [c]; above all of
    them the top band, clamped at 500. *)
Fixpoint subindex (bands : list Band) (top : Band) (c : Z) : Z :=
  match bands with
  | [] => Z.min 500 (interpolate top c)
  | b :: rest =>
      if c <=? c_hi b then interpolate b c else subindex rest top c
  end.

(** PM2.5 bands at 12.0, 35.4, 55.4, 150.4, 250.4 and above, scaled by 10. *)
Definition pm25_bands : list Band :=
  [mkBand 0 120 0 50; mkBand 121 354 51 100; mkBand 355 554 101 150;
   mkBand 555 1504 151 200; mkBand 1505 2504 201 300].
Definition pm25_top : Band := mkBand 2505 5000 301 500.

(** PM10 bands at 54, 154, 254, 354, 424 and above, unscaled. *)
Definition pm10_bands : list Band :=
  [mkBand 0 54 0 50; mkBand 55 154 51 100; mkBand 155 254 101 150;
   mkBand 255 354 151 200; mkBand 355 424 201 300].
Definition pm10_top : Band := mkBand 425 604 301 500.

Definition pm25_subindex (c : Z) : Z := subindex pm25_bands pm25_top (10 * c).
Definition pm10_subindex (c : Z) : Z := subindex pm10_bands pm10_top c.

(** An analog level rescaled from [0, 4095] to [0, 50]. *)
Definition rescale (level : Z) : Z := level * 50 ÷ 4095.

(** 1.10 above 35 degrees, 1.05 below 0, else 1.00. *)
Definition temperature_factor (t : flt) : flt :=
  if f_gt t (f32_of_Z 35) then f32_lit 110 100
  else if f_lt t (f32_of_Z 0) then f32_lit 105 100
  else f32_lit 100 100.

(** 1.05 above 80 %RH, else 1.00. *)
Definition humidity_factor (h : flt) : flt :=
  if f_gt h (f32_of_Z 80) then f32_lit 105 100 else f32_lit 100 100.

(** [0.40 x PM25sub + 0.30 x PM10sub + 0.15 x gasFactor + 0.05 x smokeFactor] *)
Definition composite (pm25sub pm10sub gasFactor smokeFactor : Z) : flt :=
  f32_of_f64
    (f64_add
       (f64_add
          (f64_add (f64_mul (f64_of_Z pm25sub) (f64_lit 40 100))
                   (f64_mul (f64_of_Z pm10sub) (f64_lit 30 100)))
          (f64_mul (f64_of_f32 (f32_of_Z gasFactor)) (f64_lit 15 100)))
       (f64_mul (f64_of_f32 (f32_of_Z smokeFactor)) (f64_lit 5 100))).

(** [10 x (|temperature - 25| + |humidity - 50|) / 100] *)
Definition stress_bonus (t h : flt) : flt :=
  f32_mul
    (f32_of_f64
       (f64_div
          (f64_of_f32 (f32_add (f_abs (f32_sub t (f32_of_Z 25)))
                               (f_abs (f32_sub h (f32_of_Z 50)))))
          (f64_of_Z 100)))
    (f32_of_Z 10).

(** Clamp to [0, 500] and truncate. *)
Definition clamp_truncate (x : flt) : option Z :=
  let x := if f_gt x (f32_of_Z 500) then f32_of_Z 500 else x in
  let x := if f_lt x (f32_of_Z 0) then f32_of_Z 0 else x in
  f_to_int x.

(** Steps 1 to 7 for particulate concentrations [c25], [c10]. *)
Definition aqi (c25 c10 : Z) (t h : flt) (gas smoke : Z) : option Z :=
  let corrected :=
    f32_mul
      (f32_mul (composite (pm25_subindex c25) (pm10_subindex c10)
                  (rescale gas) (rescale smoke))
         (temperature_factor t))
      (humidity_factor h) in
  clamp_truncate (f32_add corrected (stress_bonus t h)).

End Reference.

(** ** Validity of a sample *)

(** A particulate field holds what the decoder assigns: a 16-bit value
    converted to [float]. *)
Definition decoded (x : flt) : Prop := ∃ v : Z, 0 ≤ v ≤ 65535 ∧ x = f32_of_Z v.

(** An analog level is a conversion result of the 12-bit converter. *)
Definition adc_level (g : Z) : Prop := 0 ≤ g ≤ 4095.

(** What the engine needs of a sample: temperature and humidity that are
    numbers, and particulate values that its casts to [long] accept. *)
Record engine_input (d : SensorData) : Prop := mkEngineInput {
  input_temperature : is_nan (temperature d) = false;
  input_humidity : is_nan (humidity d) = false;
  input_pm25 : is_Some (f_to_int (f32_mul (pm25 d) Lit.f10));
  input_pm10 : is_Some (f_to_int (pm10 d))
}.

(** The values of type [int]. *)
Definition in_int (z : Z) : Prop := -2147483648 ≤ z ≤ 2147483647.

(** ** Classes of floating-point values used in the proofs *)

(** Zero, a positive finite number, or plus infinity. *)
Definition fpos (x : flt) : bool :=
  match x with
  | S754_zero _ | S754_finite false _ _ | S754_infinity false => true
  | _ => false
  end.

(** The canonical binary32 form of the integer [v]: plus zero, or a 24-digit
    mantissa with a non-positive exponent. *)
Definition canon32_int (x : flt) (v : Z) : Prop :=
  (v = 0 ∧ x = S754_zero false)
  ∨ ∃ m e, x = S754_finite false m e ∧ Zpos (digits2_pos m) = 24
           ∧ e ≤ 0 ∧ Zpos m = v * 2 ^ (- e).

(** A value that is the non-negative integer [v], in any representation
    with a non-positive exponent. *)
Definition int_val (x : flt) (v : Z) : Prop :=
  (v = 0 ∧ x = S754_zero false)
  ∨ ∃ m e, x = S754_finite false m e ∧ e ≤ 0 ∧ Zpos m = v * 2 ^ (- e).

(** A zero or a finite number of magnitude below [2^K]. *)
Definition fin_below (K : Z) (x : flt) : Prop :=
  match x with
  | S754_zero _ => True
  | S754_finite _ m e => Zpos (digits2_pos m) + e ≤ K
  | _ => False
  end.

(** A number of sign [s] (a zero, a finite number or an infinity). *)
Definition has_sign (s : bool) (x : flt) : Prop :=
  match x with
  | S754_zero s' | S754_infinity s' | S754_finite s' _ _ => s' = s
  | S754_nan => False
  end.

(** ** Vocabulary of the statements *)

(** The sync sequence 0x42 0x4d starts at position [i] of the queue. *)
Definition sync_at (q : list byte) (i : nat) : Prop :=
  q !! i = Some x42 ∧ q !! S i = Some x4d.

(** The particulate fields of a sample hold decoded values. *)
Definition pm_decoded (d : SensorData) : Prop := decoded (pm25 d) ∧ decoded (pm10 d).

(** Whether a timer has run out at clock value [now]: an unsigned
    subtraction compared with the period. *)
Definition sample_due (now : Z) (n : Node) : bool :=
  SENSOR_READ_INTERVAL <=? Int.wrap_u32 (now - lastSensorRead n).
Definition persist_due (now : Z) (n : Node) : bool :=
  SD_WRITE_INTERVAL <=? Int.wrap_u32 (now - lastSDWrite n).
Definition transmit_due (now : Z) (n : Node) : bool :=
  LORA_TRANSMIT_INTERVAL <=? Int.wrap_u32 (now - lastLoRaTransmit n).

(** The actions a check at [now] is expected to run. *)
Definition due_actions (now : Z) (n : Node) : list Action :=
  (if sample_due now n then
     ActSample :: (if persist_due now n then [ActPersist] else [])
   else [])
  ++ (if transmit_due now n then [ActTransmit] else []).

(** The log writer called once per sample of [ds], the card answering. *)
Definition writes (ds : list SensorData) (n : Node) : Node :=
  foldl (λ n d, writeToSDCard true (with_data d n)) n ds.

(** [k] calls of [transmitData]. *)
Definition transmits (k : N) (n : Node) : Node := N.iter k transmitData n.

(** ** Sample inputs *)

(** A node that boots with an empty card and a working radio. *)
Definition boot0 : Boot := mkBoot [] None true true true.

(** Calm air, no frame queued, the card answering. *)
Definition readings0 : Readings :=
  mkReadings (f32_of_Z 25) (f32_of_Z 50) (replicate 32 x00) 0 0 0 true.

(** The end-to-end sample of the specification. *)
Definition sample0 : SensorData :=
  mkSensorData 0 (f32_of_Z 25) (f32_of_Z 50) (f32_of_Z 10) (f32_of_Z 20) 0 0 0.

(** A frame whose PM2.5 field (offsets 12-13) is 35 and whose PM10 field
    (offsets 14-15) is 50. *)
Definition frame0 : list byte :=
  [x42; x4d] ++ replicate 10 x00 ++ [x00; x23; x00; x32] ++ replicate 16 x00.

(** ** Vocabulary of the further properties *)

(** A complete frame: the sync sequence and the 30 bytes after it. *)
Definition frame_of (body : list byte) : list byte := x42 :: x4d :: body.

(** [readPMS5003] called once per entry of [stacks], each call finding
    its local array as the entry gives it. *)
Definition decodes (stacks : list (list byte)) (n : Node) : Node :=
  foldl (λ n stack, readPMS5003 stack n) n stacks.

(** The document [transmitData] builds from the counter value [c] and the
    sample [d]. *)
Definition packet_of (c : Z) (d : SensorData) : Packet :=
  mkPacket NODE_ID c (timestamp d)
    (round1 (temperature d)) (round1 (humidity d))
    (round1 (pm25 d)) (round1 (pm10 d))
    (gasLevel d) (smokeLevel d) (aqi d).

(** A sample as the node holds it between two passes: decoded particulate
    values, an index within its range, temperature and humidity that are
    numbers. *)
Definition sample_ok (d : SensorData) : Prop :=
  pm_decoded d ∧ 0 ≤ aqi d ≤ 500
  ∧ is_nan (temperature d) = false ∧ is_nan (humidity d) = false.

(** The canonical binary64 form of the integer [v]: plus zero, or a 53-digit
    mantissa with a non-positive exponent. *)
Definition canon64_int (x : flt) (v : Z) : Prop :=
  (v = 0 ∧ x = S754_zero false)
  ∨ ∃ m e, x = S754_finite false m e ∧ Zpos (digits2_pos m) = 53
           ∧ e ≤ 0 ∧ Zpos m = v * 2 ^ (- e).

(** The log after [rows] were appended to it, in [FILE_APPEND] mode. *)
Definition appended (rows : list Line) (f : option (list Line)) : option (list Line) :=
  match rows with
  | [] => f
  | _ => Some (default [] f ++ rows)
  end.

(** Every entry of [ts] is at least [period] after the one before it, the
    first one at least [period] after [last]. *)
Fixpoint spaced (period last : Z) (ts : list Z) : Prop :=
  match ts with
  | [] => True
  | t :: ts' => last + period ≤ t ∧ spaced period t ts'
  end.

(** A trace of checks within one run of the 32-bit clock: the clock values
    do not decrease, start at [t0] or later and stay below 2^32. *)
Fixpoint clock_trace (t0 : Z) (trace : list LoopCheck) : Prop :=
  match trace with
  | [] => True
  | c :: rest => t0 ≤ clock c < 4294967296 ∧ clock_trace (clock c) rest
  end.



(** ** Further sample inputs *)

(** The node [setup] leaves behind after the boot [boot0]. *)
Definition node0 : Node :=
  println "CSV header created on SD card"
    (with_sd_file (Some [csv_header]) (power_on boot0)).

(** Three checks, a frame arriving before the first one: the second one
    persists, the third one transmits. *)
Definition trace0 : list LoopCheck :=
  [mkLoopCheck frame0 5000 readings0; mkLoopCheck [] 10000 readings0;
   mkLoopCheck [] 30000 readings0].

(** Calm air, no frame queued, the card not answering. *)
Definition readings_no_card : Readings :=
  mkReadings (f32_of_Z 25) (f32_of_Z 50) (replicate 32 x00) 0 0 0 false.

(** * Properties *)

(** ** Exact floating-point operations on small integers *)

Module FltFacts.

Lemma digits2_pos_spec (p : positive) :
  2 ^ (Zpos (digits2_pos p) - 1) ≤ Zpos p < 2 ^ Zpos (digits2_pos p).
Proof.
  induction p as [p IH | p IH |]; cbn [digits2_pos].
  - rewrite Pos2Z.inj_succ.
    replace (Z.succ (Zpos (digits2_pos p)) - 1) with (Z.succ (Zpos (digits2_pos p) - 1)) by lia.
    rewrite !Z.pow_succ_r by lia. lia.
  - rewrite Pos2Z.inj_succ.
    replace (Z.succ (Zpos (digits2_pos p)) - 1) with (Z.succ (Zpos (digits2_pos p) - 1)) by lia.
    rewrite !Z.pow_succ_r by lia. lia.
  - cbn. lia.
Qed.

Lemma digits2_pos_unique (p : positive) (d : Z) :
  2 ^ (d - 1) ≤ Zpos p < 2 ^ d → Zpos (digits2_pos p) = d.
Proof.
  intros [Hlo Hhi].
  pose proof (digits2_pos_spec p) as [Slo Shi].
  set (k := Zpos (digits2_pos p)) in *.
  assert (0 < k) by (subst k; lia).
  assert (0 < d).
  { destruct (Z_lt_le_dec 0 d) as [|Hd]; [done|].
    exfalso. destruct (Z.eq_dec d 0) as [->|].
    - cbn in Hhi. lia.
    - rewrite Z.pow_neg_r in Hhi by lia. lia. }
  destruct (Z.lt_trichotomy k d) as [Hlt | [Heq | Hgt]]; [|done|].
  - exfalso. assert (2 ^ k ≤ 2 ^ (d - 1)) by (apply Z.pow_le_mono_r; lia). lia.
  - exfalso. assert (2 ^ d ≤ 2 ^ (k - 1)) by (apply Z.pow_le_mono_r; lia). lia.
Qed.

Lemma iter_xO_val (m : positive) (k : positive) :
  Zpos (Pos.iter xO m k) = Zpos m * 2 ^ Zpos k.
Proof.
  revert m. induction k as [|k IH] using Pos.peano_ind; intros m.
  - cbn. lia.
  - rewrite Pos.iter_succ, Pos2Z.inj_succ, Z.pow_succ_r by lia.
    rewrite Pos2Z.inj_xO, IH. lia.
Qed.

(** Digits of [q * 2^k]. *)
Lemma digits_mul_pow2 (q m : positive) (k : Z) :
  0 ≤ k → Zpos m = Zpos q * 2 ^ k →
  Zpos (digits2_pos m) = Zpos (digits2_pos q) + k.
Proof.
  intros Hk Hm. apply digits2_pos_unique.
  pose proof (digits2_pos_spec q) as [Slo Shi].
  rewrite Hm.
  replace (Zpos (digits2_pos q) + k - 1) with ((Zpos (digits2_pos q) - 1) + k) by lia.
  rewrite !Z.pow_add_r by lia.
  assert (0 < 2 ^ k) by (apply Z.pow_pos_nonneg; lia).
  split; nia.
Qed.

Lemma shr_1_even (q : Z) :
  shr_1 (Build_shr_record (2 * q) false false) = Build_shr_record q false false.
Proof. destruct q as [|q|q]; reflexivity. Qed.

Lemma iter_shr_exact (p : positive) : ∀ q : Z,
  SpecFloat.iter_pos shr_1 p (Build_shr_record (q * 2 ^ Zpos p) false false)
  = Build_shr_record q false false.
Proof.
  induction p as [p IH | p IH |]; intros q; cbn [SpecFloat.iter_pos].
  - replace (q * 2 ^ Zpos p~1) with (2 * ((q * 2 ^ Zpos p) * 2 ^ Zpos p)).
    + rewrite shr_1_even, IH, IH. done.
    + change (Zpos p~1) with (2 * Zpos p + 1).
      rewrite Z.pow_add_r, Z.pow_twice_r, Z.pow_1_r by lia. ring.
  - replace (q * 2 ^ Zpos p~0) with ((q * 2 ^ Zpos p) * 2 ^ Zpos p).
    + rewrite IH, IH. done.
    + change (Zpos p~0) with (2 * Zpos p).
      rewrite Z.pow_twice_r by lia. ring.
  - replace (q * 2 ^ 1) with (2 * q) by lia. apply shr_1_even.
Qed.

Lemma shr_exact (q e n : Z) :
  shr (Build_shr_record (q * 2 ^ n) false false) e n
  = (Build_shr_record (if 0 <? n then q else q * 2 ^ n) false false,
     if 0 <? n then e + n else e).
Proof.
  destruct n as [|p|p]; cbn [shr Z.ltb Z.compare]; try done.
  by rewrite iter_shr_exact.
Qed.

Lemma shr_nonpos mrs (e n : Z) : n ≤ 0 → shr mrs e n = (mrs, e).
Proof. destruct n; [done | lia | done]. Qed.

Lemma fexp_normal (prec emax x : Z) :
  3 - emax - prec ≤ x - prec → fexp prec emax x = x - prec.
Proof. unfold fexp, emin. lia. Qed.

(** Rounding a mantissa [q * 2^k] whose odd part [q] fits the precision
    loses nothing. *)
Lemma binary_round_aux_exact (prec emax : Z) (s : bool) (q : positive) (k e : Z) :
  0 ≤ k →
  Zpos (digits2_pos q) ≤ prec →
  3 - emax - prec ≤ Zpos (digits2_pos q) + k + e - prec →
  e + Z.max 0 (Zpos (digits2_pos q) + k - prec) ≤ emax - prec →
  ∃ m' : positive,
    binary_round_aux prec emax s (Zpos q * 2 ^ k) e loc_Exact
    = S754_finite s m' (e + Z.max 0 (Zpos (digits2_pos q) + k - prec))
    ∧ Zpos m' = Zpos q * 2 ^ (k - Z.max 0 (Zpos (digits2_pos q) + k - prec)).
Proof.
  intros Hk Hdq Hmin Hmax.
  set (dq := Zpos (digits2_pos q)) in *.
  set (n := Z.max 0 (dq + k - prec)) in *.
  assert (Hn : 0 ≤ n ≤ k) by lia.
  assert (Hpos : 0 < Zpos q * 2 ^ (k - n)).
  { assert (0 < 2 ^ (k - n)) by (apply Z.pow_pos_nonneg; lia). lia. }
  destruct (Zpos q * 2 ^ (k - n)) as [|m'|] eqn:Em'; try lia.
  exists m'. split; [|done].
  assert (Hsplit : Zpos q * 2 ^ k = Zpos m' * 2 ^ n).
  { rewrite <- Em', <- Z.mul_assoc, <- Z.pow_add_r by lia. do 2 f_equal. lia. }
  assert (Hd' : Zpos (digits2_pos m') = dq + (k - n)).
  { apply digits_mul_pow2; [lia | done]. }
  assert (Hpos2 : 0 < Zpos m' * 2 ^ n).
  { assert (0 < 2 ^ n) by (apply Z.pow_pos_nonneg; lia). lia. }
  unfold binary_round_aux, shr_fexp.
  rewrite Hsplit.
  destruct (Zpos m' * 2 ^ n) as [|m|] eqn:Em; try lia.
  assert (Hd : Zpos (digits2_pos m) = dq + k).
  { rewrite (digits_mul_pow2 m' m n) by (lia || done). lia. }
  cbn [Zdigits2 shr_record_of_loc].
  rewrite Hd, fexp_normal by lia.
  replace (dq + k + e - prec - e) with (dq + k - prec) by lia.
  destruct (Z_lt_le_dec 0 (dq + k - prec)) as [Hgt | Hle].
  - replace (dq + k - prec) with n by lia.
    rewrite <- Em, shr_exact.
    assert ((0 <? n) = true) as -> by (apply Z.ltb_lt; lia).
    cbn [shr_m loc_of_shr_record round_nearest_even Zdigits2 shr_record_of_loc].
    rewrite Hd', fexp_normal by lia.
    rewrite shr_nonpos by lia.
    cbn [shr_m].
    assert ((e + n <=? emax - prec) = true) as -> by (apply Z.leb_le; lia).
    done.
  - rewrite shr_nonpos by lia.
    assert (n = 0) as Hn0 by lia.
    rewrite Hn0, Z.pow_0_r, Z.mul_1_r in Em. injection Em as ->.
    cbn [shr_m loc_of_shr_record round_nearest_even Zdigits2 shr_record_of_loc].
    rewrite Hd, fexp_normal by lia.
    rewrite shr_nonpos by lia.
    cbn [shr_m].
    rewrite Hn0, Z.add_0_r.
    assert ((e <=? emax - prec) = true) as -> by (apply Z.leb_le; lia).
    done.
Qed.

(** [binary_round] of a mantissa that fits the precision only normalises
    it. *)
Lemma binary_round_exact (prec emax : Z) (s : bool) (m : positive) (e : Z) :
  Zpos (digits2_pos m) ≤ prec →
  3 - emax - prec ≤ Zpos (digits2_pos m) + e - prec →
  Zpos (digits2_pos m) + e ≤ emax →
  ∃ m' : positive,
    binary_round prec emax s m e
    = S754_finite s m' (e - (prec - Zpos (digits2_pos m)))
    ∧ Zpos m' = Zpos m * 2 ^ (prec - Zpos (digits2_pos m))
    ∧ Zpos (digits2_pos m') = prec.
Proof.
  intros Hd Hmin Hmax.
  unfold binary_round, shl_align.
  rewrite fexp_normal by lia.
  pose proof (binary_round_aux_exact prec emax s m) as Haux.
  remember (Zpos (digits2_pos m)) as dm eqn:Edm.
  replace (dm + e - prec - e) with (dm - prec) by lia.
  destruct (dm - prec) as [|d|d] eqn:Ed; [| lia |].
  - destruct (Haux 0 e) as (m' & Hr & Hm'); try lia.
    replace (Z.max 0 (dm + 0 - prec)) with 0 in * by lia.
    rewrite Z.pow_0_r, Z.mul_1_r in Hr.
    change (0 - 0) with 0 in Hm'. rewrite Z.pow_0_r, Z.mul_1_r in Hm'.
    injection Hm' as ->.
    exists m. rewrite Hr. split; [f_equal; lia|].
    replace (prec - dm) with 0 by lia. split; lia.
  - assert (Hk : Zpos d = prec - dm) by lia.
    destruct (Haux (Zpos d) (dm + e - prec)) as (m' & Hr & Hm'); try lia.
    replace (Z.max 0 (dm + Zpos d - prec)) with 0 in * by lia.
    rewrite <- iter_xO_val in Hr.
    exists m'. rewrite Hr. split; [f_equal; lia|].
    rewrite Z.sub_0_r in Hm'. rewrite Hm', Hk. split; [done|].
    rewrite (digits_mul_pow2 m m' (Zpos d)) by (lia || done). lia.
Qed.

(** The [float] of a positive integer below [2^24]. *)
Lemma f32_of_Z_canon (v : Z) : 0 ≤ v < 2 ^ 24 → canon32_int (f32_of_Z v) v.
Proof.
  intros Hv. destruct v as [|p|p]; [left; done | | lia].
  right. unfold f32_of_Z, binary_normalize.
  assert (Hd : Zpos (digits2_pos p) ≤ 24).
  { pose proof (digits2_pos_spec p) as [Hlo _].
    destruct (Z_le_gt_dec (Zpos (digits2_pos p)) 24) as [|Hgt]; [done|].
    exfalso.
    assert (2 ^ 24 ≤ 2 ^ (Zpos (digits2_pos p) - 1)) by (apply Z.pow_le_mono_r; lia).
    lia. }
  destruct (binary_round_exact 24 128 false p 0) as (m' & Hr & Hm' & Hd'); try lia.
  exists m', (0 - (24 - Zpos (digits2_pos p))).
  split; [done|]. split; [done|]. split; [lia|].
  rewrite Hm'. do 2 f_equal. lia.
Qed.

Lemma canon32_int_val (x : flt) (v : Z) : canon32_int x v → int_val x v.
Proof.
  intros [H | (m & e & -> & _ & He & Hm)]; [by left | right; eauto].
Qed.

(** Promotion to [double] keeps an integer value. *)
Lemma f64_of_f32_int (x : flt) (v : Z) : canon32_int x v → int_val (f64_of_f32 x) v.
Proof.
  intros [[-> ->] | (m & e & -> & Hd & He & Hm)]; [by left|].
  right. cbn [f64_of_f32].
  assert (Hv : 0 < v).
  { assert (0 < 2 ^ (- e)) by (apply Z.pow_pos_nonneg; lia). nia. }
  assert (He' : -24 < e).
  { destruct (Z_lt_le_dec (-24) e) as [|Hle]; [done|]. exfalso.
    pose proof (digits2_pos_spec m) as [_ Hhi]. rewrite Hd in Hhi.
    assert (2 ^ 24 ≤ 2 ^ (- e)) by (apply Z.pow_le_mono_r; lia). nia. }
  destruct (binary_round_exact 53 1024 false m e) as (m' & Hr & Hm' & _); try lia.
  rewrite Hd in *.
  exists m', (e - 29). split; [done|]. split; [lia|].
  rewrite Hm', Hm. change (53 - 24) with 29.
  rewrite <- Z.mul_assoc, <- Z.pow_add_r by lia. do 2 f_equal. lia.
Qed.

Lemma digits2_pos_le (p : positive) (d : Z) :
  Zpos p < 2 ^ d → Zpos (digits2_pos p) ≤ d.
Proof.
  intros Hp. pose proof (digits2_pos_spec p) as [Hlo _].
  destruct (Z_le_gt_dec (Zpos (digits2_pos p)) d) as [|Hgt]; [done|].
  exfalso.
  assert (0 ≤ d).
  { destruct (Z_lt_le_dec d 0); [|done]. rewrite Z.pow_neg_r in Hp; lia. }
  assert (2 ^ d ≤ 2 ^ (Zpos (digits2_pos p) - 1)) by (apply Z.pow_le_mono_r; lia).
  lia.
Qed.

Lemma digits2_pos_gt (p : positive) (d : Z) :
  2 ^ d ≤ Zpos p → d < Zpos (digits2_pos p).
Proof.
  intros Hp. pose proof (digits2_pos_spec p) as [_ Hhi].
  destruct (Z_lt_le_dec d (Zpos (digits2_pos p))) as [|Hle]; [done|].
  exfalso.
  assert (2 ^ Zpos (digits2_pos p) ≤ 2 ^ d) by (apply Z.pow_le_mono_r; lia).
  lia.
Qed.

(** A [float] product of two integers is exact while it stays below [2^24]. *)
Lemma f32_mul_canon (x y : flt) (a b : Z) :
  canon32_int x a → canon32_int y b → a * b < 2 ^ 24 →
  canon32_int (f32_mul x y) (a * b).
Proof.
  intros [[-> ->] | (m1 & e1 & -> & Hd1 & He1 & Hm1)]
         [[-> ->] | (m2 & e2 & -> & Hd2 & He2 & Hm2)] Hab;
    try (left; split; [lia | done]).
  right. unfold f32_mul, SFmul. cbn [xorb].
  assert (H1 : 0 < 2 ^ (- e1)) by (apply Z.pow_pos_nonneg; lia).
  assert (H2 : 0 < 2 ^ (- e2)) by (apply Z.pow_pos_nonneg; lia).
  assert (Ha : 0 < a) by nia.
  assert (Hb : 0 < b) by nia.
  assert (Hq : 0 < a * b) by nia.
  destruct (a * b) as [|q|] eqn:Eq; try lia.
  assert (Hprod : Zpos (m1 * m2) = Zpos q * 2 ^ (- e1 - e2)).
  { rewrite Pos2Z.inj_mul, Hm1, Hm2.
    replace (- e1 - e2) with (- e1 + - e2) by lia.
    rewrite Z.pow_add_r by lia. nia. }
  assert (Hdq : Zpos (digits2_pos q) ≤ 24) by (apply digits2_pos_le; lia).
  assert (Hdp : 46 < Zpos (digits2_pos q) + (- e1 - e2)).
  { rewrite <- (digits_mul_pow2 q (m1 * m2)) by (lia || done).
    apply digits2_pos_gt.
    pose proof (digits2_pos_spec m1) as [L1 _].
    pose proof (digits2_pos_spec m2) as [L2 _].
    rewrite Hd1 in L1. rewrite Hd2 in L2.
    change (2 ^ (24 - 1)) with 8388608 in *.
    change (2 ^ 46) with (8388608 * 8388608). rewrite Pos2Z.inj_mul. nia. }
  destruct (binary_round_aux_exact 24 128 false q (- e1 - e2) (e1 + e2))
    as (m' & Hr & Hm'); try lia.
  rewrite <- Hprod in Hr.
  remember (Zpos (digits2_pos q)) as dq eqn:Edq.
  replace (Z.max 0 (dq + (- e1 - e2) - 24)) with (dq + (- e1 - e2) - 24) in * by lia.
  exists m', (e1 + e2 + (dq + (- e1 - e2) - 24)).
  split; [done|]. split.
  { rewrite (digits_mul_pow2 q m' (- e1 - e2 - (dq + (- e1 - e2) - 24)))
      by (lia || done). lia. }
  split; [lia|].
  rewrite Hm'. do 2 f_equal. lia.
Qed.

(** The cast to [int] of an integer value. *)
Lemma f_to_int_int_val (x : flt) (v : Z) :
  int_val x v → v ≤ 2147483647 → f_to_int x = Some v.
Proof.
  intros [[-> ->] | (m & e & -> & He & Hm)] Hv; [done|].
  assert (H2 : 0 < 2 ^ (- e)) by (apply Z.pow_pos_nonneg; lia).
  assert (Hpos : 0 < v) by nia.
  assert (Ht : trunc_mag m e = v).
  { unfold trunc_mag. rewrite Hm.
    destruct (Z.leb_spec 0 e).
    - replace e with 0 by lia. cbn. lia.
    - apply Z.div_mul. lia. }
  cbn [f_to_int cond_Zopp]. rewrite Ht.
  assert (Int.in_s32 v = true) as ->; [|done].
  unfold Int.in_s32. apply andb_true_intro.
  split; apply Z.leb_le; lia.
Qed.

(** Comparison of an integer value with a positive finite constant. *)
Lemma f_compare_int_val (x : flt) (v : Z) (M : positive) (E : Z) :
  int_val x v → E ≤ 0 →
  f_compare x (S754_finite false M E) = Some (v * 2 ^ (- E) ?= Zpos M).
Proof.
  intros [[-> ->] | (m & e & -> & He & Hm)] HE; [done|].
  cbn [f_compare signed_mant cond_Zopp]. f_equal.
  rewrite Hm.
  set (lo := Z.min e E).
  assert (Hc : 0 < 2 ^ (E - lo)) by (apply Z.pow_pos_nonneg; lia).
  replace (v * 2 ^ (- e) * 2 ^ (e - lo)) with (v * 2 ^ (- E) * 2 ^ (E - lo)).
  - symmetry. apply Zmult_compare_compat_r. lia.
  - rewrite <- !Z.mul_assoc, <- !Z.pow_add_r by lia. do 2 f_equal. lia.
Qed.

Lemma f_le_int_val (x : flt) (v : Z) (M : positive) (E : Z) :
  int_val x v → E ≤ 0 →
  f_le x (S754_finite false M E) = (v * 2 ^ (- E) <=? Zpos M).
Proof.
  intros Hx HE. unfold f_le. rewrite (f_compare_int_val x v) by done.
  unfold Z.leb. by destruct (v * 2 ^ (- E) ?= Zpos M).
Qed.

End FltFacts.

Import FltFacts.

(** ** Integer arithmetic of [map] *)

Lemma wrap_s32_small (z : Z) :
  -2147483648 ≤ z ≤ 2147483647 → Int.wrap_s32 z = z.
Proof. intros Hz. unfold Int.wrap_s32. rewrite Z.mod_small; lia. Qed.

Lemma quot_bounds (n d q : Z) :
  0 ≤ n → 0 < d → n ≤ d * q → 0 ≤ n ÷ d ≤ q.
Proof.
  intros Hn Hd Hq. rewrite Z.quot_div_nonneg by lia. split.
  - apply Z.div_pos; lia.
  - apply Z.div_le_upper_bound; lia.
Qed.

(** Without overflow, [map] is the interpolation of the reference. *)
Lemma map_interpolate (x a b c d : Z) :
  0 ≤ a ≤ x → x ≤ 1000000 → a < b ≤ 1000000 → 0 ≤ c ≤ d → d ≤ 500 →
  Arduino.map x a b c d = Reference.interpolate (Reference.mkBand a b c d) x.
Proof.
  intros Hx Hx' Hb Hc Hd.
  unfold Arduino.map, Reference.interpolate. cbn.
  assert (HN : 0 ≤ (x - a) * (d - c) ≤ 1000000 * 500) by nia.
  set (N := (x - a) * (d - c)) in *.
  destruct (quot_bounds N (b - a) N); [lia | lia | nia |].
  rewrite (wrap_s32_small (x - a)), (wrap_s32_small (d - c)),
    (wrap_s32_small (b - a)) by lia.
  fold N. rewrite (wrap_s32_small N) by lia.
  rewrite wrap_s32_small by lia. lia.
Qed.

Lemma interpolate_in_band (x a b c d : Z) :
  a ≤ x ≤ b → a < b → c ≤ d →
  c ≤ Reference.interpolate (Reference.mkBand a b c d) x ≤ d.
Proof.
  intros Hx Hb Hc. unfold Reference.interpolate. cbn.
  destruct (quot_bounds ((x - a) * (d - c)) (b - a) (d - c)); [nia | lia | nia |].
  lia.
Qed.

Lemma interpolate_above (x a b c d : Z) :
  a ≤ x → a < b → c ≤ d →
  c ≤ Reference.interpolate (Reference.mkBand a b c d) x.
Proof.
  intros Hx Hb Hc. unfold Reference.interpolate. cbn.
  assert (HN : 0 ≤ (x - a) * (d - c)) by nia.
  set (N := (x - a) * (d - c)) in *.
  destruct (quot_bounds N (b - a) N); [lia | lia | nia |].
  lia.
Qed.

Lemma map_rescale (g : Z) :
  0 ≤ g ≤ 4095 → Arduino.map g 0 4095 0 50 = Reference.rescale g ∧ 0 ≤ Reference.rescale g ≤ 50.
Proof.
  intros Hg. rewrite map_interpolate by lia.
  unfold Reference.rescale, Reference.interpolate.
  cbn [Reference.c_lo Reference.c_hi Reference.i_lo Reference.i_hi].
  replace ((g - 0) * (50 - 0)) with (g * 50) by lia.
  change (4095 - 0) with 4095.
  destruct (quot_bounds (g * 50) 4095 50); lia.
Qed.

(** ** The sub-indices on decoded values *)

Lemma pm25_subindex_range (v : Z) :
  0 ≤ v → 0 ≤ Reference.pm25_subindex v ≤ 500.
Proof.
  intros Hv. unfold Reference.pm25_subindex, Reference.pm25_bands,
    Reference.pm25_top, Reference.subindex.
  cbn [Reference.c_hi].
  repeat (match goal with
          | |- context [?a <=? ?b] => destruct (Z.leb_spec a b)
          end;
          [ match goal with
            | |- _ ≤ Reference.interpolate (Reference.mkBand ?a ?b ?c ?d) ?x ≤ _ =>
                pose proof (interpolate_in_band x a b c d); lia
            end | ]).
  pose proof (interpolate_above (10 * v) 2505 5000 301 500). lia.
Qed.

Lemma pm10_subindex_range (v : Z) :
  0 ≤ v → 0 ≤ Reference.pm10_subindex v ≤ 500.
Proof.
  intros Hv. unfold Reference.pm10_subindex, Reference.pm10_bands,
    Reference.pm10_top, Reference.subindex.
  cbn [Reference.c_hi].
  repeat (match goal with
          | |- context [?a <=? ?b] => destruct (Z.leb_spec a b)
          end;
          [ match goal with
            | |- _ ≤ Reference.interpolate (Reference.mkBand ?a ?b ?c ?d) ?x ≤ _ =>
                pose proof (interpolate_in_band x a b c d); lia
            end | ]).
  pose proof (interpolate_above v 425 604 301 500). lia.
Qed.


Ltac eval_pow2 :=
  repeat match goal with
         | |- context [2 ^ ?k] =>
             let c := eval vm_compute in (2 ^ k) in change (2 ^ k) with c
         end.

Ltac split_leb :=
  repeat match goal with
         | |- context [?a <=? ?b] => destruct (Z.leb_spec a b)
         | |- context [?a <? ?b] => destruct (Z.ltb_spec a b)
         end.

Lemma lit_f10_canon : canon32_int Lit.f10 10.
Proof. right. exists 10485760%positive, (-20). repeat split; (reflexivity || lia). Qed.

Lemma pm25_aqi_of_decoded (v : Z) :
  0 ≤ v ≤ 65535 → pm25_aqi_of (f32_of_Z v) = Some (Reference.pm25_subindex v).
Proof.
  intros Hv.
  assert (Hx : canon32_int (f32_of_Z v) v) by (apply f32_of_Z_canon; lia).
  pose proof (f64_of_f32_int _ _ Hx) as Hp.
  pose proof (f32_mul_canon _ _ _ _ Hx lit_f10_canon ltac:(lia)) as Hm.
  unfold pm25_aqi_of.
  rewrite (f_to_int_int_val _ (v * 10)) by first [by apply canon32_int_val | lia].
  cbn [mbind option_bind].
  unfold Lit.d12_0, Lit.d35_4, Lit.d55_4, Lit.d150_4, Lit.d250_4.
  rewrite !(f_le_int_val _ v) by (done || lia).
  f_equal.
  unfold Reference.pm25_subindex, Reference.pm25_bands, Reference.pm25_top,
    Reference.subindex.
  cbn [Reference.c_hi]. eval_pow2.
  replace (v * 10) with (10 * v) by lia.
  split_leb; try lia; try (apply map_interpolate; lia);
    rewrite map_interpolate in * by lia; lia.
Qed.

Lemma pm10_aqi_of_decoded (v : Z) :
  0 ≤ v ≤ 65535 → pm10_aqi_of (f32_of_Z v) = Some (Reference.pm10_subindex v).
Proof.
  intros Hv.
  assert (Hx : canon32_int (f32_of_Z v) v) by (apply f32_of_Z_canon; lia).
  pose proof (canon32_int_val _ _ Hx) as Hp.
  unfold pm10_aqi_of.
  rewrite (f_to_int_int_val _ v) by (done || lia).
  cbn [mbind option_bind].
  unfold Lit.f54, Lit.f154, Lit.f254, Lit.f354, Lit.f424.
  rewrite !(f_le_int_val _ v) by (done || lia).
  f_equal.
  unfold Reference.pm10_subindex, Reference.pm10_bands, Reference.pm10_top,
    Reference.subindex.
  cbn [Reference.c_hi]. eval_pow2.
  split_leb; try lia; try (apply map_interpolate; lia);
    rewrite map_interpolate in * by lia; lia.
Qed.

(** ** Signs: no operation of the engine yields a NaN or a negative number *)

Module SignFacts.

Lemma iter_pos_invariant {A : Type} (P : A → Prop) (f : A → A) :
  (∀ x, P x → P (f x)) → ∀ (n : positive) (x : A), P x → P (SpecFloat.iter_pos f n x).
Proof.
  intros Hf n. induction n as [n IH | n IH |]; intros x Hx; cbn; auto.
Qed.

Lemma shr_1_nonneg (mrs : shr_record) : 0 ≤ shr_m mrs → 0 ≤ shr_m (shr_1 mrs).
Proof.
  destruct mrs as [m r s]. cbn [shr_m].
  destruct m as [|[p|p|]|p]; cbn; lia.
Qed.

Lemma shr_nonneg (mrs : shr_record) (e n : Z) :
  0 ≤ shr_m mrs → 0 ≤ shr_m (shr mrs e n).1.
Proof.
  intros H. destruct n as [|p|p]; cbn [shr fst]; try done.
  apply (iter_pos_invariant (fun r => 0 ≤ shr_m r)); [apply shr_1_nonneg | done].
Qed.

Lemma shr_fexp_nonneg (prec emax m e : Z) (l : location) :
  0 ≤ m → 0 ≤ shr_m (shr_fexp prec emax m e l).1.
Proof.
  intros H. unfold shr_fexp. apply shr_nonneg.
  destruct l as [|[]]; done.
Qed.

Lemma round_nearest_even_nonneg (m : Z) (l : location) :
  0 ≤ m → 0 ≤ round_nearest_even m l.
Proof.
  intros H. destruct l as [|[]]; cbn; [done | | done | lia].
  destruct (Z.even m); lia.
Qed.

Lemma binary_round_aux_sign (prec emax : Z) (s : bool) (m e : Z) (l : location) :
  0 ≤ m → has_sign s (binary_round_aux prec emax s m e l).
Proof.
  intros Hm. unfold binary_round_aux.
  pose proof (shr_fexp_nonneg prec emax m e l Hm) as H1.
  destruct (shr_fexp prec emax m e l) as [mrs' e'].
  cbn [fst] in H1.
  pose proof (round_nearest_even_nonneg _ (loc_of_shr_record mrs') H1) as H2.
  pose proof (shr_fexp_nonneg prec emax _ e' loc_Exact H2) as H3.
  destruct (shr_fexp prec emax _ e' loc_Exact) as [mrs'' e''].
  cbn [fst] in H3.
  destruct (shr_m mrs'') as [|p|p]; [done | | lia].
  by destruct (e'' <=? emax - prec).
Qed.

Lemma binary_round_sign (prec emax : Z) (s : bool) (m : positive) (e : Z) :
  has_sign s (binary_round prec emax s m e).
Proof.
  unfold binary_round.
  destruct (shl_align m e _) as [mz ez].
  by apply binary_round_aux_sign.
Qed.

Lemma has_sign_fpos (x : flt) : has_sign false x → fpos x = true.
Proof. destruct x as [s|s| |s m e]; cbn; intros H; by subst. Qed.

Lemma has_sign_not_nan (s : bool) (x : flt) : has_sign s x → is_nan x = false.
Proof. by destruct x. Qed.

Lemma binary_normalize_not_nan (prec emax m e : Z) (sz : bool) :
  is_nan (binary_normalize prec emax m e sz) = false.
Proof.
  destruct m; cbn [binary_normalize]; [done | |];
    eapply has_sign_not_nan, binary_round_sign.
Qed.

Lemma binary_normalize_fpos (prec emax m e : Z) (sz : bool) :
  0 ≤ m → fpos (binary_normalize prec emax m e sz) = true.
Proof.
  intros Hm. destruct m; cbn [binary_normalize]; [done | | lia].
  apply has_sign_fpos, binary_round_sign.
Qed.

Lemma f64_of_f32_fpos (x : flt) : fpos x = true → fpos (f64_of_f32 x) = true.
Proof.
  destruct x as [s|[]| |[] m e]; cbn; try done.
  intros _. apply has_sign_fpos, binary_round_sign.
Qed.

Lemma f32_of_f64_fpos (x : flt) : fpos x = true → fpos (f32_of_f64 x) = true.
Proof.
  destruct x as [s|[]| |[] m e]; cbn; try done.
  intros _. apply has_sign_fpos, binary_round_sign.
Qed.

(** A product with a positive finite constant. *)
Lemma SFmul_fpos (prec emax : Z) (x : flt) (mc : positive) (ec : Z) :
  fpos x = true → fpos (SFmul prec emax x (S754_finite false mc ec)) = true.
Proof.
  destruct x as [s|[]| |[] m e]; cbn; try done.
  intros _. by apply has_sign_fpos, binary_round_aux_sign.
Qed.

Lemma SFadd_fpos (prec emax : Z) (x y : flt) :
  fpos x = true → fpos y = true → fpos (SFadd prec emax x y) = true.
Proof.
  destruct x as [sx|[]| |[] mx ex]; destruct y as [sy|[]| |[] my ey];
    cbn [fpos SFadd]; try done.
  - by destruct sx, sy.
  - intros _ _. cbn [cond_Zopp]. apply binary_normalize_fpos. lia.
Qed.

Lemma SFdiv_fpos (prec emax : Z) (x : flt) (mc : positive) (ec : Z) :
  fpos x = true → fpos (SFdiv prec emax x (S754_finite false mc ec)) = true.
Proof.
  destruct x as [s|[]| |[] m e]; cbn [fpos SFdiv xorb]; try done.
  intros _. unfold SFdiv_core_binary.
  set (m' := match _ with Z0 => Zpos m | Zpos _ => _ | Zneg _ => 0 end).
  assert (Hm' : 0 ≤ m').
  { subst m'. destruct (_ - _ - _) eqn:E; [lia | | lia].
    apply Z.shiftl_nonneg. lia. }
  pose proof (Z_div_mod m' (Zpos mc) ltac:(lia)) as Hdm.
  destruct (Z.div_eucl m' (Zpos mc)) as [q r].
  apply has_sign_fpos, binary_round_aux_sign. nia.
Qed.

(** Subtracting a finite constant from a number gives a number. *)
Lemma SFsub_not_nan (prec emax : Z) (x : flt) (s : bool) (mc : positive) (ec : Z) :
  is_nan x = false → is_nan (SFsub prec emax x (S754_finite s mc ec)) = false.
Proof.
  destruct x as [sx|sx| |sx m e]; cbn [is_nan SFsub]; try done.
  intros _. apply binary_normalize_not_nan.
Qed.

Lemma f_abs_fpos (x : flt) : is_nan x = false → fpos (f_abs x) = true.
Proof. by destruct x. Qed.

End SignFacts.

Import SignFacts.

(** Lines 309-312: the two bounds checks and the cast. *)
Lemma trunc_mag_le_500 (m : positive) (e : Z) :
  f_gt (S754_finite false m e) Lit.f500 = false → 0 ≤ trunc_mag m e ≤ 500.
Proof.
  unfold f_gt, Lit.f500, f_compare. cbn [signed_mant cond_Zopp].
  set (lo := Z.min e (-15)).
  intros Hcmp.
  assert (Hle : Zpos m * 2 ^ (e - lo) ≤ 16384000 * 2 ^ (-15 - lo)).
  { apply Z.compare_le_iff. intros Hgt. by rewrite Hgt in Hcmp. }
  clear Hcmp. unfold trunc_mag.
  destruct (Z.leb_spec 0 e) as [He | He].
  - replace (e - lo) with (e + 15) in Hle by lia.
    replace (-15 - lo) with 0 in Hle by lia.
    rewrite Z.pow_add_r in Hle by lia. change (2 ^ 15) with 32768 in Hle.
    assert (0 < 2 ^ e) by (apply Z.pow_pos_nonneg; lia). nia.
  - assert (Hp : 0 < 2 ^ (- e)) by (apply Z.pow_pos_nonneg; lia).
    assert (Hm : Zpos m ≤ 500 * 2 ^ (- e)).
    { destruct (Z_le_gt_dec (-15) e) as [He' | He'].
      - replace (e - lo) with (e + 15) in Hle by lia.
        replace (-15 - lo) with 0 in Hle by lia.
        assert (H15 : 2 ^ (- e) * 2 ^ (e + 15) = 32768).
        { rewrite <- Z.pow_add_r by lia. by replace (- e + (e + 15)) with 15 by lia. }
        assert (0 < 2 ^ (e + 15)) by (apply Z.pow_pos_nonneg; lia). nia.
      - replace (e - lo) with 0 in Hle by lia.
        replace (-15 - lo) with (-15 - e) in Hle by lia.
        assert (H15 : 2 ^ (- e) = 32768 * 2 ^ (-15 - e)).
        { change 32768 with (2 ^ 15). rewrite <- Z.pow_add_r by lia.
          f_equal. lia. }
        assert (0 < 2 ^ (-15 - e)) by (apply Z.pow_pos_nonneg; lia). nia. }
    split.
    + apply Z.div_pos; lia.
    + apply Z.div_le_upper_bound; lia.
Qed.

Lemma clamp_truncate_range (c : flt) :
  fpos c = true →
  ∃ a : Z, Reference.clamp_truncate c = Some a ∧ 0 ≤ a ≤ 500.
Proof.
  unfold Reference.clamp_truncate.
  change (f32_of_Z 500) with Lit.f500. change (f32_of_Z 0) with Lit.f0.
  destruct c as [s|[]| |[] m e]; cbn [fpos]; try done; intros _.
  - exists 0. by destruct s.
  - exists 500. done.
  - destruct (f_gt (S754_finite false m e) Lit.f500) eqn:Hgt.
    + exists 500. done.
    + pose proof (trunc_mag_le_500 m e Hgt) as Ht.
      exists (trunc_mag m e). split; [|done].
      cbn [f_lt f_compare Lit.f0 f_to_int cond_Zopp].
      assert (Int.in_s32 (trunc_mag m e) = true) as ->; [|done].
      unfold Int.in_s32. apply andb_true_intro. split; apply Z.leb_le; lia.
Qed.

(** ** The engine against the reference *)

Lemma calculateAQI_reference (d : SensorData) (v w : Z) :
  0 ≤ v ≤ 65535 → 0 ≤ w ≤ 65535 →
  pm25 d = f32_of_Z v → pm10 d = f32_of_Z w →
  adc_level (gasLevel d) → adc_level (smokeLevel d) →
  calculateAQI d
  = (a ← Reference.aqi v w (temperature d) (humidity d) (gasLevel d) (smokeLevel d);
     Some (set_aqi a d)).
Proof.
  intros Hv Hw E25 E10 Hg Hs.
  unfold calculateAQI.
  rewrite E25, E10, pm25_aqi_of_decoded, pm10_aqi_of_decoded by done.
  cbn [mbind option_bind].
  destruct (map_rescale _ Hg) as [-> _].
  destruct (map_rescale _ Hs) as [-> _].
  unfold Reference.aqi, Reference.clamp_truncate, Reference.stress_bonus,
    Reference.composite, Reference.temperature_factor,
    Reference.humidity_factor, tempFactor_of, humidityFactor_of.
  change (f64_lit 40 100) with Lit.d0_4. change (f64_lit 30 100) with Lit.d0_3.
  change (f64_lit 15 100) with Lit.d0_15. change (f64_lit 5 100) with Lit.d0_05.
  change (f32_lit 110 100) with Lit.f1_1. change (f32_lit 105 100) with Lit.f1_05.
  change (f32_lit 100 100) with Lit.f1_0.
  change (f32_of_Z 10) with Lit.f10. change (f64_of_Z 100) with Lit.d100_0.
  change (f32_of_Z 25) with Lit.f25. change (f32_of_Z 50) with Lit.f50.
  change (f32_of_Z 35) with Lit.f35. change (f32_of_Z 80) with Lit.f80.
  change (f32_of_Z 500) with Lit.f500. change (f32_of_Z 0) with Lit.f0.
  reflexivity.
Qed.

Lemma stress_bonus_fpos (t h : flt) :
  is_nan t = false → is_nan h = false → fpos (Reference.stress_bonus t h) = true.
Proof.
  intros Ht Hh. unfold Reference.stress_bonus.
  change (f32_of_Z 10) with Lit.f10. change (f64_of_Z 100) with Lit.d100_0.
  change (f32_of_Z 25) with Lit.f25. change (f32_of_Z 50) with Lit.f50.
  apply SFmul_fpos, f32_of_f64_fpos, SFdiv_fpos, f64_of_f32_fpos, SFadd_fpos;
    apply f_abs_fpos, SFsub_not_nan; done.
Qed.

(** ** Magnitudes: the weighted sum of the engine is finite *)

Module MagFacts.

Lemma Zdigits2_nonneg (a : Z) : 0 ≤ Zdigits2 a.
Proof. destruct a; cbn; lia. Qed.

Lemma Zdigits2_gt (a : Z) : 0 ≤ a → a < 2 ^ Zdigits2 a.
Proof.
  intros Ha. destruct a as [|p|p]; [cbn; lia | | lia].
  apply (digits2_pos_spec p).
Qed.

Lemma Zdigits2_le (a k : Z) : 0 ≤ a < 2 ^ k → 0 ≤ k → Zdigits2 a ≤ k.
Proof.
  intros [Ha Hk] Hk0. destruct a as [|p|p]; [done | | lia].
  by apply digits2_pos_le.
Qed.

Lemma Zdigits2_succ (a : Z) : 0 ≤ a → Zdigits2 (a + 1) ≤ Zdigits2 a + 1.
Proof.
  intros Ha. pose proof (Zdigits2_gt a Ha). pose proof (Zdigits2_nonneg a).
  apply Zdigits2_le; [|lia].
  rewrite Z.pow_add_r, Z.pow_1_r by lia. lia.
Qed.

Lemma Zdigits2_div_pow2 (a n : Z) :
  0 ≤ a → 0 ≤ n → Zdigits2 (a / 2 ^ n) ≤ Z.max 0 (Zdigits2 a - n).
Proof.
  intros Ha Hn.
  pose proof (Zdigits2_gt a Ha) as Hd. pose proof (Zdigits2_nonneg a) as Hd0.
  assert (Hp : 0 < 2 ^ n) by (apply Z.pow_pos_nonneg; lia).
  assert (0 ≤ a / 2 ^ n) by (apply Z.div_pos; lia).
  destruct (Z_le_gt_dec n (Zdigits2 a)) as [Hle | Hgt].
  - apply Zdigits2_le; [|lia]. split; [done|].
    apply Z.div_lt_upper_bound; [lia|].
    rewrite Z.max_r, <- Z.pow_add_r by lia.
    by replace (n + (Zdigits2 a - n)) with (Zdigits2 a) by lia.
  - assert (2 ^ Zdigits2 a ≤ 2 ^ n) by (apply Z.pow_le_mono_r; lia).
    rewrite Z.div_small by lia. cbn. lia.
Qed.

Lemma shr_1_m (mrs : shr_record) :
  0 ≤ shr_m mrs → shr_m (shr_1 mrs) = shr_m mrs / 2.
Proof.
  destruct mrs as [m r s]. cbn [shr_m]. intros Hm.
  destruct m as [|[p|p|]|p]; cbn [shr_1 shr_m]; try lia; try done.
  - change (Zpos p~1) with (2 * Zpos p + 1).
    apply Z.div_unique with 1; lia.
  - change (Zpos p~0) with (2 * Zpos p).
    apply Z.div_unique with 0; lia.
Qed.

Lemma iter_shr_m (p : positive) : ∀ mrs : shr_record,
  0 ≤ shr_m mrs →
  shr_m (SpecFloat.iter_pos shr_1 p mrs) = shr_m mrs / 2 ^ Zpos p.
Proof.
  assert (Hnn : ∀ (q : positive) mrs,
             0 ≤ shr_m mrs → 0 ≤ shr_m (SpecFloat.iter_pos shr_1 q mrs)).
  { intros q mrs H. apply (SignFacts.iter_pos_invariant (λ r, 0 ≤ shr_m r));
      [apply SignFacts.shr_1_nonneg | done]. }
  induction p as [p IH | p IH |]; intros mrs Hm; cbn [SpecFloat.iter_pos].
  - rewrite IH, IH, shr_1_m by auto using SignFacts.shr_1_nonneg.
    change (Zpos p~1) with (2 * Zpos p + 1).
    rewrite Z.pow_add_r, Z.pow_twice_r, Z.pow_1_r by lia.
    assert (0 < 2 ^ Zpos p) by (apply Z.pow_pos_nonneg; lia).
    rewrite !Z.div_div by lia. f_equal. lia.
  - rewrite IH, IH by auto.
    change (Zpos p~0) with (2 * Zpos p).
    rewrite Z.pow_twice_r.
    assert (0 < 2 ^ Zpos p) by (apply Z.pow_pos_nonneg; lia).
    by rewrite Z.div_div by lia.
  - by rewrite shr_1_m.
Qed.

(** One shift to the exponent of the format: exponent and magnitude after
    it. *)
Lemma shr_fexp_bound (prec emax m e K : Z) (l : location) :
  0 ≤ m → Zdigits2 m + e ≤ K → e ≤ K → 3 - emax - prec ≤ K → 0 < prec →
  let r := shr_fexp prec emax m e l in
  0 ≤ shr_m r.1 ∧ Zdigits2 (shr_m r.1) + r.2 ≤ K
  ∧ r.2 ≤ Z.max e (fexp prec emax (Zdigits2 m + e)).
Proof.
  intros Hm HK He Hemin Hprec. cbv zeta.
  split; [by apply SignFacts.shr_fexp_nonneg|].
  unfold shr_fexp.
  set (n := fexp prec emax (Zdigits2 m + e) - e).
  assert (Hfexp : fexp prec emax (Zdigits2 m + e) ≤ K) by (unfold fexp, emin; lia).
  assert (Hrec : shr_m (shr_record_of_loc m l) = m) by (by destruct l as [|[]]).
  destruct n as [|p|p] eqn:En; cbn [shr fst snd].
  - rewrite Hrec. lia.
  - rewrite iter_shr_m, Hrec by (rewrite Hrec; done).
    pose proof (Zdigits2_div_pow2 m (Zpos p) Hm ltac:(lia)). lia.
  - rewrite Hrec. lia.
Qed.

(** Rounding a mantissa of magnitude below [2^K] gives a finite number
    below [2^(K+1)]. *)
Lemma binary_round_aux_fin (prec emax : Z) (s : bool) (m e K : Z) (l : location) :
  0 ≤ m → Zdigits2 m + e ≤ K → e ≤ K →
  0 < prec → 3 - emax - prec ≤ K → K + 1 ≤ emax - prec →
  fin_below (K + 1) (binary_round_aux prec emax s m e l).
Proof.
  intros Hm HK He Hprec Hemin Hemax.
  unfold binary_round_aux.
  pose proof (shr_fexp_bound prec emax m e K l Hm HK He Hemin Hprec) as H1.
  cbv zeta in H1.
  destruct (shr_fexp prec emax m e l) as [mrs' e'].
  cbn [fst snd] in H1. destruct H1 as (Hm1 & HK1 & He1).
  set (m2 := round_nearest_even (shr_m mrs') (loc_of_shr_record mrs')).
  assert (Hm2 : 0 ≤ m2) by (by apply SignFacts.round_nearest_even_nonneg).
  assert (Hd2 : Zdigits2 m2 ≤ Zdigits2 (shr_m mrs') + 1).
  { subst m2. pose proof (Zdigits2_succ (shr_m mrs') Hm1).
    destruct (loc_of_shr_record mrs') as [|[]]; cbn [round_nearest_even];
      try lia.
    destruct (Z.even (shr_m mrs')); lia. }
  assert (He' : e' ≤ K) by (unfold fexp, emin in He1; lia).
  pose proof (shr_fexp_bound prec emax m2 e' (K + 1) loc_Exact Hm2
                ltac:(lia) ltac:(lia) ltac:(lia) Hprec) as H3.
  cbv zeta in H3.
  destruct (shr_fexp prec emax m2 e' loc_Exact) as [mrs'' e''].
  cbn [fst snd] in H3. destruct H3 as (Hm3 & HK3 & He3).
  destruct (shr_m mrs'') as [|m3|m3] eqn:Em3; [done | | lia].
  assert ((e'' <=? emax - prec) = true) as ->.
  { apply Z.leb_le. unfold fexp, emin in *. lia. }
  cbn [fin_below Zdigits2] in *. lia.
Qed.

Lemma fin_below_weaken (K K' : Z) (x : flt) :
  K ≤ K' → fin_below K x → fin_below K' x.
Proof. destruct x; cbn; lia. Qed.

Lemma shl_align_val (m : positive) (e e' : Z) :
  let r := shl_align m e e' in
  r.2 ≤ e ∧ Zpos r.1 = Zpos m * 2 ^ (e - r.2).
Proof.
  cbv zeta. unfold shl_align.
  destruct (e' - e) as [|d|d] eqn:Ed; cbn [fst snd].
  - rewrite Z.sub_diag. cbn. lia.
  - rewrite Z.sub_diag. cbn. lia.
  - split; [lia|]. rewrite iter_xO_val. do 2 f_equal. lia.
Qed.

Lemma binary_round_fin (prec emax : Z) (s : bool) (m : positive) (e K : Z) :
  Zpos (digits2_pos m) + e ≤ K →
  0 < prec → 3 - emax - prec ≤ K → K + 1 ≤ emax - prec →
  fin_below (K + 1) (binary_round prec emax s m e).
Proof.
  intros HK Hprec Hemin Hemax. unfold binary_round.
  pose proof (shl_align_val m e (fexp prec emax (Zpos (digits2_pos m) + e)))
    as [Hle Hval].
  destruct (shl_align m e _) as [mz ez]. cbn [fst snd] in *.
  assert (Hd : Zpos (digits2_pos mz) = Zpos (digits2_pos m) + (e - ez))
    by (apply digits_mul_pow2; [lia | done]).
  apply binary_round_aux_fin; cbn [Zdigits2]; try lia.
Qed.

Lemma binary_normalize_fin (prec emax m e K : Z) (sz : bool) :
  Zdigits2 m + e ≤ K →
  0 < prec → 3 - emax - prec ≤ K → K + 1 ≤ emax - prec →
  fin_below (K + 1) (binary_normalize prec emax m e sz).
Proof.
  intros HK Hprec Hemin Hemax.
  destruct m; cbn [binary_normalize]; [done | |]; by apply binary_round_fin.
Qed.

Lemma SFmul_fin (prec emax : Z) (x y : flt) (K1 K2 : Z) :
  fin_below K1 x → fin_below K2 y →
  0 < prec → 3 - emax - prec ≤ K1 + K2 → K1 + K2 + 1 ≤ emax - prec →
  fin_below (K1 + K2 + 1) (SFmul prec emax x y).
Proof.
  intros Hx Hy Hprec Hemin Hemax.
  destruct x as [sx|sx| |sx mx ex]; destruct y as [sy|sy| |sy my ey];
    cbn [fin_below SFmul] in *; try done.
  pose proof (digits2_pos_spec mx) as [_ Hdx].
  pose proof (digits2_pos_spec my) as [_ Hdy].
  assert (Hd : Zpos (digits2_pos (mx * my))
               ≤ Zpos (digits2_pos mx) + Zpos (digits2_pos my)).
  { apply digits2_pos_le. rewrite Pos2Z.inj_mul, Z.pow_add_r by lia. nia. }
  apply binary_round_aux_fin; cbn [Zdigits2]; lia.
Qed.

Lemma SFadd_fin (prec emax : Z) (x y : flt) (K : Z) :
  fin_below K x → fin_below K y →
  0 < prec → 3 - emax - prec ≤ K → K + 2 ≤ emax - prec →
  fin_below (K + 2) (SFadd prec emax x y).
Proof.
  intros Hx Hy Hprec Hemin Hemax.
  destruct x as [sx|sx| |sx mx ex]; destruct y as [sy|sy| |sy my ey];
    cbn [fin_below SFadd] in *; try done; try lia.
  - by destruct sx, sy.
  - set (ez := Z.min ex ey).
    pose proof (shl_align_val mx ex ez) as [_ Hvx].
    pose proof (shl_align_val my ey ez) as [_ Hvy].
    assert (Hsx : (shl_align mx ex ez).2 = ez).
    { unfold shl_align. destruct (ez - ex) eqn:E; cbn [snd]; lia. }
    assert (Hsy : (shl_align my ey ez).2 = ez).
    { unfold shl_align. destruct (ez - ey) eqn:E; cbn [snd]; lia. }
    rewrite Hsx in Hvx. rewrite Hsy in Hvy.
    set (ax := Zpos (shl_align mx ex ez).1) in *.
    set (ay := Zpos (shl_align my ey ez).1) in *.
    pose proof (digits2_pos_spec mx) as [_ Hdx].
    pose proof (digits2_pos_spec my) as [_ Hdy].
    assert (Hbx : ax < 2 ^ (K - ez)).
    { rewrite Hvx.
      assert (2 ^ Zpos (digits2_pos mx) * 2 ^ (ex - ez) ≤ 2 ^ (K - ez)).
      { rewrite <- Z.pow_add_r by lia. apply Z.pow_le_mono_r; lia. }
      assert (0 < 2 ^ (ex - ez)) by (apply Z.pow_pos_nonneg; lia). nia. }
    assert (Hby : ay < 2 ^ (K - ez)).
    { rewrite Hvy.
      assert (2 ^ Zpos (digits2_pos my) * 2 ^ (ey - ez) ≤ 2 ^ (K - ez)).
      { rewrite <- Z.pow_add_r by lia. apply Z.pow_le_mono_r; lia. }
      assert (0 < 2 ^ (ey - ez)) by (apply Z.pow_pos_nonneg; lia). nia. }
    assert (Hax : 0 < ax) by (subst ax; lia).
    assert (Hay : 0 < ay) by (subst ay; lia).
    set (S := cond_Zopp sx ax + cond_Zopp sy ay).
    assert (HS : Z.abs S < 2 ^ (K + 1 - ez)).
    { replace (K + 1 - ez) with (1 + (K - ez)) by lia.
      rewrite Z.pow_add_r, Z.pow_1_r by lia.
      subst S. destruct sx, sy; cbn [cond_Zopp]; lia. }
    replace (K + 2) with (K + 1 + 1) by lia.
    apply binary_normalize_fin; try lia.
    assert (Zdigits2 S ≤ K + 1 - ez); [|lia].
    destruct S as [|p|p]; cbn [Zdigits2]; [lia | |];
      apply digits2_pos_le; cbn [Z.abs] in HS; lia.
Qed.

Lemma f32_of_f64_fin (K : Z) (x : flt) :
  fin_below K x → -149 ≤ K → K + 1 ≤ 104 → fin_below (K + 1) (f32_of_f64 x).
Proof.
  intros Hx Hlo Hhi. destruct x as [s|s| |s m e]; cbn in *; try done.
  apply binary_round_fin; lia.
Qed.

Lemma f64_of_f32_fin (K : Z) (x : flt) :
  fin_below K x → -1074 ≤ K → K + 1 ≤ 971 → fin_below (K + 1) (f64_of_f32 x).
Proof.
  intros Hx Hlo Hhi. destruct x as [s|s| |s m e]; cbn in *; try done.
  apply binary_round_fin; lia.
Qed.

Lemma Zdigits2_int (z : Z) : -2147483648 ≤ z ≤ 2147483647 → Zdigits2 z ≤ 32.
Proof.
  intros Hz. destruct z as [|p|p]; cbn [Zdigits2]; [lia | |];
    apply digits2_pos_le; change (2 ^ 32) with 4294967296; lia.
Qed.

Lemma f64_of_Z_fin (z : Z) :
  -2147483648 ≤ z ≤ 2147483647 → fin_below 33 (f64_of_Z z).
Proof.
  intros Hz. pose proof (Zdigits2_int z Hz).
  apply (binary_normalize_fin 53 1024 z 0 32); lia.
Qed.

Lemma f32_of_Z_fin (z : Z) :
  -2147483648 ≤ z ≤ 2147483647 → fin_below 33 (f32_of_Z z).
Proof.
  intros Hz. pose proof (Zdigits2_int z Hz).
  apply (binary_normalize_fin 24 128 z 0 32); lia.
Qed.

(** A finite number plus a non-negative one is a number. *)
Lemma SFadd_fin_fpos_not_nan (prec emax K : Z) (x y : flt) :
  fin_below K x → fpos y = true → is_nan (SFadd prec emax x y) = false.
Proof.
  destruct x as [sx|sx| |sx mx ex]; destruct y as [sy|[]| |[] my ey];
    cbn [fin_below fpos SFadd is_nan]; try done.
  - by destruct sx, sy.
  - intros _ _. apply SignFacts.binary_normalize_not_nan.
Qed.

End MagFacts.

Import MagFacts SignFacts.

Lemma wrap_s32_range (z : Z) : in_int (Int.wrap_s32 z).
Proof.
  unfold in_int, Int.wrap_s32.
  pose proof (Z.mod_pos_bound (z + 2147483648) 4294967296). lia.
Qed.

Lemma map_range (x a b c d : Z) : in_int (Arduino.map x a b c d).
Proof. apply wrap_s32_range. Qed.

Lemma pm25_aqi_of_defined (x : flt) :
  is_Some (f_to_int (f32_mul x Lit.f10)) →
  ∃ p : Z, pm25_aqi_of x = Some p ∧ in_int p.
Proof.
  intros [z Hz]. unfold pm25_aqi_of. rewrite Hz. cbn [mbind option_bind].
  eexists. split; [reflexivity|].
  repeat (destruct (f_le _ _); [apply map_range|]).
  cbv zeta. destruct (500 <? _); [unfold in_int; lia | apply map_range].
Qed.

Lemma pm10_aqi_of_defined (x : flt) :
  is_Some (f_to_int x) →
  ∃ p : Z, pm10_aqi_of x = Some p ∧ in_int p.
Proof.
  intros [z Hz]. unfold pm10_aqi_of. rewrite Hz. cbn [mbind option_bind].
  eexists. split; [reflexivity|].
  repeat (destruct (f_le _ _); [apply map_range|]).
  cbv zeta. destruct (500 <? _); [unfold in_int; lia | apply map_range].
Qed.

(** The bounds checks and the cast, on any number. *)
Lemma clamp_truncate_defined (c : flt) :
  is_nan c = false →
  ∃ a : Z, Reference.clamp_truncate c = Some a ∧ 0 ≤ a ≤ 500.
Proof.
  intros Hc.
  destruct (fpos c) eqn:Hpos; [by apply clamp_truncate_range|].
  exists 0. split; [|lia].
  unfold Reference.clamp_truncate.
  change (f32_of_Z 500) with Lit.f500. change (f32_of_Z 0) with Lit.f0.
  destruct c as [s|[]| |[] m e]; try done.
  assert (f_gt (S754_finite true m e) Lit.f500 = false) as ->; [|done].
  unfold f_gt, Lit.f500, f_compare. cbn [signed_mant cond_Zopp].
  set (lo := Z.min e (-15)).
  assert (0 < 2 ^ (e - lo)) by (apply Z.pow_pos_nonneg; lia).
  assert (0 < 2 ^ (-15 - lo)) by (apply Z.pow_pos_nonneg; lia).
  assert (Hlt : - Zpos m * 2 ^ (e - lo) < 16384000 * 2 ^ (-15 - lo)) by nia.
  apply Z.compare_lt_iff in Hlt. by rewrite Hlt.
Qed.

Lemma tempFactor_of_fin (t : flt) :
  fin_below 1 (tempFactor_of t) ∧ fpos (tempFactor_of t) = true.
Proof.
  unfold tempFactor_of.
  destruct (f_gt t _); [|destruct (f_lt t _)]; split; cbn; (lia || done).
Qed.

Lemma humidityFactor_of_fin (h : flt) :
  fin_below 1 (humidityFactor_of h) ∧ fpos (humidityFactor_of h) = true.
Proof.
  unfold humidityFactor_of.
  destruct (f_gt h _); split; cbn; (lia || done).
Qed.

(** Lines 292-302: the weighted sum with its corrections is finite for any
    sub-indices and analog levels of type [int]. *)
Lemma corrected_composite_fin (p25 p10 g s : Z) (t h : flt) :
  in_int p25 → in_int p10 → in_int g → in_int s →
  fin_below 46
    (f32_mul
       (f32_mul
          (f32_of_f64
             (f64_add
                (f64_add
                   (f64_add (f64_mul (f64_of_Z p25) Lit.d0_4)
                            (f64_mul (f64_of_Z p10) Lit.d0_3))
                   (f64_mul (f64_of_f32 (f32_of_Z g)) Lit.d0_15))
                (f64_mul (f64_of_f32 (f32_of_Z s)) Lit.d0_05)))
          (tempFactor_of t))
       (humidityFactor_of h)).
Proof.
  intros H25 H10 Hg Hs.
  assert (HA : fin_below 35 (f64_mul (f64_of_Z p25) Lit.d0_4)).
  { apply (fin_below_weaken 34); [lia|].
    apply (SFmul_fin 53 1024 _ _ 33 0); try lia; [by apply f64_of_Z_fin | cbn; lia]. }
  assert (HB : fin_below 35 (f64_mul (f64_of_Z p10) Lit.d0_3)).
  { apply (fin_below_weaken 34); [lia|].
    apply (SFmul_fin 53 1024 _ _ 33 0); try lia; [by apply f64_of_Z_fin | cbn; lia]. }
  assert (HC : fin_below 35 (f64_mul (f64_of_f32 (f32_of_Z g)) Lit.d0_15)).
  { apply (SFmul_fin 53 1024 _ _ 34 0); try lia; [|cbn; lia].
    apply (f64_of_f32_fin 33); try lia. by apply f32_of_Z_fin. }
  assert (HD : fin_below 35 (f64_mul (f64_of_f32 (f32_of_Z s)) Lit.d0_05)).
  { apply (SFmul_fin 53 1024 _ _ 34 0); try lia; [|cbn; lia].
    apply (f64_of_f32_fin 33); try lia. by apply f32_of_Z_fin. }
  pose proof (SFadd_fin 53 1024 _ _ 35 HA HB ltac:(lia) ltac:(lia) ltac:(lia)) as HAB.
  pose proof (SFadd_fin 53 1024 _ _ 37 HAB (fin_below_weaken 35 37 _ ltac:(lia) HC)
                ltac:(lia) ltac:(lia) ltac:(lia)) as HABC.
  pose proof (SFadd_fin 53 1024 _ _ 39 HABC (fin_below_weaken 35 39 _ ltac:(lia) HD)
                ltac:(lia) ltac:(lia) ltac:(lia)) as Hsum.
  pose proof (f32_of_f64_fin 41 _ Hsum ltac:(lia) ltac:(lia)) as Hc.
  destruct (tempFactor_of_fin t) as [Ht _].
  destruct (humidityFactor_of_fin h) as [Hh _].
  pose proof (SFmul_fin 24 128 _ _ 42 1 Hc Ht ltac:(lia) ltac:(lia) ltac:(lia)) as Hct.
  apply (SFmul_fin 24 128 _ _ 44 1 Hct Hh); lia.
Qed.

(** The engine is defined, and in range, on every sample without NaN whose
    particulate values can be cast. *)
Lemma calculateAQI_defined (d : SensorData) :
  is_nan (temperature d) = false → is_nan (humidity d) = false →
  is_Some (f_to_int (f32_mul (pm25 d) Lit.f10)) →
  is_Some (f_to_int (pm10 d)) →
  ∃ a : Z, calculateAQI d = Some (set_aqi a d) ∧ 0 ≤ a ≤ 500.
Proof.
  intros Ht Hh H25 H10.
  destruct (pm25_aqi_of_defined _ H25) as (p25 & E25 & R25).
  destruct (pm10_aqi_of_defined _ H10) as (p10 & E10 & R10).
  unfold calculateAQI. rewrite E25, E10. cbn [mbind option_bind]. cbv zeta.
  pose proof (corrected_composite_fin p25 p10
                (Arduino.map (gasLevel d) 0 4095 0 50)
                (Arduino.map (smokeLevel d) 0 4095 0 50)
                (temperature d) (humidity d) R25 R10
                (map_range _ _ _ _ _) (map_range _ _ _ _ _)) as Hfin.
  pose proof (stress_bonus_fpos _ _ Ht Hh) as Hstress.
  pose proof (SFadd_fin_fpos_not_nan 24 128 _ _ _ Hfin Hstress) as Hsum.
  destruct (clamp_truncate_defined _ Hsum) as (a & Ha & Hr).
  exists a. split; [|done].
  unfold Reference.clamp_truncate, Reference.stress_bonus in Ha.
  change (f32_of_Z 500) with Lit.f500 in Ha. change (f32_of_Z 0) with Lit.f0 in Ha.
  change (f32_of_Z 10) with Lit.f10 in Ha. change (f64_of_Z 100) with Lit.d100_0 in Ha.
  change (f32_of_Z 25) with Lit.f25 in Ha. change (f32_of_Z 50) with Lit.f50 in Ha.
  unfold f32_add, f32_mul in *.
  by rewrite Ha.
Qed.

(** Every decoded value passes the casts of the engine. *)
Lemma decoded_castable (d : SensorData) :
  pm_decoded d →
  is_Some (f_to_int (f32_mul (pm25 d) Lit.f10)) ∧ is_Some (f_to_int (pm10 d)).
Proof.
  intros [(v & Hv & E25) (w & Hw & E10)]. rewrite E25, E10.
  assert (Hx : canon32_int (f32_of_Z v) v) by (apply f32_of_Z_canon; lia).
  assert (Hy : canon32_int (f32_of_Z w) w) by (apply f32_of_Z_canon; lia).
  pose proof (f32_mul_canon _ _ _ _ Hx lit_f10_canon ltac:(lia)) as Hm.
  split; eexists; apply f_to_int_int_val;
    first [by apply canon32_int_val | lia].
Qed.

(** NaN is absorbing, and no bounds check fires on it. *)
Lemma SFadd_nan_r (prec emax : Z) (x : flt) : SFadd prec emax x S754_nan = S754_nan.
Proof. by destruct x. Qed.

(** With a NaN among temperature and humidity the engine has no defined
    result. *)
Lemma calculateAQI_nan (d : SensorData) :
  (is_nan (temperature d) || is_nan (humidity d)) = true →
  calculateAQI d = None.
Proof.
  intros Hnan. unfold calculateAQI.
  destruct (pm25_aqi_of (pm25 d)) as [p25|]; [|done].
  destruct (pm10_aqi_of (pm10 d)) as [p10|]; [|done].
  cbn [mbind option_bind]. cbv zeta.
  assert (Hstress :
            f32_add (f_abs (f32_sub (temperature d) Lit.f25))
                    (f_abs (f32_sub (humidity d) Lit.f50)) = S754_nan).
  { destruct (is_nan (temperature d)) eqn:Et.
    - by destruct (temperature d).
    - cbn in Hnan. destruct (humidity d); try done.
      change (f_abs (f32_sub S754_nan Lit.f50)) with S754_nan.
      apply SFadd_nan_r. }
  rewrite Hstress. cbn [f64_of_f32 f64_div SFdiv f32_of_f64 f32_mul SFmul].
  unfold f32_add. rewrite SFadd_nan_r. done.
Qed.

(** ** The frame decoder *)

Lemma byte_val_range (b : byte) : 0 ≤ Arduino.byte_val b ≤ 255.
Proof.
  unfold Arduino.byte_val. pose proof (Byte.to_N_bounded b). lia.
Qed.

Lemma lor_shiftl_8 (a b : Z) : 0 ≤ b ≤ 255 → Z.lor (Z.shiftl a 8) b = 256 * a + b.
Proof.
  intros Hb. rewrite <- Z.add_nocarry_lor.
  - rewrite Z.shiftl_mul_pow2 by lia. change (2 ^ 8) with 256. lia.
  - apply Z.bits_inj'. intros k Hk.
    rewrite Z.land_spec, Z.bits_0.
    destruct (Z_lt_le_dec k 8) as [Hlt | Hge].
    + rewrite Z.shiftl_spec_low by lia. done.
    + rewrite <- (Z.mod_small b (2 ^ 8)) by (change (2 ^ 8) with 256; lia).
      rewrite Z.mod_pow2_bits_high by lia. apply andb_false_r.
Qed.

Lemma be16_value (buffer : list byte) (i : nat) :
  be16 buffer i
  = 256 * Arduino.byte_val (buffer !!! i) + Arduino.byte_val (buffer !!! S i).
Proof. unfold be16. apply lor_shiftl_8, byte_val_range. Qed.

Lemma be16_range (buffer : list byte) (i : nat) : 0 ≤ be16 buffer i ≤ 65535.
Proof.
  rewrite be16_value.
  pose proof (byte_val_range (buffer !!! i)).
  pose proof (byte_val_range (buffer !!! S i)). lia.
Qed.

Lemma eqb_x42_false (b : byte) : b ≠ x42 → Byte.eqb b x42 = false.
Proof.
  intros Hb. destruct (Byte.eqb b x42) eqn:E; [|done].
  by apply Byte.byte_dec_bl in E.
Qed.

(** The scan over a prefix free of 0x42 stops right after the sync. *)
Lemma find_sync_after_prefix (pre body : list byte) :
  Forall (λ b, b ≠ x42) pre →
  find_sync (pre ++ x42 :: x4d :: body) = (true, body).
Proof.
  induction 1 as [|b pre Hb _ IH]; [done|].
  cbn [app find_sync]. by rewrite eqb_x42_false.
Qed.

(** Without a sync the scan drains the queue. *)
Lemma find_sync_none_aux (k : nat) : ∀ q : list byte,
  (length q ≤ k)%nat → (∀ i, ¬ sync_at q i) → find_sync q = (false, []).
Proof.
  induction k as [|k IH]; intros q Hlen Hno.
  - destruct q; [done | cbn in Hlen; lia].
  - destruct q as [|byte1 q1]; [done|].
    cbn [find_sync].
    destruct (Byte.eqb byte1 x42) eqn:E1.
    + destruct q1 as [|byte2 q2]; [done|].
      destruct (Byte.eqb byte2 x4d) eqn:E2.
      * exfalso. apply (Hno 0%nat).
        apply Byte.byte_dec_bl in E1, E2. by subst.
      * apply IH; [cbn in Hlen; lia|].
        intros i Hi. apply (Hno (S (S i))). exact Hi.
    + apply IH; [cbn in Hlen; lia|].
      intros i Hi. apply (Hno (S i)). exact Hi.
Qed.

Lemma find_sync_none (q : list byte) :
  (∀ i, ¬ sync_at q i) → find_sync q = (false, []).
Proof. by apply (find_sync_none_aux (length q)). Qed.

(** With enough bytes queued the loop fills [buffer[i .. i+n-1]]. *)
Lemma read_frame_full (n : nat) : ∀ (i : nat) (buffer q : list byte),
  (n ≤ length q)%nat → (i + n ≤ length buffer)%nat →
  read_frame n i buffer q
  = (take i buffer ++ take n q ++ drop (i + n) buffer, drop n q).
Proof.
  induction n as [|n IH]; intros i buffer q Hq Hb.
  - cbn [read_frame]. rewrite Nat.add_0_r, firstn_O, drop_0.
    cbn [app]. by rewrite take_drop.
  - destruct q as [|b q']; [cbn in Hq; lia|].
    cbn [read_frame]. rewrite IH by (rewrite ?length_insert; cbn in Hq; lia).
    f_equal.
    rewrite (take_S_r _ i b) by (apply list_lookup_insert_eq; lia).
    rewrite take_insert_ge by lia.
    rewrite drop_insert_lt by lia.
    rewrite <- app_assoc. cbn. do 4 f_equal. lia.
Qed.



Lemma frame_buffer (stack body : list byte) :
  length stack = 32%nat → (30 ≤ length body)%nat →
  (read_frame 30 2 (<[1%nat := x4d]> (<[0%nat := x42]> stack)) body)
  = (x42 :: x4d :: take 30 body, drop 30 body).
Proof.
  intros Hs Hb.
  destruct stack as [|s0 [|s1 rest]]; try (cbn in Hs; lia).
  cbn [insert list_insert].
  rewrite read_frame_full by (cbn in *; lia).
  f_equal. cbn [take firstn app].
  f_equal. f_equal.
  rewrite drop_ge by (cbn in *; lia). apply app_nil_r.
Qed.

(** A complete frame behind a prefix without 0x42. *)
Lemma readPMS5003_frame (stack pre body : list byte) (n : Node) :
  length stack = 32%nat →
  Forall (λ b, b ≠ x42) pre →
  (30 ≤ length body)%nat →
  pmsSerial n = pre ++ x42 :: x4d :: body →
  readPMS5003 stack n
  = with_pmsSerial (drop 30 body)
      (with_data
         (set_pm (f32_of_Z (be16 (x42 :: x4d :: take 30 body) 12))
                 (f32_of_Z (be16 (x42 :: x4d :: take 30 body) 14))
                 (currentData n)) n).
Proof.
  intros Hs Hpre Hb Hq. unfold readPMS5003. rewrite Hq.
  assert ((32 <=? Z.of_nat (length (pre ++ x42 :: x4d :: body))) = true) as ->.
  { apply Z.leb_le. rewrite length_app. cbn [length]. lia. }
  rewrite find_sync_after_prefix by done.
  by rewrite frame_buffer.
Qed.

(** No sync in the queue: the queue is drained and nothing else changes. *)
Lemma readPMS5003_no_sync (stack : list byte) (n : Node) :
  (32 ≤ length (pmsSerial n))%nat →
  (∀ i, ¬ sync_at (pmsSerial n) i) →
  readPMS5003 stack n = with_pmsSerial [] n.
Proof.
  intros Hlen Hno. unfold readPMS5003.
  assert ((32 <=? Z.of_nat (length (pmsSerial n))) = true) as ->
    by (apply Z.leb_le; lia).
  by rewrite find_sync_none.
Qed.

(** Fewer than 32 bytes queued. *)
Lemma readPMS5003_short (stack : list byte) (n : Node) :
  (length (pmsSerial n) < 32)%nat →
  readPMS5003 stack n
  = if firstRead n then
      with_firstRead false
        (with_data (set_pm (f32_of_Z 0) (f32_of_Z 0) (currentData n)) n)
    else n.
Proof.
  intros Hlen. unfold readPMS5003.
  assert ((32 <=? Z.of_nat (length (pmsSerial n))) = false) as ->
    by (apply Z.leb_gt; lia).
  done.
Qed.

Lemma decoded_be16 (buffer : list byte) (i : nat) : decoded (f32_of_Z (be16 buffer i)).
Proof. exists (be16 buffer i). split; [apply be16_range | done]. Qed.

Lemma decoded_zero : decoded (f32_of_Z 0).
Proof. exists 0. split; [lia | done]. Qed.

Lemma readPMS5003_decoded (stack : list byte) (n : Node) :
  pm_decoded (currentData n) → pm_decoded (currentData (readPMS5003 stack n)).
Proof.
  intros Hn. unfold readPMS5003.
  destruct (32 <=? _).
  - destruct (find_sync (pmsSerial n)) as [[] q1]; [|done].
    destruct (read_frame _ _ _ _) as [buffer q2].
    split; apply decoded_be16.
  - destruct (firstRead n); [|done].
    split; apply decoded_zero.
Qed.


(** ** Acquisition *)

(** Whatever the drivers return, the sample suits the engine. *)
Lemma readAllSensors_ready (r : Readings) (n : Node) :
  pm_decoded (currentData n) →
  engine_input (currentData (readAllSensors r n))
  ∧ pm_decoded (currentData (readAllSensors r n)).
Proof.
  intros Hpm. unfold readAllSensors.
  set (failed := is_nan (dht_temperature r) || is_nan (dht_humidity r)).
  set (n1 := if failed then println dht_warning n else n).
  assert (Hpm1 : pm_decoded (currentData n1)) by (subst n1; by destruct failed).
  pose proof (readPMS5003_decoded (pms_stack r) n1 Hpm1) as Hpm2.
  destruct (decoded_castable _ Hpm2) as [H25 H10].
  split; [|exact Hpm2].
  split; cbn [currentData with_data temperature humidity pm25 pm10]; try done.
  - destruct failed eqn:E; [done|].
    subst failed. by apply orb_false_elim in E as [? _].
  - destruct failed eqn:E; [done|].
    subst failed. by apply orb_false_elim in E as [_ ?].
Qed.

Lemma readPMS5003_console (stack : list byte) (n : Node) :
  console (readPMS5003 stack n) = console n.
Proof.
  unfold readPMS5003.
  destruct (32 <=? _).
  - destruct (find_sync (pmsSerial n)) as [[] q1]; [|done].
    by destruct (read_frame _ _ _ _).
  - by destruct (firstRead n).
Qed.

(** ** The scheduler *)

(** [readPMS5003] and [readAllSensors] touch the sample, the queue, the
    [static] flag and the console only. *)
Lemma readPMS5003_frame_cond (stack : list byte) (n : Node) :
  lastSensorRead (readPMS5003 stack n) = lastSensorRead n
  ∧ lastSDWrite (readPMS5003 stack n) = lastSDWrite n
  ∧ lastLoRaTransmit (readPMS5003 stack n) = lastLoRaTransmit n
  ∧ packetCounter (readPMS5003 stack n) = packetCounter n
  ∧ sd_file (readPMS5003 stack n) = sd_file n
  ∧ lora_sent (readPMS5003 stack n) = lora_sent n.
Proof.
  unfold readPMS5003.
  destruct (32 <=? _).
  - destruct (find_sync (pmsSerial n)) as [[] q1]; [|done].
    by destruct (read_frame _ _ _ _).
  - by destruct (firstRead n).
Qed.

Lemma readAllSensors_frame_cond (r : Readings) (n : Node) :
  lastSensorRead (readAllSensors r n) = lastSensorRead n
  ∧ lastSDWrite (readAllSensors r n) = lastSDWrite n
  ∧ lastLoRaTransmit (readAllSensors r n) = lastLoRaTransmit n
  ∧ packetCounter (readAllSensors r n) = packetCounter n
  ∧ sd_file (readAllSensors r n) = sd_file n
  ∧ lora_sent (readAllSensors r n) = lora_sent n.
Proof.
  unfold readAllSensors. cbn.
  destruct (readPMS5003_frame_cond (pms_stack r)
              (if is_nan (dht_temperature r) || is_nan (dht_humidity r)
               then println dht_warning n else n))
    as (-> & -> & -> & -> & -> & ->).
  by destruct (is_nan (dht_temperature r) || is_nan (dht_humidity r)).
Qed.

#[local] Arguments readAllSensors : simpl never.

(** One pass of [loop] on a node whose particulate fields are decoded
    values: it runs exactly the due actions and stamps the timers that
    fired with the clock value of the check. *)
Lemma loop_spec (now : Z) (r : Readings) (n : Node) :
  pm_decoded (currentData n) →
  ∃ n' : Node,
    loop now r n = Some (due_actions now n, n')
    ∧ pm_decoded (currentData n')
    ∧ lastSensorRead n' = (if sample_due now n then now else lastSensorRead n)
    ∧ lastSDWrite n'
      = (if sample_due now n && persist_due now n then now else lastSDWrite n)
    ∧ lastLoRaTransmit n'
      = (if transmit_due now n then now else lastLoRaTransmit n).
Proof.
  intros Hpm.
  unfold loop, due_actions, sample_due, persist_due, transmit_due.
  destruct (SENSOR_READ_INTERVAL <=? _) eqn:Esample.
  - destruct (readAllSensors_ready r n Hpm) as [[Ht Hh H25 H10] Hpm'].
    destruct (calculateAQI_defined _ Ht Hh H25 H10) as (a & -> & Ha).
    destruct (readAllSensors_frame_cond r n) as (Hsr & Hsd & Htx & _).
    cbn. rewrite Hsd.
    destruct (SD_WRITE_INTERVAL <=? _) eqn:Epersist;
      [destruct (sd_card_ok r)|]; cbn; rewrite Htx;
      destruct (LORA_TRANSMIT_INTERVAL <=? _) eqn:Etransmit;
      eexists; (split; [reflexivity|]);
      cbn; (split; [exact Hpm'|]); done.
  - cbn.
    destruct (LORA_TRANSMIT_INTERVAL <=? _) eqn:Etransmit;
      eexists; (split; [reflexivity|]); done.
Qed.

(** ** The packet counter *)

Lemma wrap_s32_succ (a : Z) : Int.wrap_s32 (Int.wrap_s32 a + 1) = Int.wrap_s32 (a + 1).
Proof.
  unfold Int.wrap_s32.
  replace ((a + 2147483648) mod 4294967296 - 2147483648 + 1 + 2147483648)
    with ((a + 2147483648) mod 4294967296 + 1) by lia.
  rewrite Z.add_mod_idemp_l by lia.
  do 2 f_equal. lia.
Qed.

Lemma transmitData_counter (n : Node) :
  packetCounter (transmitData n) = Int.wrap_s32 (packetCounter n + 1).
Proof. done. Qed.

Lemma transmitData_packet (n : Node) :
  ∃ p : Packet,
    lora_sent (transmitData n) = lora_sent n ++ [p]
    ∧ pk_packet p = packetCounter n.
Proof. eexists. split; reflexivity. Qed.

Lemma transmits_succ (k : N) (n : Node) :
  transmits (N.succ k) n = transmitData (transmits k n).
Proof. unfold transmits. apply N.iter_succ. Qed.

(** The counter after [k] transmissions from power-on. *)
Lemma counter_after (b : Boot) (k : N) :
  packetCounter (transmits k (power_on b)) = Int.wrap_s32 (Z.of_N k).
Proof.
  induction k as [|k IH] using N.peano_ind; [done|].
  rewrite transmits_succ, transmitData_counter, IH, wrap_s32_succ.
  f_equal. lia.
Qed.

(** ** The log *)

Lemma csv_row_not_header (d : SensorData) : csv_row d ≠ csv_header.
Proof. done. Qed.

Lemma header_not_in_rows (ds : list SensorData) : csv_header ∉ List.map csv_row ds.
Proof.
  intros Hin. apply list_elem_of_In, in_map_iff in Hin as (d & Hd & _).
  by apply (csv_row_not_header d).
Qed.

Lemma writes_file (ds : list SensorData) : ∀ n : Node,
  ds ≠ [] ∨ is_Some (sd_file n) →
  sd_file (writes ds n) = Some (default [] (sd_file n) ++ List.map csv_row ds).
Proof.
  unfold writes.
  induction ds as [|d ds IH]; intros n Hn.
  - destruct Hn as [? | [c Hc]]; [done|].
    cbn. rewrite Hc. cbn. by rewrite app_nil_r.
  - cbn [foldl]. rewrite IH by (right; by eexists).
    cbn. by rewrite <- app_assoc.
Qed.

(** ** More on the scheduler *)

(** A check at which the sample timer has not run out needs no sensor. *)
Lemma loop_idle (now : Z) (r : Readings) (n : Node) :
  sample_due now n = false →
  ∃ n' : Node, loop now r n = Some (due_actions now n, n')
               ∧ lastSensorRead n' = lastSensorRead n.
Proof.
  intros Hdue. unfold loop, due_actions. fold (sample_due now n).
  rewrite Hdue. cbn.
  fold (transmit_due now n).
  destruct (transmit_due now n); eexists; (split; [reflexivity|]); done.
Qed.

Lemma due_actions_NoDup (now : Z) (n : Node) : NoDup (due_actions now n).
Proof.
  unfold due_actions.
  destruct (sample_due now n), (persist_due now n), (transmit_due now n);
    by apply (bool_decide_unpack _).
Qed.

Lemma sample_in_due_actions (now : Z) (n : Node) :
  ActSample ∈ due_actions now n ↔ sample_due now n = true.
Proof.
  unfold due_actions.
  destruct (sample_due now n), (persist_due now n), (transmit_due now n);
    by apply (bool_decide_unpack _).
Qed.

Lemma persist_in_due_actions (now : Z) (n : Node) :
  ActPersist ∈ due_actions now n
  ↔ sample_due now n = true ∧ persist_due now n = true.
Proof.
  unfold due_actions.
  destruct (sample_due now n), (persist_due now n), (transmit_due now n);
    by apply (bool_decide_unpack _).
Qed.

Lemma transmit_in_due_actions (now : Z) (n : Node) :
  ActTransmit ∈ due_actions now n ↔ transmit_due now n = true.
Proof.
  unfold due_actions.
  destruct (sample_due now n), (persist_due now n), (transmit_due now n);
    by apply (bool_decide_unpack _).
Qed.

Lemma readPMS5003_println (stack : list byte) (s : string) (n : Node) :
  readPMS5003 stack (println s n) = println s (readPMS5003 stack n).
Proof.
  unfold readPMS5003. cbn [println pmsSerial firstRead].
  destruct (32 <=? _).
  - destruct (find_sync (pmsSerial n)) as [[] q1]; [|done].
    by destruct (read_frame _ _ _ _).
  - by destruct (firstRead n).
Qed.

(** ** More on the frame decoder *)

(** The scan hands over a strict suffix of the queue, or drains it. *)
Lemma find_sync_suffix (k : nat) : ∀ q : list byte,
  (length q ≤ k)%nat →
  match find_sync q with
  | (true, q1) => ∃ pre, q = pre ++ q1 ∧ (2 ≤ length pre)%nat
  | (false, q1) => q1 = []
  end.
Proof.
  induction k as [|k IH]; intros q Hlen.
  - destruct q; [done | cbn in Hlen; lia].
  - destruct q as [|byte1 q1]; [done|].
    cbn [find_sync].
    destruct (Byte.eqb byte1 x42).
    + destruct q1 as [|byte2 q2]; [done|].
      destruct (Byte.eqb byte2 x4d).
      * exists [byte1; byte2]. split; [done | cbn; lia].
      * specialize (IH q2 ltac:(cbn in Hlen; lia)).
        destruct (find_sync q2) as [[] q3]; [|done].
        destruct IH as (pre & -> & Hpre).
        exists (byte1 :: byte2 :: pre). split; [done | cbn; lia].
    + specialize (IH q1 ltac:(cbn in Hlen; lia)).
      destruct (find_sync q1) as [[] q3]; [|done].
      destruct IH as (pre & -> & Hpre).
      exists (byte1 :: pre). split; [done | cbn; lia].
Qed.

(** The read loop takes the first [n] bytes of the queue, or all of it. *)
Lemma read_frame_queue (n : nat) : ∀ (i : nat) (buffer q : list byte),
  (read_frame n i buffer q).2 = drop n q.
Proof.
  induction n as [|n IH]; intros i buffer q; [done|].
  destruct q as [|b q']; [done|].
  cbn [read_frame]. by rewrite IH.
Qed.

(** The sample fields the decoder does not own. *)
Lemma readPMS5003_other_fields (stack : list byte) (n : Node) :
  let d := currentData n in
  let d' := currentData (readPMS5003 stack n) in
  timestamp d' = timestamp d ∧ temperature d' = temperature d
  ∧ humidity d' = humidity d ∧ gasLevel d' = gasLevel d
  ∧ smokeLevel d' = smokeLevel d ∧ aqi d' = aqi d.
Proof.
  cbv zeta. unfold readPMS5003.
  destruct (32 <=? _).
  - destruct (find_sync (pmsSerial n)) as [[] q1]; [|done].
    by destruct (read_frame _ _ _ _).
  - by destruct (firstRead n).
Qed.

Lemma frame_take_lookup (body : list byte) (i : nat) :
  (i < 32)%nat → (x42 :: x4d :: take 30 body) !! i = frame_of body !! i.
Proof.
  intros Hi. unfold frame_of.
  destruct i as [|[|i]]; [done | done |].
  change (take 30 body !! i = body !! i).
  apply lookup_take_lt. lia.
Qed.

Lemma be16_lookup (b1 b2 : list byte) (i : nat) :
  b1 !! i = b2 !! i → b1 !! S i = b2 !! S i → be16 b1 i = be16 b2 i.
Proof.
  intros H0 H1. unfold be16.
  by rewrite !list_lookup_total_alt, H0, H1.
Qed.

(** ** More on the sub-indices *)

Lemma interpolate_mono (x y a b c d : Z) :
  a ≤ x ≤ y → a < b → c ≤ d →
  Reference.interpolate (Reference.mkBand a b c d) x
  ≤ Reference.interpolate (Reference.mkBand a b c d) y.
Proof.
  intros Hxy Hb Hc. unfold Reference.interpolate. cbn.
  apply Z.add_le_mono_l, Z.quot_le_mono; [lia | nia].
Qed.

Lemma interpolate_top (x a b c d : Z) :
  b ≤ x → a < b → c ≤ d →
  d ≤ Reference.interpolate (Reference.mkBand a b c d) x.
Proof.
  intros Hx Hb Hc. unfold Reference.interpolate. cbn.
  assert (d - c ≤ (x - a) * (d - c) ÷ (b - a)); [|lia].
  rewrite Z.quot_div_nonneg by nia.
  apply Z.div_le_lower_bound; nia.
Qed.

Ltac band_facts x y :=
  repeat match goal with
         | |- context [Reference.interpolate (Reference.mkBand ?a ?b ?c ?d) x] =>
             lazymatch goal with
             | _ : Reference.interpolate (Reference.mkBand a b c d) x = _ |- _ => fail
             | _ => idtac
             end;
             let v := fresh "v" in
             let E := fresh "E" in
             pose proof (interpolate_in_band x a b c d);
             pose proof (interpolate_above x a b c d);
             pose proof (interpolate_top x a b c d);
             pose proof (interpolate_mono x y a b c d);
             remember (Reference.interpolate (Reference.mkBand a b c d) x) as v eqn:E
         end.

Lemma pm25_subindex_mono (c1 c2 : Z) :
  0 ≤ c1 ≤ c2 → Reference.pm25_subindex c1 ≤ Reference.pm25_subindex c2.
Proof.
  intros H. unfold Reference.pm25_subindex, Reference.pm25_bands,
    Reference.pm25_top, Reference.subindex.
  cbn [Reference.c_hi].
  split_leb; try lia; band_facts (10 * c2) (10 * c2); band_facts (10 * c1) (10 * c2); lia.
Qed.

Lemma pm10_subindex_mono (c1 c2 : Z) :
  0 ≤ c1 ≤ c2 → Reference.pm10_subindex c1 ≤ Reference.pm10_subindex c2.
Proof.
  intros H. unfold Reference.pm10_subindex, Reference.pm10_bands,
    Reference.pm10_top, Reference.subindex.
  cbn [Reference.c_hi].
  split_leb; try lia; band_facts c2 c2; band_facts c1 c2; lia.
Qed.

Lemma pm25_subindex_saturated (c : Z) : 500 ≤ c → Reference.pm25_subindex c = 500.
Proof.
  intros H. unfold Reference.pm25_subindex, Reference.pm25_bands,
    Reference.pm25_top, Reference.subindex.
  cbn [Reference.c_hi].
  split_leb; try lia.
  pose proof (interpolate_top (10 * c) 2505 5000 301 500). lia.
Qed.

Lemma pm10_subindex_saturated (c : Z) : 604 ≤ c → Reference.pm10_subindex c = 500.
Proof.
  intros H. unfold Reference.pm10_subindex, Reference.pm10_bands,
    Reference.pm10_top, Reference.subindex.
  cbn [Reference.c_hi].
  split_leb; try lia.
  pose proof (interpolate_top c 425 604 301 500). lia.
Qed.

(** ** One pass of the loop, in full *)

Lemma readAllSensors_console (r : Readings) (n : Node) :
  console (readAllSensors r n)
  = console n ++ (if is_nan (dht_temperature r) || is_nan (dht_humidity r)
                  then [dht_warning] else []).
Proof.
  unfold readAllSensors. cbn. rewrite readPMS5003_console.
  destruct (_ || _); cbn; [done | by rewrite app_nil_r].
Qed.

Lemma readAllSensors_not_nan (r : Readings) (n : Node) :
  is_nan (temperature (currentData (readAllSensors r n))) = false
  ∧ is_nan (humidity (currentData (readAllSensors r n))) = false.
Proof.
  unfold readAllSensors. cbn.
  destruct (is_nan (dht_temperature r)) eqn:Et; [done|].
  destruct (is_nan (dht_humidity r)) eqn:Eh; done.
Qed.

(** Everything a pass at [now] does to a node whose particulate fields are
    decoded values; [a] is the index the engine computes when the sample
    timer has run out. *)
Lemma loop_effect (now : Z) (r : Readings) (n : Node) :
  pm_decoded (currentData n) →
  ∃ (a : Z) (n' : Node),
    loop now r n = Some (due_actions now n, n')
    ∧ 0 ≤ a ≤ 500
    ∧ currentData n'
      = (if sample_due now n then set_aqi a (currentData (readAllSensors r n))
         else currentData n)
    ∧ (sample_due now n = true →
       calculateAQI (currentData (readAllSensors r n)) = Some (currentData n'))
    ∧ pm_decoded (currentData n')
    ∧ sd_file n'
      = (if sample_due now n && persist_due now n && sd_card_ok r
         then Some (default [] (sd_file n) ++ [csv_row (currentData n')])
         else sd_file n)
    ∧ lora_sent n'
      = lora_sent n
        ++ (if transmit_due now n
            then [packet_of (packetCounter n) (currentData n')] else [])
    ∧ packetCounter n'
      = (if transmit_due now n then Int.wrap_s32 (packetCounter n + 1)
         else packetCounter n)
    ∧ pmsSerial n'
      = (if sample_due now n then pmsSerial (readAllSensors r n) else pmsSerial n)
    ∧ console n'
      = console n
        ++ (if sample_due now n then
              (if is_nan (dht_temperature r) || is_nan (dht_humidity r)
               then [dht_warning] else [])
              ++ (if persist_due now n then
                    [if sd_card_ok r then "✓ Data written to SD card"
                     else "✗ Error writing to SD card"]%string
                  else [])
            else [])
        ++ (if transmit_due now n
            then [">>> Transmitting data via LoRa..."%string] else [])
    ∧ lastSensorRead n' = (if sample_due now n then now else lastSensorRead n)
    ∧ lastSDWrite n'
      = (if sample_due now n && persist_due now n then now else lastSDWrite n)
    ∧ lastLoRaTransmit n'
      = (if transmit_due now n then now else lastLoRaTransmit n).
Proof.
  intros Hpm.
  unfold loop, due_actions, sample_due, persist_due, transmit_due.
  destruct (SENSOR_READ_INTERVAL <=? _) eqn:Esample.
  - destruct (readAllSensors_ready r n Hpm) as [[Ht Hh H25 H10] Hpm'].
    destruct (calculateAQI_defined _ Ht Hh H25 H10) as (a & Hcalc & Ha).
    rewrite Hcalc.
    destruct (readAllSensors_frame_cond r n) as (Hsr & Hsd & Htx & Hpc & Hf & Hl).
    pose proof (readAllSensors_console r n) as Hc.
    exists a. cbn. rewrite Hsd.
    destruct (SD_WRITE_INTERVAL <=? _) eqn:Epersist;
      [destruct (sd_card_ok r)|]; cbn; rewrite Htx;
      destruct (LORA_TRANSMIT_INTERVAL <=? _) eqn:Etransmit;
      eexists; (split; [reflexivity|]);
      cbn; rewrite ?Hf, ?Hl, ?Hpc, ?Hc, <- ?app_assoc, ?app_nil_r;
      (split; [exact Ha|]); (split; [reflexivity|]);
      (split; [intros _; reflexivity|]); (split; [exact Hpm'|]);
      done.
  - exists 0. cbn.
    destruct (LORA_TRANSMIT_INTERVAL <=? _) eqn:Etransmit;
      eexists; (split; [reflexivity|]); cbn; rewrite ?app_nil_r;
      (split; [lia|]); done.
Qed.

Lemma appended_app (r1 r2 : list Line) (f : option (list Line)) :
  appended (r1 ++ r2) f = appended r2 (appended r1 f).
Proof.
  destruct r1 as [|l1 r1]; [done|].
  destruct r2 as [|l2 r2]; [by rewrite app_nil_r|].
  cbn. by rewrite <- app_assoc.
Qed.

Lemma fired_at_cons (a : Action) (now : Z) (acts : list Action)
    (log : list (Z * list Action)) :
  fired_at a ((now, acts) :: log)
  = (if bool_decide (a ∈ acts) then [now] else []) ++ fired_at a log.
Proof.
  unfold fired_at. cbn [List.filter snd].
  by destruct (bool_decide (a ∈ acts)).
Qed.

Lemma sample_fired (now : Z) (n : Node) :
  bool_decide (ActSample ∈ due_actions now n) = sample_due now n.
Proof.
  pose proof (sample_in_due_actions now n) as H.
  destruct (sample_due now n); [apply bool_decide_eq_true | apply bool_decide_eq_false];
    rewrite H; done.
Qed.

Lemma persist_fired (now : Z) (n : Node) :
  bool_decide (ActPersist ∈ due_actions now n) = sample_due now n && persist_due now n.
Proof.
  pose proof (persist_in_due_actions now n) as H.
  destruct (sample_due now n), (persist_due now n); cbn;
    [apply bool_decide_eq_true | apply bool_decide_eq_false ..];
    rewrite H; intuition discriminate.
Qed.

Lemma transmit_fired (now : Z) (n : Node) :
  bool_decide (ActTransmit ∈ due_actions now n) = transmit_due now n.
Proof.
  pose proof (transmit_in_due_actions now n) as H.
  destruct (transmit_due now n); [apply bool_decide_eq_true | apply bool_decide_eq_false];
    rewrite H; done.
Qed.

(** ** A whole run *)

Lemma wrap_s32_add_l (a b : Z) : Int.wrap_s32 (Int.wrap_s32 a + b) = Int.wrap_s32 (a + b).
Proof.
  unfold Int.wrap_s32.
  replace ((a + 2147483648) mod 4294967296 - 2147483648 + b + 2147483648)
    with ((a + 2147483648) mod 4294967296 + b) by lia.
  rewrite Z.add_mod_idemp_l by lia.
  do 2 f_equal. lia.
Qed.

(** A pass after the arrival of [rx]: the same, since bytes that arrive
    touch the queue only. *)
Lemma loop_effect_rx (rx : list byte) (now : Z) (r : Readings) (n : Node) :
  pm_decoded (currentData n) →
  ∃ (a : Z) (n' : Node),
    loop now r (receive rx n) = Some (due_actions now n, n')
    ∧ 0 ≤ a ≤ 500
    ∧ currentData n'
      = (if sample_due now n
         then set_aqi a (currentData (readAllSensors r (receive rx n)))
         else currentData n)
    ∧ pm_decoded (currentData n')
    ∧ sd_file n'
      = (if sample_due now n && persist_due now n && sd_card_ok r
         then Some (default [] (sd_file n) ++ [csv_row (currentData n')])
         else sd_file n)
    ∧ lora_sent n'
      = lora_sent n
        ++ (if transmit_due now n
            then [packet_of (packetCounter n) (currentData n')] else [])
    ∧ packetCounter n'
      = (if transmit_due now n then Int.wrap_s32 (packetCounter n + 1)
         else packetCounter n)
    ∧ lastSensorRead n' = (if sample_due now n then now else lastSensorRead n)
    ∧ lastSDWrite n'
      = (if sample_due now n && persist_due now n then now else lastSDWrite n)
    ∧ lastLoRaTransmit n'
      = (if transmit_due now n then now else lastLoRaTransmit n).
Proof.
  intros Hpm.
  destruct (loop_effect now r (receive rx n) Hpm)
    as (a & n' & Hloop & Ha & Hd & _ & Hpm' & Hfile & Hsent & Hcnt & _ & _
        & Hs & Hp & Ht).
  by exists a, n'.
Qed.

(** What any sequence of passes does to the log, the radio and the packet
    counter: [ds] are the samples logged, [ps] the packets sent. *)
Lemma run_effect (trace : list LoopCheck) : ∀ n : Node,
  sample_ok (currentData n) → in_int (packetCounter n) →
  ∃ (log : list (Z * list Action)) (n' : Node)
    (ds : list SensorData) (ps : list Packet),
    run_checks trace n = Some (log, n')
    ∧ List.map fst log = List.map clock trace
    ∧ sample_ok (currentData n')
    ∧ sd_file n' = appended (csv_row <$> ds) (sd_file n)
    ∧ Forall sample_ok ds
    ∧ (length ds ≤ length (fired_at ActPersist log))%nat
    ∧ (Forall (λ c, sd_card_ok (drivers c) = true) trace →
       length ds = length (fired_at ActPersist log))
    ∧ lora_sent n' = lora_sent n ++ ps
    ∧ length ps = length (fired_at ActTransmit log)
    ∧ Forall (λ p, ∃ d, sample_ok d ∧ p = packet_of (pk_packet p) d) ps
    ∧ pk_packet <$> ps
      = (λ i : nat, Int.wrap_s32 (packetCounter n + Z.of_nat i))
        <$> seq 0 (length ps)
    ∧ packetCounter n' = Int.wrap_s32 (packetCounter n + Z.of_nat (length ps)).
Proof.
  induction trace as [|[rx now r] rest IH]; intros n Hok Hc.
  - exists [], n, [], []. cbn.
    change (Z.of_nat 0) with 0. rewrite Z.add_0_r, wrap_s32_small by exact Hc.
    rewrite app_nil_r.
    split; [done|]. split; [done|]. split; [exact Hok|].
    repeat split; try done; apply Forall_nil_2.
  - destruct (loop_effect_rx rx now r n (proj1 Hok))
      as (a & n1 & Hloop & Ha & Hd & Hpm & Hfile & Hsent & Hcnt & _).
    assert (Hok1 : sample_ok (currentData n1)).
    { destruct Hok as (_ & Haqi & Ht & Hh).
      split; [done|]. rewrite Hd.
      destruct (sample_due now n); [|done].
      destruct (readAllSensors_not_nan r (receive rx n)). done. }
    assert (Hc1 : in_int (packetCounter n1)).
    { rewrite Hcnt. destruct (transmit_due now n); [|done]. apply wrap_s32_range. }
    destruct (IH n1 Hok1 Hc1)
      as (log & n' & ds & ps & Hrun & Hlog & Hok' & Hfile' & Hds & Hle & Heq
          & Hsent' & Hlen & Hps & Hnum & Hcnt').
    exists ((now, due_actions now n) :: log), n',
      ((if sample_due now n && persist_due now n && sd_card_ok r
        then [currentData n1] else []) ++ ds),
      ((if transmit_due now n
        then [packet_of (packetCounter n) (currentData n1)] else []) ++ ps).
    split; [cbn [run_checks arrived clock drivers]; rewrite Hloop; cbn;
            rewrite Hrun; done|].
    split; [cbn; by rewrite Hlog|].
    split; [done|].
    rewrite !fired_at_cons, persist_fired, transmit_fired, !length_app.
    split.
    { rewrite fmap_app, appended_app, Hfile', Hfile.
      by destruct (sample_due now n && persist_due now n && sd_card_ok r). }
    split.
    { apply Forall_app. split; [|done].
      destruct (sample_due now n && persist_due now n && sd_card_ok r);
        [by apply Forall_singleton | apply Forall_nil_2]. }
    split.
    { destruct (sample_due now n && persist_due now n), (sd_card_ok r);
        cbn; lia. }
    split.
    { intros Hcards. apply Forall_cons in Hcards as [Hcard Hcards].
      cbn in Hcard. rewrite Hcard, andb_true_r. rewrite (Heq Hcards).
      by destruct (sample_due now n && persist_due now n). }
    split; [by rewrite Hsent', Hsent, <- app_assoc|].
    split; [rewrite Hlen; by destruct (transmit_due now n)|].
    split.
    { apply Forall_app. split; [|done].
      destruct (transmit_due now n); [|apply Forall_nil_2].
      apply Forall_singleton. by exists (currentData n1). }
    rewrite Hcnt', Hcnt, fmap_app, Hnum, Hcnt.
    destruct (transmit_due now n); cbn [length app fmap list_fmap Nat.add].
    + split.
      * cbn [seq fmap list_fmap pk_packet packet_of].
        change (Z.of_nat 0) with 0.
        rewrite Z.add_0_r, (wrap_s32_small (packetCounter n)) by exact Hc.
        f_equal.
        rewrite <- fmap_S_seq, <- list_fmap_compose.
        apply list_fmap_ext. intros i x _. cbn.
        rewrite wrap_s32_add_l. f_equal. lia.
      * rewrite wrap_s32_add_l. f_equal. lia.
    + done.
Qed.

(** The trace without arrivals is the plain run. *)
Lemma receive_nothing (n : Node) : receive [] n = n.
Proof. unfold receive. rewrite app_nil_r. by destruct n. Qed.

Lemma run_as_checks (trace : list (Z * Readings)) : ∀ n : Node,
  run trace n = run_checks ((λ e, mkLoopCheck [] e.1 e.2) <$> trace) n.
Proof.
  induction trace as [|[now r] rest IH]; intros n; [done|].
  cbn [run run_checks fmap list_fmap arrived clock drivers fst snd].
  rewrite receive_nothing.
  destruct (loop now r n) as [[acts n1]|]; [|done].
  cbn. by rewrite IH.
Qed.

(** The node after [setup]. *)
Lemma setup_state (b : Boot) (n0 : Node) :
  setup b = Some n0 →
  currentData n0 = currentData (power_on b)
  ∧ lastSensorRead n0 = 0 ∧ lastSDWrite n0 = 0 ∧ lastLoRaTransmit n0 = 0
  ∧ packetCounter n0 = 0 ∧ lora_sent n0 = [].
Proof.
  unfold setup, createCSVHeader.
  destruct (lora_begin_ok b); [|done]. intros [= <-].
  destruct (sd_begin_ok b); [|done].
  destruct (sd_header_ok b); [|done]. cbn.
  by destruct (bool_decide _).
Qed.

Lemma power_on_sample_ok (b : Boot) : sample_ok (currentData (power_on b)).
Proof.
  split; [split; exists 0; (split; [lia | reflexivity])|].
  cbn. split; [lia | done].
Qed.

Lemma setup_sample_ok (b : Boot) (n0 : Node) :
  setup b = Some n0 → sample_ok (currentData n0).
Proof.
  intros H. destruct (setup_state b n0 H) as (-> & _). apply power_on_sample_ok.
Qed.

(** ** Timers within one run of the clock *)

Lemma wrap_u32_small (z : Z) : 0 ≤ z < 4294967296 → Int.wrap_u32 z = z.
Proof. intros Hz. unfold Int.wrap_u32. by rewrite Z.mod_small. Qed.

Lemma wrap_u32_sub (t t0 : Z) :
  Int.wrap_u32 (Int.wrap_u32 t - Int.wrap_u32 t0) = Int.wrap_u32 (t - t0).
Proof. unfold Int.wrap_u32. by rewrite <- Zminus_mod. Qed.

Lemma run_checks_cons (c : LoopCheck) (rest : list LoopCheck)
    (n n1 : Node) (acts : list Action) (log : list (Z * list Action)) (n' : Node) :
  loop (clock c) (drivers c) (receive (arrived c) n) = Some (acts, n1) →
  run_checks (c :: rest) n = Some (log, n') →
  ∃ log', run_checks rest n1 = Some (log', n') ∧ log = (clock c, acts) :: log'.
Proof.
  intros Hloop. cbn [run_checks]. rewrite Hloop. cbn.
  destruct (run_checks rest n1) as [[log' n2]|]; [|done].
  cbn. intros [= <- <-]. by exists log'.
Qed.

Lemma run_spaced (trace : list LoopCheck) :
  ∀ (n : Node) (t0 : Z) (log : list (Z * list Action)) (n' : Node),
  pm_decoded (currentData n) → clock_trace t0 trace →
  0 ≤ lastSensorRead n ≤ t0 → 0 ≤ lastSDWrite n ≤ t0 →
  0 ≤ lastLoRaTransmit n ≤ t0 →
  run_checks trace n = Some (log, n') →
  spaced SENSOR_READ_INTERVAL (lastSensorRead n) (fired_at ActSample log)
  ∧ spaced SD_WRITE_INTERVAL (lastSDWrite n) (fired_at ActPersist log)
  ∧ spaced LORA_TRANSMIT_INTERVAL (lastLoRaTransmit n) (fired_at ActTransmit log).
Proof.
  induction trace as [|[rx now r] rest IH]; intros n t0 log n' Hpm Hclock Hs Hp Ht Hrun.
  - cbn in Hrun. injection Hrun as <- <-. done.
  - destruct Hclock as [Hnow Hclock]. cbn [clock] in Hnow, Hclock.
    destruct (loop_effect_rx rx now r n Hpm)
      as (a & n1 & Hloop & _ & _ & Hpm1 & _ & _ & _ & Es & Ep & Et).
    destruct (run_checks_cons (mkLoopCheck rx now r) _ _ _ _ _ _ Hloop Hrun)
      as (log' & Hrun' & ->).
    cbn [clock].
    rewrite !fired_at_cons, sample_fired, persist_fired, transmit_fired.
    assert (Ds : sample_due now n = true → lastSensorRead n + SENSOR_READ_INTERVAL ≤ now).
    { unfold sample_due. rewrite Z.leb_le, wrap_u32_small by lia. lia. }
    assert (Dp : persist_due now n = true → lastSDWrite n + SD_WRITE_INTERVAL ≤ now).
    { unfold persist_due. rewrite Z.leb_le, wrap_u32_small by lia. lia. }
    assert (Dt : transmit_due now n = true →
                 lastLoRaTransmit n + LORA_TRANSMIT_INTERVAL ≤ now).
    { unfold transmit_due. rewrite Z.leb_le, wrap_u32_small by lia. lia. }
    destruct (IH n1 now log' n' Hpm1 Hclock) as (Ss & Sp & St); try done.
    + rewrite Es. destruct (sample_due now n); lia.
    + rewrite Ep. destruct (sample_due now n && persist_due now n); lia.
    + rewrite Et. destruct (transmit_due now n); lia.
    + rewrite Es in Ss. rewrite Ep in Sp. rewrite Et in St.
      destruct (sample_due now n), (persist_due now n), (transmit_due now n);
        cbn [andb app spaced] in *; auto.
Qed.

(** Until the sample timer runs out for the first time, nothing happens. *)
Lemma run_quiet_until_sample (trace : list LoopCheck) :
  ∀ (n : Node) (log : list (Z * list Action)) (n' : Node),
  pm_decoded (currentData n) →
  lastLoRaTransmit n = lastSensorRead n →
  run_checks trace n = Some (log, n') →
  ∃ quiet rest,
    log = quiet ++ rest
    ∧ Forall (λ e, e.2 = []) quiet
    ∧ match rest with
      | [] => True
      | (_, acts) :: _ => ActSample ∈ acts
      end.
Proof.
  induction trace as [|[rx now r] rest IH]; intros n log n' Hpm Hst Hrun.
  - cbn in Hrun. injection Hrun as <- <-. by exists [], [].
  - destruct (loop_effect_rx rx now r n Hpm)
      as (a & n1 & Hloop & _ & _ & Hpm1 & _ & _ & _ & Es & _ & Et).
    destruct (run_checks_cons (mkLoopCheck rx now r) _ _ _ _ _ _ Hloop Hrun)
      as (log' & Hrun' & ->).
    cbn [clock].
    destruct (sample_due now n) eqn:Esample.
    + exists [], ((now, due_actions now n) :: log').
      split; [done|]. split; [done|].
      by apply sample_in_due_actions.
    + assert (Etransmit : transmit_due now n = false).
      { unfold transmit_due, sample_due in *. rewrite Hst.
        apply Z.leb_gt. apply Z.leb_gt in Esample.
        unfold LORA_TRANSMIT_INTERVAL, SENSOR_READ_INTERVAL in *. lia. }
      rewrite Etransmit in Et.
      destruct (IH n1 log' n' Hpm1 ltac:(congruence) Hrun')
        as (quiet & rest' & -> & Hquiet & Hrest).
      exists ((now, due_actions now n) :: quiet), rest'.
      split; [done|]. split; [|done].
      constructor; [|done].
      unfold due_actions. by rewrite Esample, Etransmit.
Qed.

(** Any sequence of passes completes on a node whose particulate fields
    are decoded values, and no pass runs an action twice. *)
Lemma run_checks_defined (trace : list LoopCheck) : ∀ n : Node,
  pm_decoded (currentData n) →
  ∃ (log : list (Z * list Action)) (n' : Node),
    run_checks trace n = Some (log, n') ∧ Forall (λ e, NoDup e.2) log.
Proof.
  induction trace as [|[rx now r] rest IH]; intros n Hpm.
  - by exists [], n.
  - destruct (loop_effect_rx rx now r n Hpm) as (a & n1 & Hloop & _ & _ & Hpm1 & _).
    destruct (IH n1 Hpm1) as (log & n' & Hrun & Hnodup).
    exists ((now, due_actions now n) :: log), n'.
    split; [cbn [run_checks arrived clock drivers]; rewrite Hloop; cbn;
            by rewrite Hrun|].
    constructor; [apply due_actions_NoDup | done].
Qed.

(** While the persist timer has not run out, nothing is written. *)
Lemma run_no_persist (t : Z) (trace : list LoopCheck) : ∀ n : Node,
  pm_decoded (currentData n) →
  lastSDWrite n = t →
  Forall (λ c, 0 ≤ clock c - t < SD_WRITE_INTERVAL) trace →
  ∃ (log : list (Z * list Action)) (n' : Node),
    run_checks trace n = Some (log, n')
    ∧ fired_at ActPersist log = []
    ∧ sd_file n' = sd_file n.
Proof.
  induction trace as [|[rx now r] rest IH]; intros n Hpm Ht Hw.
  - by exists [], n.
  - apply Forall_cons in Hw as [Hnow Hw]. cbn [clock] in Hnow.
    destruct (loop_effect_rx rx now r n Hpm)
      as (a & n1 & Hloop & _ & _ & Hpm1 & Hfile & _ & _ & _ & Ep & _).
    assert (Hidle : persist_due now n = false).
    { unfold persist_due. rewrite Ht. apply Z.leb_gt.
      rewrite wrap_u32_small; unfold SD_WRITE_INTERVAL in *; lia. }
    rewrite Hidle, andb_false_r in Hfile, Ep. cbn [andb] in Hfile.
    destruct (IH n1 Hpm1 ltac:(congruence) Hw) as (log & n' & Hrun & Hnone & Hf).
    exists ((now, due_actions now n) :: log), n'.
    split; [cbn [run_checks arrived clock drivers]; rewrite Hloop; cbn;
            by rewrite Hrun|].
    rewrite fired_at_cons, persist_fired, Hidle, andb_false_r, Hnone.
    split; [done | congruence].
Qed.

(** ** Rounding to one decimal place *)

Module RoundFacts.

(** The canonical form of an integer is unique. *)
Lemma canon64_int_unique (x y : flt) (v : Z) :
  canon64_int x v → canon64_int y v → x = y.
Proof.
  intros [[Hv ->] | (m1 & e1 & -> & Hd1 & He1 & Hm1)]
         [[Hv' ->] | (m2 & e2 & -> & Hd2 & He2 & Hm2)]; try done.
  - exfalso. subst v. lia.
  - exfalso. subst v. lia.
  - assert (H1 : 0 < 2 ^ (- e1)) by (apply Z.pow_pos_nonneg; lia).
    assert (Hpos : 0 < v) by nia.
    destruct v as [|q|q]; try lia.
    pose proof (digits_mul_pow2 q m1 (- e1) ltac:(lia) Hm1) as D1.
    pose proof (digits_mul_pow2 q m2 (- e2) ltac:(lia) Hm2) as D2.
    assert (e1 = e2) as -> by lia.
    assert (m1 = m2) as -> by lia.
    done.
Qed.

(** The [double] of an integer below [2^53]. *)
Lemma f64_of_Z_canon (v : Z) : 0 ≤ v < 2 ^ 53 → canon64_int (f64_of_Z v) v.
Proof.
  intros Hv. destruct v as [|p|p]; [left; done | | lia].
  right. unfold f64_of_Z, binary_normalize.
  assert (Hd : Zpos (digits2_pos p) ≤ 53) by (apply digits2_pos_le; lia).
  destruct (binary_round_exact 53 1024 false p 0) as (m' & Hr & Hm' & Hd'); try lia.
  exists m', (0 - (53 - Zpos (digits2_pos p))).
  split; [done|]. split; [done|]. split; [lia|].
  rewrite Hm'. do 2 f_equal. lia.
Qed.

(** Promotion of an integer [float] gives the [double] of the integer. *)
Lemma f64_of_f32_canon (x : flt) (v : Z) :
  canon32_int x v → canon64_int (f64_of_f32 x) v.
Proof.
  intros [[-> ->] | (m & e & -> & Hd & He & Hm)]; [by left|].
  right. cbn [f64_of_f32].
  assert (Hv : 0 < v).
  { assert (0 < 2 ^ (- e)) by (apply Z.pow_pos_nonneg; lia). nia. }
  assert (He' : -24 < e).
  { destruct (Z_lt_le_dec (-24) e) as [|Hle]; [done|]. exfalso.
    pose proof (digits2_pos_spec m) as [_ Hhi]. rewrite Hd in Hhi.
    assert (2 ^ 24 ≤ 2 ^ (- e)) by (apply Z.pow_le_mono_r; lia). nia. }
  destruct (binary_round_exact 53 1024 false m e) as (m' & Hr & Hm' & Hd'); try lia.
  rewrite Hd in *.
  exists m', (e - 29). split; [done|]. split; [done|]. split; [lia|].
  rewrite Hm', Hm. change (53 - 24) with 29.
  rewrite <- Z.mul_assoc, <- Z.pow_add_r by lia. do 2 f_equal. lia.
Qed.

(** [round] of a [double] that holds an integer below [2^52] is that
    integer. *)
Lemma f64_round_canon (x : flt) (v : Z) :
  canon64_int x v → v < 2 ^ 52 → f64_round x = f64_of_Z v.
Proof.
  intros [[-> ->] | (m & e & -> & Hd & He & Hm)] Hv; [done|].
  assert (H2 : 0 < 2 ^ (- e)) by (apply Z.pow_pos_nonneg; lia).
  assert (He' : e < 0).
  { destruct (Z_lt_le_dec e 0) as [|Hge]; [done|]. exfalso.
    replace e with 0 in * by lia.
    pose proof (digits2_pos_spec m) as [Hlo _]. rewrite Hd in Hlo.
    change (2 ^ (- 0)) with 1 in Hm. lia. }
  cbn [f64_round].
  assert ((0 <=? e) = false) as -> by (apply Z.leb_gt; lia).
  rewrite Hm, Z.div_mul, Z.mod_mul by lia.
  assert ((2 ^ (- e) <=? 2 * 0) = false) as -> by (apply Z.leb_gt; lia).
  done.
Qed.

Lemma new_location_exact (d : Z) : new_location d 0 = loc_Exact.
Proof.
  unfold new_location, new_location_even, new_location_odd.
  by destruct (Z.even d).
Qed.

(** Ten times an integer divided by [10.0] is the integer. *)
Lemma f64_div_10_canon (x : flt) (v : Z) :
  canon64_int x (10 * v) → 0 ≤ v < 2 ^ 48 →
  canon64_int (f64_div x Lit.d10_0) v.
Proof.
  intros [[Hv ->] | (m & e & -> & Hd & He & Hm)] Hr.
  { left. split; [lia | done]. }
  assert (H2 : 0 < 2 ^ (- e)) by (apply Z.pow_pos_nonneg; lia).
  assert (Hpos : 0 < v) by nia.
  destruct v as [|q|q]; try lia.
  right.
  pose proof (digits2_pos_spec q) as [Qlo Qhi].
  set (dq := Zpos (digits2_pos q)) in *.
  assert (Hdq : dq ≤ 48) by (apply digits2_pos_le; lia).
  assert (D10 : 53 = dq + 3 - e ∨ 53 = dq + 4 - e).
  { pose proof (digits2_pos_spec m) as [Mlo Mhi]. rewrite Hd in Mlo, Mhi.
    assert (0 < dq) by (subst dq; lia).
    assert (Hlo : 2 ^ (dq + 2 - e) < 2 ^ 53).
    { eapply Z.le_lt_trans; [|exact Mhi]. rewrite Hm.
      replace (dq + 2 - e) with ((dq - 1) + 3 + - e) by lia.
      rewrite !Z.pow_add_r by lia. change (2 ^ 3) with 8. nia. }
    assert (Hhi : 2 ^ (53 - 1) < 2 ^ (dq + 4 - e)).
    { eapply Z.le_lt_trans; [exact Mlo|]. rewrite Hm.
      replace (dq + 4 - e) with (dq + 4 + - e) by lia.
      rewrite !Z.pow_add_r by lia. change (2 ^ 4) with 16. nia. }
    apply Z.pow_lt_mono_r_iff in Hlo; [|lia|lia].
    apply Z.pow_lt_mono_r_iff in Hhi; [|lia|lia].
    lia. }
  unfold f64_div, Lit.d10_0, SFdiv, SFdiv_core_binary.
  cbn [Zdigits2 xorb]. rewrite Hd.
  change (Zpos (digits2_pos 5629499534213120)) with 53.
  rewrite fexp_normal by lia.
  replace (Z.min (53 + e - (53 + -49) - 53) (e - -49)) with (e - 4) by lia.
  replace (e - -49 - (e - 4)) with 53 by lia.
  rewrite Z.shiftl_mul_pow2 by lia.
  assert (Hq : Zpos m * 2 ^ 53 = Zpos q * 2 ^ (4 - e) * 5629499534213120).
  { rewrite Hm. change 5629499534213120 with (10 * 2 ^ 49).
    replace (4 - e) with (4 + - e) by lia.
    rewrite Z.pow_add_r by lia.
    change (2 ^ 53) with (2 ^ 4 * 2 ^ 49). ring. }
  assert (Hdiv : Z.div_eucl (Zpos m * 2 ^ 53) 5629499534213120
                 = (Zpos q * 2 ^ (4 - e), 0)).
  { pose proof (Z.div_eucl_eq (Zpos m * 2 ^ 53) 5629499534213120 ltac:(lia)) as E.
    pose proof (Z.mod_pos_bound (Zpos m * 2 ^ 53) 5629499534213120 ltac:(lia)) as B.
    unfold Z.modulo in B.
    destruct (Z.div_eucl (Zpos m * 2 ^ 53) 5629499534213120) as [a b].
    f_equal; nia. }
  rewrite Hdiv, new_location_exact.
  destruct (binary_round_aux_exact 53 1024 false q (4 - e) (e - 4))
    as (m' & Hres & Hm'); try (fold dq; lia).
  fold dq in Hres, Hm'.
  rewrite Hres.
  exists m', (e - 4 + Z.max 0 (dq + (4 - e) - 53)).
  split; [done|]. split.
  { rewrite (digits_mul_pow2 q m' (4 - e - Z.max 0 (dq + (4 - e) - 53)))
      by (lia || done). fold dq. lia. }
  split; [lia|].
  rewrite Hm'. do 2 f_equal. lia.
Qed.

(** [round(x * 10) / 10.0] of a decoded value is the value itself. *)
Lemma round1_decoded (v : Z) : 0 ≤ v ≤ 65535 → round1 (f32_of_Z v) = f64_of_Z v.
Proof.
  intros Hv. unfold round1.
  assert (Hx : canon32_int (f32_of_Z v) v) by (apply f32_of_Z_canon; lia).
  pose proof (f32_mul_canon _ _ _ _ Hx lit_f10_canon ltac:(lia)) as Hm.
  apply f64_of_f32_canon in Hm.
  rewrite (f64_round_canon _ (v * 10)) by (done || lia).
  apply (canon64_int_unique _ _ v).
  - apply f64_div_10_canon; [|lia].
    replace (10 * v) with (v * 10) by lia. apply f64_of_Z_canon. lia.
  - apply f64_of_Z_canon. lia.
Qed.

End RoundFacts.

(** ** Infinite readings *)

Lemma SFadd_infinity_l (prec emax : Z) (y : flt) :
  fpos y = true →
  SFadd prec emax (S754_infinity false) y = S754_infinity false.
Proof. by destruct y as [s|[]| |[] m e]. Qed.

Lemma SFadd_infinity_r (prec emax : Z) (x : flt) :
  fpos x = true →
  SFadd prec emax x (S754_infinity false) = S754_infinity false.
Proof. by destruct x as [s|[]| |[] m e]. Qed.

Lemma SFadd_fin_infinity (prec emax K : Z) (x : flt) :
  fin_below K x →
  SFadd prec emax x (S754_infinity false) = S754_infinity false.
Proof. by destruct x as [s|[]| |[] m e]. Qed.

(** The distance terms of the stress bonus with an infinite reading. *)
Lemma stress_sum_infinite (t h : flt) :
  (∃ s, t = S754_infinity s) ∧ is_nan h = false
  ∨ is_nan t = false ∧ (∃ s, h = S754_infinity s) →
  f32_add (f_abs (f32_sub t Lit.f25)) (f_abs (f32_sub h Lit.f50))
  = S754_infinity false.
Proof.
  intros [[[s ->] Hh] | [Ht [s ->]]].
  - change (f_abs (f32_sub (S754_infinity s) Lit.f25)) with (S754_infinity false).
    apply SFadd_infinity_l, f_abs_fpos, SFsub_not_nan, Hh.
  - change (f_abs (f32_sub (S754_infinity s) Lit.f50)) with (S754_infinity false).
    apply SFadd_infinity_r, f_abs_fpos, SFsub_not_nan, Ht.
Qed.

(** ** The category label *)

Lemma subindex_band_25 (c : Z) :
  0 ≤ c →
  let a := Reference.pm25_subindex c in
  (if c <=? 12 then 0 ≤ a ≤ 50
   else if c <=? 35 then 51 ≤ a ≤ 100
   else if c <=? 55 then 101 ≤ a ≤ 150
   else if c <=? 150 then 151 ≤ a ≤ 200
   else if c <=? 250 then 201 ≤ a ≤ 300
   else 301 ≤ a ≤ 500).
Proof.
  intros Hc. cbv zeta.
  unfold Reference.pm25_subindex, Reference.pm25_bands,
    Reference.pm25_top, Reference.subindex.
  cbn [Reference.c_hi].
  split_leb; try lia; band_facts (10 * c) (10 * c); lia.
Qed.

Lemma subindex_band_10 (c : Z) :
  0 ≤ c →
  let a := Reference.pm10_subindex c in
  (if c <=? 54 then 0 ≤ a ≤ 50
   else if c <=? 154 then 51 ≤ a ≤ 100
   else if c <=? 254 then 101 ≤ a ≤ 150
   else if c <=? 354 then 151 ≤ a ≤ 200
   else if c <=? 424 then 201 ≤ a ≤ 300
   else 301 ≤ a ≤ 500).
Proof.
  intros Hc. cbv zeta.
  unfold Reference.pm10_subindex, Reference.pm10_bands,
    Reference.pm10_top, Reference.subindex.
  cbn [Reference.c_hi].
  split_leb; try lia; band_facts c c; lia.
Qed.

(** ** Timers under regular checks *)


(** ** A node without particulate sensor *)

Lemma setup_serial (b : Boot) (n0 : Node) :
  setup b = Some n0 → pmsSerial n0 = boot_serial b.
Proof.
  unfold setup, createCSVHeader.
  destruct (lora_begin_ok b); [|done]. intros [= <-].
  destruct (sd_begin_ok b); [|done].
  destruct (sd_header_ok b); [|done]. cbn.
  by destruct (bool_decide _).
Qed.

(** With an empty queue an acquisition leaves the queue empty and the
    particulate fields at zero. *)
Lemma readAllSensors_no_bytes (r : Readings) (n : Node) :
  pmsSerial n = [] →
  pm25 (currentData n) = f32_of_Z 0 → pm10 (currentData n) = f32_of_Z 0 →
  pmsSerial (readAllSensors r n) = []
  ∧ pm25 (currentData (readAllSensors r n)) = f32_of_Z 0
  ∧ pm10 (currentData (readAllSensors r n)) = f32_of_Z 0.
Proof.
  intros Hq H25 H10. unfold readAllSensors. cbv zeta.
  cbn [pmsSerial currentData with_data pm25 pm10].
  set (n1 := if is_nan (dht_temperature r) || is_nan (dht_humidity r)
             then println dht_warning n else n).
  assert (Hq1 : pmsSerial n1 = []) by (subst n1; by destruct (_ || _)).
  assert (H251 : pm25 (currentData n1) = f32_of_Z 0) by (subst n1; by destruct (_ || _)).
  assert (H101 : pm10 (currentData n1) = f32_of_Z 0) by (subst n1; by destruct (_ || _)).
  rewrite readPMS5003_short by (rewrite Hq1; cbn; lia).
  by destruct (firstRead n1).
Qed.

Lemma run_no_bytes (trace : list LoopCheck) :
  ∀ (n : Node) (log : list (Z * list Action)) (n' : Node),
  pmsSerial n = [] →
  pm25 (currentData n) = f32_of_Z 0 → pm10 (currentData n) = f32_of_Z 0 →
  Forall (λ c, arrived c = []) trace →
  run_checks trace n = Some (log, n') →
  pmsSerial n' = []
  ∧ pm25 (currentData n') = f32_of_Z 0 ∧ pm10 (currentData n') = f32_of_Z 0
  ∧ ∃ ps : list Packet,
      lora_sent n' = lora_sent n ++ ps
      ∧ Forall (λ p, pk_pm25 p = f64_of_Z 0 ∧ pk_pm10 p = f64_of_Z 0) ps.
Proof.
  induction trace as [|[rx now r] rest IH]; intros n log n' Hq H25 H10 Hrx Hrun.
  - cbn in Hrun. injection Hrun as <- <-.
    repeat (split; [done|]). exists []. by rewrite app_nil_r.
  - apply Forall_cons in Hrx as [Hrx0 Hrx]. cbn in Hrx0. subst rx.
    assert (Hpm : pm_decoded (currentData n)).
    { split; exists 0; (split; [lia | done]). }
    destruct (loop_effect now r n Hpm)
      as (a & n1 & Hloop & _ & Hd & _ & _ & _ & Hsent & _ & Hser & _).
    rewrite <- (receive_nothing n) in Hloop at 1.
    destruct (run_checks_cons (mkLoopCheck [] now r) _ _ _ _ _ _ Hloop Hrun)
      as (log' & Hrun' & ->).
    destruct (readAllSensors_no_bytes r n Hq H25 H10) as (Rq & R25 & R10).
    assert (Hq1 : pmsSerial n1 = []).
    { rewrite Hser. by destruct (sample_due now n). }
    assert (H251 : pm25 (currentData n1) = f32_of_Z 0).
    { rewrite Hd. by destruct (sample_due now n). }
    assert (H101 : pm10 (currentData n1) = f32_of_Z 0).
    { rewrite Hd. by destruct (sample_due now n). }
    destruct (IH n1 log' n' Hq1 H251 H101 Hrx Hrun')
      as (Hq' & H25' & H10' & ps & Hsent' & Hps).
    repeat (split; [done|]).
    exists ((if transmit_due now n
             then [packet_of (packetCounter n) (currentData n1)] else []) ++ ps).
    split; [by rewrite Hsent', Hsent, <- app_assoc|].
    apply Forall_app. split; [|done].
    destruct (transmit_due now n); [|apply Forall_nil_2].
    apply Forall_singleton. cbn [packet_of pk_pm25 pk_pm10].
    rewrite H251, H101. split; by apply RoundFacts.round1_decoded.
Qed.

(** * The claims *)

(** C1.  For every sample in the ranges of the data model (particulate
    fields as decoded from a frame, analog levels within 0..4095),
    [calculateAQI] computes the index of the reference algorithm of the
    specification: the two piecewise-linear sub-indices over the breakpoint
    bands (PM2.5 interpolated on the concentration scaled by 10, the top
    bands clamped at 500), the weighted composite, the two correction
    factors and the unconditional stress bonus; both sub-indices lie
    between 0 and 500.  In particular PM2.5 = 0 gives the sub-index 0 and
    PM2.5 = 12.0 gives the sub-index 50. *)
Theorem calculateAQI_follows_reference (d : SensorData) (c25 c10 : Z) :
  0 ≤ c25 ≤ 65535 → 0 ≤ c10 ≤ 65535 →
  pm25 d = f32_of_Z c25 → pm10 d = f32_of_Z c10 →
  adc_level (gasLevel d) → adc_level (smokeLevel d) →
  calculateAQI d
  = (a ← Reference.aqi c25 c10 (temperature d) (humidity d)
           (gasLevel d) (smokeLevel d);
     Some (set_aqi a d))
  ∧ pm25_aqi_of (pm25 d) = Some (Reference.pm25_subindex c25)
  ∧ pm10_aqi_of (pm10 d) = Some (Reference.pm10_subindex c10)
  ∧ 0 ≤ Reference.pm25_subindex c25 ≤ 500
  ∧ 0 ≤ Reference.pm10_subindex c10 ≤ 500
  ∧ pm25_aqi_of (f32_of_Z 0) = Some 0
  ∧ pm25_aqi_of (f32_of_Z 12) = Some 50.
Proof.
  intros H25 H10 E25 E10 Hg Hs.
  split; [by apply calculateAQI_reference|].
  rewrite E25, E10.
  split; [apply pm25_aqi_of_decoded; lia|].
  split; [apply pm10_aqi_of_decoded; lia|].
  split; [apply pm25_subindex_range; lia|].
  split; [apply pm10_subindex_range; lia|].
  split; by vm_compute.
Qed.

Lemma calculateAQI_follows_reference_witness :
  calculateAQI sample0
  = (a ← Reference.aqi 10 20 (temperature sample0) (humidity sample0)
           (gasLevel sample0) (smokeLevel sample0);
     Some (set_aqi a sample0))
  ∧ pm25_aqi_of (pm25 sample0) = Some (Reference.pm25_subindex 10)
  ∧ pm10_aqi_of (pm10 sample0) = Some (Reference.pm10_subindex 20)
  ∧ 0 ≤ Reference.pm25_subindex 10 ≤ 500
  ∧ 0 ≤ Reference.pm10_subindex 20 ≤ 500
  ∧ pm25_aqi_of (f32_of_Z 0) = Some 0
  ∧ pm25_aqi_of (f32_of_Z 12) = Some 50.
Proof.
  apply (calculateAQI_follows_reference sample0 10 20);
    first [reflexivity | unfold adc_level; cbn; lia | lia].
Defined.

(** C2, as amended.  For every sample whose temperature and humidity are
    not NaN and whose particulate values pass the casts of the engine
    ([pm25 * 10] and [pm10] are finite and within the range of [long], as
    every value assigned by the frame decoder is), whatever the gas and
    smoke levels, the engine yields an [aqi] that is an integer between 0
    and 500; it changes no other field, so the same holds at the next
    invocation. *)
Theorem aqi_in_range (d : SensorData) :
  engine_input d →
  ∃ a : Z, calculateAQI d = Some (set_aqi a d)
           ∧ 0 ≤ a ≤ 500
           ∧ engine_input (set_aqi a d).
Proof.
  intros [Ht Hh H25 H10].
  destruct (calculateAQI_defined d Ht Hh H25 H10) as (a & Ha & Hr).
  exists a. split; [done|]. split; [done|]. by split.
Qed.

Lemma aqi_in_range_witness :
  ∃ a : Z, calculateAQI sample0 = Some (set_aqi a sample0)
           ∧ 0 ≤ a ≤ 500
           ∧ engine_input (set_aqi a sample0).
Proof.
  apply (aqi_in_range sample0).
  split; vm_compute; eauto.
Defined.

(** C2, the claim as stated, fails: with a NaN temperature in the sample
    neither bounds check fires and the cast to [int] has no defined
    result. *)
Lemma aqi_undefined_on_nan_temperature :
  ¬ ∃ a : Z,
      calculateAQI (mkSensorData 0 S754_nan (f32_of_Z 50) (f32_of_Z 10)
                      (f32_of_Z 20) 0 0 0)
      = Some (set_aqi a (mkSensorData 0 S754_nan (f32_of_Z 50) (f32_of_Z 10)
                           (f32_of_Z 20) 0 0 0))
      ∧ 0 ≤ a ≤ 500.
Proof. intros (a & Ha & _). vm_compute in Ha. discriminate. Qed.

(** C3, as amended.  When the queue holds a prefix free of 0x42, then the
    sync sequence 0x42 0x4d, then at least 30 more bytes, the decoder finds
    the sync, reads the 30 bytes into the frame buffer and sets [pm25] and
    [pm10] to the big-endian 16-bit values at frame offsets 12-13 and 14-15,
    leaving the rest of the queue; a queue of at least 32 bytes without
    any sync is drained and yields no frame: nothing else changes and
    nothing is thrown. *)
Theorem decoder_complete_frame (stack pre body q : list byte) (n : Node) :
  length stack = 32%nat →
  Forall (λ b, b ≠ x42) pre →
  (30 ≤ length body)%nat →
  (32 ≤ length q)%nat →
  (∀ i, ¬ sync_at q i) →
  let frame := x42 :: x4d :: take 30 body in
  let n' := readPMS5003 stack (with_pmsSerial (pre ++ x42 :: x4d :: body) n) in
  pm25 (currentData n')
  = f32_of_Z (256 * Arduino.byte_val (frame !!! 12%nat)
              + Arduino.byte_val (frame !!! 13%nat))
  ∧ pm10 (currentData n')
    = f32_of_Z (256 * Arduino.byte_val (frame !!! 14%nat)
                + Arduino.byte_val (frame !!! 15%nat))
  ∧ pmsSerial n' = drop 30 body
  ∧ readPMS5003 stack (with_pmsSerial q n) = with_pmsSerial [] n.
Proof.
  intros Hs Hpre Hb Hq Hno frame n'. subst n'.
  rewrite (readPMS5003_frame stack pre body) by done.
  cbn [currentData with_pmsSerial with_data pm25 pm10 set_pm pmsSerial].
  rewrite !be16_value. fold frame.
  repeat (split; [done|]).
  by rewrite readPMS5003_no_sync.
Qed.

Lemma decoder_complete_frame_witness :
  let frame := x42 :: x4d :: take 30 (drop 2 frame0) in
  let n' := readPMS5003 (replicate 32 xff)
              (with_pmsSerial ([x00; x01] ++ x42 :: x4d :: drop 2 frame0)
                 (power_on boot0)) in
  pm25 (currentData n')
  = f32_of_Z (256 * Arduino.byte_val (frame !!! 12%nat)
              + Arduino.byte_val (frame !!! 13%nat))
  ∧ pm10 (currentData n')
    = f32_of_Z (256 * Arduino.byte_val (frame !!! 14%nat)
                + Arduino.byte_val (frame !!! 15%nat))
  ∧ pmsSerial n' = drop 30 (drop 2 frame0)
  ∧ readPMS5003 (replicate 32 xff)
      (with_pmsSerial (replicate 32 x42) (power_on boot0))
    = with_pmsSerial [] (power_on boot0).
Proof.
  apply (decoder_complete_frame (replicate 32 xff) [x00; x01] (drop 2 frame0)
           (replicate 32 x42) (power_on boot0)).
  - reflexivity.
  - repeat constructor; discriminate.
  - cbn. lia.
  - cbn. lia.
  - intros i [H1 H2].
    apply lookup_replicate in H2 as [H2 _]. discriminate.
Defined.

(** C3, the claim as stated, fails: 32 bytes are queued and contain the
    sync, but only 10 bytes follow it.  The decoder finds the sync, cannot
    read 30 bytes, and takes [pm25] and [pm10] from buffer positions that
    the stream never filled (here the stack held 0xff). *)
Lemma decoder_truncated_frame_counterexample :
  let q := replicate 20 x00 ++ [x42; x4d] ++ replicate 10 x01 in
  let n' := readPMS5003 (replicate 32 xff) (with_pmsSerial q (power_on boot0)) in
  length q = 32%nat
  ∧ sync_at q 20
  ∧ drop 20 q !! 12%nat = None
  ∧ pm25 (currentData n') = f32_of_Z 65535
  ∧ pm10 (currentData n') = f32_of_Z 65535
  ∧ pmsSerial n' = [].
Proof. cbv zeta. repeat split; reflexivity. Qed.

(** The scan reads the byte after a 0x42 without looking at it again: a
    sync that starts on that byte is missed. *)
Lemma decoder_misses_sync_after_0x42 :
  let q := [x42] ++ frame0 in
  sync_at q 1
  ∧ readPMS5003 (replicate 32 xff) (with_pmsSerial q (power_on boot0))
    = with_pmsSerial [] (power_on boot0).
Proof. cbv zeta. split; [split|]; reflexivity. Qed.

(** C4: the first time fewer than 32 bytes are queued the particulate
    fields are reset to zero, also when an earlier cycle decoded a frame.
    Cycle 1 decodes [frame0] (PM2.5 = 35, PM10 = 50); cycle 2 finds an empty
    queue, consumes nothing, and zeroes both fields instead of keeping
    them. *)
Theorem first_short_read_zeroes_pm :
  let n1 := readPMS5003 (replicate 32 xff)
              (with_pmsSerial frame0 (power_on boot0)) in
  let n2 := readPMS5003 (replicate 32 xff) n1 in
  pm25 (currentData n1) = f32_of_Z 35
  ∧ pm10 (currentData n1) = f32_of_Z 50
  ∧ pmsSerial n1 = []
  ∧ pmsSerial n2 = pmsSerial n1
  ∧ pm25 (currentData n2) = f32_of_Z 0
  ∧ pm10 (currentData n2) = f32_of_Z 0.
Proof. cbv zeta. repeat split; reflexivity. Qed.

(** What C4 says and the code does do: with fewer than 32 bytes queued the
    decoder consumes nothing, and once the [static] flag is cleared it
    keeps the particulate fields. *)
Lemma short_read_keeps_queue_and_values (stack : list byte) (n : Node) :
  (length (pmsSerial n) < 32)%nat →
  pmsSerial (readPMS5003 stack n) = pmsSerial n
  ∧ (firstRead n = false → readPMS5003 stack n = n).
Proof.
  intros Hlen. rewrite readPMS5003_short by done.
  split; [by destruct (firstRead n) | by intros ->].
Qed.


(** C5, as amended.  The packet counter is a signed 32-bit [int]: it is 0
    at power-on, every call of [transmitData] sends its value before the
    increment as the [packet] field and adds 1 with two's-complement
    wrap-around, so after [k] calls it holds [k] reduced to the range of
    [int]; it is back at 0 after 2^32 calls, and negative in between, from
    the 2^31-th call on. *)
Theorem packet_counter_signed_wrap (b : Boot) (k : N) (n : Node) :
  packetCounter (power_on b) = 0
  ∧ packetCounter (transmitData n) = Int.wrap_s32 (packetCounter n + 1)
  ∧ (∃ p : Packet,
       lora_sent (transmitData n) = lora_sent n ++ [p]
       ∧ pk_packet p = packetCounter n)
  ∧ packetCounter (transmits k (power_on b)) = Int.wrap_s32 (Z.of_N k)
  ∧ packetCounter (transmits 4294967296 (power_on b)) = 0
  ∧ packetCounter (transmits 4294967295 (power_on b)) = -1.
Proof.
  split; [done|]. split; [done|].
  split; [apply transmitData_packet|].
  rewrite !counter_after. done.
Qed.

(** C5, the claim as stated, fails: the counter is not unsigned.  After
    2^31 transmissions it holds -2^31. *)
Lemma packet_counter_negative :
  packetCounter (transmits 2147483648 (power_on boot0)) = -2147483648.
Proof. rewrite counter_after. reflexivity. Qed.

(** C6, as amended.  At every check of the loop each timed action runs at
    most once, however many periods have gone by; the sample action runs
    exactly when the clock is at least [SENSOR_READ_INTERVAL] past the
    stamp of its last run (an unsigned 32-bit difference), the persist
    action exactly when in addition [SD_WRITE_INTERVAL] has gone by since
    its own stamp, and the transmit action exactly when
    [LORA_TRANSMIT_INTERVAL] has gone by since its own.  Each of the three
    timers is stamped with the clock value of the check when its action
    ran, not with a multiple of its period, and is left alone otherwise.
    So there is no catch-up: an action that ran at this check does not run
    at a next check less than its period later, and over any further
    checks within one run of the clock every action runs at most once per
    check and never earlier than one period after its own stamp or its
    own last run. *)
Theorem scheduler_fires_when_due (now : Z) (r : Readings) (n : Node) :
  pm_decoded (currentData n) →
  ∃ (acts : list Action) (n' : Node),
    loop now r n = Some (acts, n')
    ∧ NoDup acts
    ∧ (ActSample ∈ acts
       ↔ SENSOR_READ_INTERVAL ≤ Int.wrap_u32 (now - lastSensorRead n))
    ∧ (ActPersist ∈ acts
       ↔ SENSOR_READ_INTERVAL ≤ Int.wrap_u32 (now - lastSensorRead n)
         ∧ SD_WRITE_INTERVAL ≤ Int.wrap_u32 (now - lastSDWrite n))
    ∧ (ActTransmit ∈ acts
       ↔ LORA_TRANSMIT_INTERVAL ≤ Int.wrap_u32 (now - lastLoRaTransmit n))
    ∧ lastSensorRead n'
      = (if bool_decide (ActSample ∈ acts) then now else lastSensorRead n)
    ∧ lastSDWrite n'
      = (if bool_decide (ActPersist ∈ acts) then now else lastSDWrite n)
    ∧ lastLoRaTransmit n'
      = (if bool_decide (ActTransmit ∈ acts) then now else lastLoRaTransmit n)
    ∧ (∀ (now2 : Z) (r2 : Readings),
         ∃ (acts2 : list Action) (n2 : Node),
           loop now2 r2 n' = Some (acts2, n2)
           ∧ (ActSample ∈ acts → 0 ≤ now2 - now < SENSOR_READ_INTERVAL →
              ActSample ∉ acts2)
           ∧ (ActPersist ∈ acts → 0 ≤ now2 - now < SD_WRITE_INTERVAL →
              ActPersist ∉ acts2)
           ∧ (ActTransmit ∈ acts → 0 ≤ now2 - now < LORA_TRANSMIT_INTERVAL →
              ActTransmit ∉ acts2))
    ∧ (0 ≤ lastSensorRead n ≤ now → 0 ≤ lastSDWrite n ≤ now →
       0 ≤ lastLoRaTransmit n ≤ now →
       ∀ trace : list LoopCheck,
         clock_trace now trace →
         ∃ (log : list (Z * list Action)) (n2 : Node),
           run_checks trace n' = Some (log, n2)
           ∧ Forall (λ e, NoDup e.2) log
           ∧ spaced SENSOR_READ_INTERVAL (lastSensorRead n')
               (fired_at ActSample log)
           ∧ spaced SD_WRITE_INTERVAL (lastSDWrite n')
               (fired_at ActPersist log)
           ∧ spaced LORA_TRANSMIT_INTERVAL (lastLoRaTransmit n')
               (fired_at ActTransmit log)).
Proof.
  intros Hpm.
  destruct (loop_spec now r n Hpm) as (n' & Hloop & Hpm' & Es & Ep & Et).
  exists (due_actions now n), n'.
  split; [done|]. split; [apply due_actions_NoDup|].
  rewrite sample_fired, persist_fired, transmit_fired.
  rewrite sample_in_due_actions, persist_in_due_actions, transmit_in_due_actions.
  split; [unfold sample_due; by rewrite Z.leb_le|].
  split; [unfold sample_due, persist_due; by rewrite !Z.leb_le|].
  split; [unfold transmit_due; by rewrite Z.leb_le|].
  split; [done|]. split; [done|]. split; [done|].
  split.
  - intros now2 r2.
    destruct (loop_spec now2 r2 n' Hpm') as (n2 & Hloop2 & _).
    exists (due_actions now2 n'), n2. split; [done|].
    split; [|split].
    + intros Hs%sample_in_due_actions Hw. rewrite Hs in Es.
      rewrite sample_in_due_actions.
      assert (sample_due now2 n' = false) as ->; [|done].
      unfold sample_due. rewrite Es. apply Z.leb_gt.
      rewrite wrap_u32_small; unfold SENSOR_READ_INTERVAL in *; lia.
    + intros [Hs Hp]%persist_in_due_actions Hw. rewrite Hs, Hp in Ep.
      cbn [andb] in Ep. rewrite persist_in_due_actions.
      assert (persist_due now2 n' = false) as ->; [|by intros [_ ?]].
      unfold persist_due. rewrite Ep. apply Z.leb_gt.
      rewrite wrap_u32_small; unfold SD_WRITE_INTERVAL in *; lia.
    + intros Ht%transmit_in_due_actions Hw. rewrite Ht in Et.
      rewrite transmit_in_due_actions.
      assert (transmit_due now2 n' = false) as ->; [|done].
      unfold transmit_due. rewrite Et. apply Z.leb_gt.
      rewrite wrap_u32_small; unfold LORA_TRANSMIT_INTERVAL in *; lia.
  - intros Hs Hp Ht trace Hclock.
    destruct (run_checks_defined trace n' Hpm') as (log & n2 & Hrun & Hnodup).
    exists log, n2. split; [done|]. split; [done|].
    apply (run_spaced trace n' now log n2 Hpm' Hclock); [| | |done].
    + rewrite Es. destruct (sample_due now n); lia.
    + rewrite Ep. destruct (sample_due now n && persist_due now n); lia.
    + rewrite Et. destruct (transmit_due now n); lia.
Qed.

Lemma scheduler_fires_when_due_witness :
  ∃ (acts : list Action) (n' : Node),
    loop 12000 readings0 (power_on boot0) = Some (acts, n')
    ∧ NoDup acts
    ∧ (ActSample ∈ acts
       ↔ SENSOR_READ_INTERVAL
         ≤ Int.wrap_u32 (12000 - lastSensorRead (power_on boot0)))
    ∧ (ActPersist ∈ acts
       ↔ SENSOR_READ_INTERVAL
         ≤ Int.wrap_u32 (12000 - lastSensorRead (power_on boot0))
         ∧ SD_WRITE_INTERVAL
           ≤ Int.wrap_u32 (12000 - lastSDWrite (power_on boot0)))
    ∧ (ActTransmit ∈ acts
       ↔ LORA_TRANSMIT_INTERVAL
         ≤ Int.wrap_u32 (12000 - lastLoRaTransmit (power_on boot0)))
    ∧ lastSensorRead n'
      = (if bool_decide (ActSample ∈ acts) then 12000
         else lastSensorRead (power_on boot0))
    ∧ lastSDWrite n'
      = (if bool_decide (ActPersist ∈ acts) then 12000
         else lastSDWrite (power_on boot0))
    ∧ lastLoRaTransmit n'
      = (if bool_decide (ActTransmit ∈ acts) then 12000
         else lastLoRaTransmit (power_on boot0))
    ∧ (∀ (now2 : Z) (r2 : Readings),
         ∃ (acts2 : list Action) (n2 : Node),
           loop now2 r2 n' = Some (acts2, n2)
           ∧ (ActSample ∈ acts → 0 ≤ now2 - 12000 < SENSOR_READ_INTERVAL →
              ActSample ∉ acts2)
           ∧ (ActPersist ∈ acts → 0 ≤ now2 - 12000 < SD_WRITE_INTERVAL →
              ActPersist ∉ acts2)
           ∧ (ActTransmit ∈ acts → 0 ≤ now2 - 12000 < LORA_TRANSMIT_INTERVAL →
              ActTransmit ∉ acts2))
    ∧ (0 ≤ lastSensorRead (power_on boot0) ≤ 12000 →
       0 ≤ lastSDWrite (power_on boot0) ≤ 12000 →
       0 ≤ lastLoRaTransmit (power_on boot0) ≤ 12000 →
       ∀ trace : list LoopCheck,
         clock_trace 12000 trace →
         ∃ (log : list (Z * list Action)) (n2 : Node),
           run_checks trace n' = Some (log, n2)
           ∧ Forall (λ e, NoDup e.2) log
           ∧ spaced SENSOR_READ_INTERVAL (lastSensorRead n')
               (fired_at ActSample log)
           ∧ spaced SD_WRITE_INTERVAL (lastSDWrite n')
               (fired_at ActPersist log)
           ∧ spaced LORA_TRANSMIT_INTERVAL (lastLoRaTransmit n')
               (fired_at ActTransmit log)).
Proof.
  apply (scheduler_fires_when_due 12000 readings0 (power_on boot0)).
  split; exists 0; (split; [lia | reflexivity]).
Defined.

(** C6, the claim as stated, fails.  A loop whose passes take 1 ms beside
    the delay of 100 ms checks the clock every 101 ms; after a boot the
    sample action then runs at 5050, 10100 and 15150 ms, none of them a
    multiple of its period, and the persist action at 10100 ms. *)
Lemma sample_fires_off_multiples :
  (n0 ← setup boot0;
   '(log, _) ← run (List.map (λ k, (101 * Z.of_nat k, readings0)) (seq 1 160)) n0;
   Some (fired_at ActSample log, fired_at ActPersist log, fired_at ActTransmit log))
  = Some ([5050; 10100; 15150], [10100], []).
Proof. vm_compute. reflexivity. Qed.

(** Checked every 100 ms on the dot, the sample action does run at the
    multiples of its period. *)
Example sample_fires_on_multiples_when_checked_there :
  (n0 ← setup boot0;
   '(log, _) ← run (List.map (λ k, (100 * Z.of_nat k, readings0)) (seq 1 160)) n0;
   Some (fired_at ActSample log, fired_at ActPersist log, fired_at ActTransmit log))
  = Some ([5000; 10000; 15000], [10000], []).
Proof. vm_compute. reflexivity. Qed.

(** C7, as amended.  When the node boots with no log on the card and the
    card answers ([SD.begin] succeeds and the file can be created),
    [createCSVHeader] writes the header during [setup], and calling the log
    writer once for each of N samples, the card answering, leaves exactly
    the header line followed by the N data rows in call order; no data row
    equals the header.  When the log already exists, [createCSVHeader]
    leaves it as it is, whatever it contains. *)
Theorem log_after_boot (b : Boot) (ds : list SensorData)
    (card_ok : bool) (content : list Line) (n : Node) :
  boot_file b = None →
  sd_begin_ok b = true → sd_header_ok b = true → lora_begin_ok b = true →
  (∃ n0 : Node,
     setup b = Some n0
     ∧ sd_file n0 = Some [csv_header]
     ∧ sd_file (writes ds n0) = Some (csv_header :: List.map csv_row ds))
  ∧ (csv_header ∉ List.map csv_row ds)
  ∧ sd_file (createCSVHeader card_ok (with_sd_file (Some content) n))
    = Some content.
Proof.
  intros Hfile Hbegin Hheader Hlora.
  split; [|split; [apply header_not_in_rows|]].
  - unfold setup. rewrite Hbegin, Hheader, Hlora.
    eexists. split; [reflexivity|].
    assert (Hboot : sd_file (createCSVHeader true (power_on b)) = Some [csv_header]).
    { unfold createCSVHeader. cbn. rewrite Hfile. done. }
    split; [done|].
    rewrite writes_file by (right; rewrite Hboot; by eexists).
    by rewrite Hboot.
  - unfold createCSVHeader. cbn. by destruct card_ok.
Qed.

Lemma log_after_boot_witness :
  (∃ n0 : Node,
     setup boot0 = Some n0
     ∧ sd_file n0 = Some [csv_header]
     ∧ sd_file (writes [sample0; sample0] n0)
       = Some (csv_header :: List.map csv_row [sample0; sample0]))
  ∧ (csv_header ∉ List.map csv_row [sample0; sample0])
  ∧ sd_file (createCSVHeader true
               (with_sd_file (Some [csv_row sample0]) (power_on boot0)))
    = Some [csv_row sample0].
Proof.
  apply (log_after_boot boot0 [sample0; sample0] true [csv_row sample0]
           (power_on boot0)); reflexivity.
Defined.

(** C7, the claim as stated, fails: the log writer alone, called on a card
    without a log, creates the file with the data row and no header. *)
Lemma writer_alone_writes_no_header :
  sd_file (power_on boot0) = None
  ∧ sd_file (writeToSDCard true (power_on boot0))
    = Some [csv_row (currentData (power_on boot0))]
  ∧ csv_header ∉ [csv_row (currentData (power_on boot0))].
Proof.
  split; [reflexivity|]. split; [reflexivity|].
  apply (header_not_in_rows [currentData (power_on boot0)]).
Qed.

(** C8.  When the temperature or the humidity read is NaN, both fields
    become 0.0, the warning is printed, and the cycle goes on: the
    particulate fields and the queue are what [readPMS5003] makes of them,
    the two analog levels and the time stamp are read. *)
Theorem dht_failure_defaults (r : Readings) (n : Node) :
  (is_nan (dht_temperature r) || is_nan (dht_humidity r)) = true →
  let n' := readAllSensors r n in
  let d := currentData n' in
  temperature d = S754_zero false
  ∧ humidity d = S754_zero false
  ∧ console n' = console n ++ [dht_warning]
  ∧ pm25 d = pm25 (currentData (readPMS5003 (pms_stack r) n))
  ∧ pm10 d = pm10 (currentData (readPMS5003 (pms_stack r) n))
  ∧ pmsSerial n' = pmsSerial (readPMS5003 (pms_stack r) n)
  ∧ gasLevel d = adc_gas r
  ∧ smokeLevel d = adc_smoke r
  ∧ timestamp d = Int.wrap_u32 (stamp_millis r) / 1000.
Proof.
  intros Hfail. cbv zeta. unfold readAllSensors. rewrite Hfail.
  rewrite readPMS5003_println. cbn.
  rewrite readPMS5003_console. done.
Qed.

Lemma dht_failure_defaults_witness :
  let r := mkReadings S754_nan (f32_of_Z 40) (replicate 32 x00) 100 200 7000 true in
  let n' := readAllSensors r (power_on boot0) in
  let d := currentData n' in
  temperature d = S754_zero false
  ∧ humidity d = S754_zero false
  ∧ console n' = console (power_on boot0) ++ [dht_warning]
  ∧ pm25 d = pm25 (currentData (readPMS5003 (pms_stack r) (power_on boot0)))
  ∧ pm10 d = pm10 (currentData (readPMS5003 (pms_stack r) (power_on boot0)))
  ∧ pmsSerial n' = pmsSerial (readPMS5003 (pms_stack r) (power_on boot0))
  ∧ gasLevel d = adc_gas r
  ∧ smokeLevel d = adc_smoke r
  ∧ timestamp d = Int.wrap_u32 (stamp_millis r) / 1000.
Proof.
  apply (dht_failure_defaults
           (mkReadings S754_nan (f32_of_Z 40) (replicate 32 x00) 100 200 7000 true)
           (power_on boot0)).
  reflexivity.
Defined.

(** C10.  The header is written during [setup] only, and only when
    [SD.begin] succeeded, the card answered and no log existed; the log
    writer never writes it: on a card without a log it creates the file
    with the data rows alone, so a log that could not be created at boot
    has no header. *)
Theorem header_written_at_boot_only (b : Boot) (d : SensorData)
    (ds : list SensorData) (n : Node) :
  (sd_file <$> setup b)
  = (if lora_begin_ok b then
       Some (if sd_begin_ok b && sd_header_ok b then
               match boot_file b with
               | None => Some [csv_header]
               | Some content => Some content
               end
             else boot_file b)
     else None)
  ∧ sd_file (writeToSDCard true (with_sd_file None n))
    = Some [csv_row (currentData n)]
  ∧ sd_file (writes (d :: ds) (with_sd_file None n))
    = Some (List.map csv_row (d :: ds))
  ∧ csv_header ∉ List.map csv_row (d :: ds).
Proof.
  split.
  - destruct b as [q file begin_ok header_ok lora_ok].
    unfold setup, createCSVHeader. cbn.
    destruct lora_ok, begin_ok, header_ok, file; reflexivity.
  - split; [reflexivity|]. split; [|apply header_not_in_rows].
    by rewrite writes_file by (by left).
Qed.

(** * Further properties of the firmware *)

(** ** The frame decoder *)

(** X1.  The decoder looks at four bytes of a frame only.  Two complete frames
    that agree at frame offsets 12 to 15, each behind bytes among which
    there is no 0x42, give the same sample, whatever those bytes, the
    other 26 bytes of the frame (the length field and the check code among
    them) and the contents of the local array are: no length and no check
    code is ever verified. *)
Theorem decoder_reads_only_offsets_12_to_15
    (stack stack' pre pre' body body' : list byte) (n : Node) :
  length stack = 32%nat → length stack' = 32%nat →
  Forall (λ b, b ≠ x42) pre → Forall (λ b, b ≠ x42) pre' →
  (30 ≤ length body)%nat → (30 ≤ length body')%nat →
  (∀ i : nat, (12 ≤ i ≤ 15)%nat → frame_of body !! i = frame_of body' !! i) →
  currentData (readPMS5003 stack (with_pmsSerial (pre ++ frame_of body) n))
  = currentData (readPMS5003 stack' (with_pmsSerial (pre' ++ frame_of body') n)).
Proof.
  intros Hs Hs' Hpre Hpre' Hb Hb' Heq.
  rewrite (readPMS5003_frame stack pre body) by done.
  rewrite (readPMS5003_frame stack' pre' body') by done.
  cbn [currentData with_pmsSerial with_data].
  assert (Hl : ∀ i : nat, (12 ≤ i ≤ 15)%nat →
               (x42 :: x4d :: take 30 body) !! i = (x42 :: x4d :: take 30 body') !! i).
  { intros i Hi. rewrite !frame_take_lookup by lia. by apply Heq. }
  f_equal; f_equal; apply be16_lookup; apply Hl; lia.
Qed.

Lemma decoder_reads_only_offsets_12_to_15_witness :
  currentData (readPMS5003 (replicate 32 x00)
                 (with_pmsSerial ([x01] ++ frame_of (drop 2 frame0)) (power_on boot0)))
  = currentData (readPMS5003 (replicate 32 xff)
                   (with_pmsSerial
                      ([] ++ frame_of (replicate 10 x07 ++ [x00; x23; x00; x32]
                                       ++ replicate 16 xff))
                      (power_on boot0))).
Proof.
  apply (decoder_reads_only_offsets_12_to_15
           (replicate 32 x00) (replicate 32 xff) [x01] []
           (drop 2 frame0)
           (replicate 10 x07 ++ [x00; x23; x00; x32] ++ replicate 16 xff)
           (power_on boot0)).
  - reflexivity.
  - reflexivity.
  - repeat constructor; discriminate.
  - constructor.
  - cbn. lia.
  - cbn. lia.
  - intros i Hi.
    destruct i as [|[|[|[|[|[|[|[|[|[|[|[|[|[|[|[|i]]]]]]]]]]]]]]]];
      try lia; reflexivity.
Defined.

(** X2.  A backlog of complete frames is worked off one frame per call, oldest
    first: after as many calls as there are frames up to and including
    [body], the sample holds the values of [body] and the frames behind it
    are still queued.  A sync sequence inside a frame is not taken for
    one. *)
Theorem decoder_backlog_one_frame_per_call
    (earlier later stacks : list (list byte)) (body : list byte) (n : Node) :
  Forall (λ b, length b = 30%nat) (earlier ++ body :: later) →
  Forall (λ s, length s = 32%nat) stacks →
  length stacks = S (length earlier) →
  let q := concat (frame_of <$> (earlier ++ body :: later)) in
  let n' := decodes stacks (with_pmsSerial q n) in
  pmsSerial n' = concat (frame_of <$> later)
  ∧ pm25 (currentData n') = f32_of_Z (be16 (frame_of body) 12)
  ∧ pm10 (currentData n') = f32_of_Z (be16 (frame_of body) 14).
Proof.
  cbv zeta. revert stacks n.
  induction earlier as [|e earlier IH]; intros stacks n Hb Hs Hlen.
  - destruct stacks as [|s [|? ?]]; try (cbn in Hlen; lia).
    apply Forall_cons in Hb as [Hbody _]. apply Forall_cons in Hs as [Hs _].
    cbn [app fmap list_fmap concat decodes foldl].
    rewrite (readPMS5003_frame s [] (body ++ concat (frame_of <$> later)))
      by (try done; rewrite length_app; lia).
    cbn [pmsSerial currentData with_pmsSerial with_data set_pm pm25 pm10].
    rewrite take_app_length' by done.
    rewrite drop_app_length' by done. done.
  - destruct stacks as [|s stacks]; [cbn in Hlen; lia|].
    apply Forall_cons in Hb as [He Hb]. apply Forall_cons in Hs as [Hs Hss].
    cbn [app fmap list_fmap concat decodes foldl].
    rewrite (readPMS5003_frame s []
               (e ++ concat (frame_of <$> (earlier ++ body :: later))))
      by (try done; rewrite length_app; lia).
    rewrite drop_app_length' by done.
    apply IH; [done | done | cbn in Hlen; lia].
Qed.

Lemma decoder_backlog_one_frame_per_call_witness :
  let q := concat (frame_of <$> ([replicate 30 x42] ++ drop 2 frame0
                                   :: [replicate 30 x01])) in
  let n' := decodes [replicate 32 x00; replicate 32 xff]
              (with_pmsSerial q (power_on boot0)) in
  pmsSerial n' = concat (frame_of <$> [replicate 30 x01])
  ∧ pm25 (currentData n') = f32_of_Z (be16 (frame_of (drop 2 frame0)) 12)
  ∧ pm10 (currentData n') = f32_of_Z (be16 (frame_of (drop 2 frame0)) 14).
Proof.
  apply (decoder_backlog_one_frame_per_call
           [replicate 30 x42] [replicate 30 x01]
           [replicate 32 x00; replicate 32 xff] (drop 2 frame0) (power_on boot0)).
  - repeat constructor.
  - repeat constructor.
  - reflexivity.
Defined.

(** X3.  The decoder takes bytes from the front of the queue only and owns two
    fields of the sample: what is still queued after a call is a suffix of
    what was queued before, a call that finds 32 bytes or more takes at
    least 32 of them, so that a backlog cannot stall, and the time stamp,
    temperature, humidity, gas, smoke and index fields are never
    touched. *)
Theorem decoder_consumes_from_the_front (stack : list byte) (n : Node) :
  let n' := readPMS5003 stack n in
  pmsSerial n' `suffix_of` pmsSerial n
  ∧ ((32 ≤ length (pmsSerial n))%nat →
     (length (pmsSerial n') + 32 ≤ length (pmsSerial n))%nat)
  ∧ set_pm (pm25 (currentData n)) (pm10 (currentData n)) (currentData n')
    = currentData n.
Proof.
  cbv zeta. split; [|split].
  - unfold readPMS5003.
    destruct (32 <=? _).
    + pose proof (find_sync_suffix _ (pmsSerial n) (le_n _)) as Hscan.
      destruct (find_sync (pmsSerial n)) as [[] q1].
      * destruct Hscan as (pre & Hq & _).
        pose proof (read_frame_queue 30 2
                      (<[1%nat:=x4d]> (<[0%nat:=x42]> stack)) q1) as Hread.
        destruct (read_frame _ _ _ _) as [buffer q2]. cbn [snd] in Hread.
        cbn [pmsSerial with_pmsSerial]. rewrite Hq, Hread.
        exists (pre ++ take 30 q1). by rewrite <- app_assoc, take_drop.
      * subst q1. cbn [pmsSerial with_pmsSerial]. apply suffix_nil.
    + by destruct (firstRead n).
  - intros Hlen. unfold readPMS5003.
    assert ((32 <=? Z.of_nat (length (pmsSerial n))) = true) as ->
      by (apply Z.leb_le; lia).
    pose proof (find_sync_suffix _ (pmsSerial n) (le_n _)) as Hscan.
    destruct (find_sync (pmsSerial n)) as [[] q1].
    + destruct Hscan as (pre & Hq & Hpre).
      pose proof (read_frame_queue 30 2
                    (<[1%nat:=x4d]> (<[0%nat:=x42]> stack)) q1) as Hread.
      destruct (read_frame _ _ _ _) as [buffer q2]. cbn [snd] in Hread.
      cbn [pmsSerial with_pmsSerial]. subst q2.
      rewrite Hq, length_app in Hlen. rewrite Hq, length_app, length_drop. lia.
    + subst q1. cbn [pmsSerial with_pmsSerial length]. lia.
  - destruct (readPMS5003_other_fields stack n) as (H1 & H2 & H3 & H4 & H5 & H6).
    destruct (currentData (readPMS5003 stack n)), (currentData n).
    cbn in *. by subst.
Qed.

(** X4.  A frame that arrives in two pieces is decoded once it is complete.
    While fewer than 32 bytes are queued a call takes nothing from the
    queue, so the first piece waits there; when the rest has arrived the
    next call finds the sync at the head of the queue and decodes the
    frame, whatever the first call did to the [static] flag. *)
Theorem decoder_waits_for_complete_frame
    (stack1 stack2 part1 part2 body : list byte) (n : Node) :
  pmsSerial n = [] →
  part1 ++ part2 = frame_of body →
  (length part1 < 32)%nat → length body = 30%nat → length stack2 = 32%nat →
  let n1 := readPMS5003 stack1 (receive part1 n) in
  let n2 := readPMS5003 stack2 (receive part2 n1) in
  pmsSerial n1 = part1
  ∧ pmsSerial n2 = []
  ∧ pm25 (currentData n2) = f32_of_Z (be16 (frame_of body) 12)
  ∧ pm10 (currentData n2) = f32_of_Z (be16 (frame_of body) 14).
Proof.
  intros Hq Hparts H1 Hbody Hs2. cbv zeta.
  assert (Hq1 : pmsSerial (readPMS5003 stack1 (receive part1 n)) = part1).
  { rewrite readPMS5003_short by (cbn; rewrite Hq; cbn; lia).
    destruct (firstRead (receive part1 n)); cbn; by rewrite Hq. }
  split; [done|].
  set (n1 := readPMS5003 stack1 (receive part1 n)) in *.
  assert (Hq2 : pmsSerial (receive part2 n1) = [] ++ x42 :: x4d :: body).
  { cbn [receive pmsSerial with_pmsSerial]. by rewrite Hq1, Hparts. }
  rewrite (readPMS5003_frame stack2 [] body (receive part2 n1) Hs2
             (Forall_nil_2 _) ltac:(lia) Hq2).
  cbn [pmsSerial currentData with_pmsSerial with_data set_pm pm25 pm10].
  rewrite drop_ge, take_ge by lia. done.
Qed.

Lemma decoder_waits_for_complete_frame_witness :
  let n1 := readPMS5003 (replicate 32 x00) (receive (take 20 frame0) node0) in
  let n2 := readPMS5003 (replicate 32 xff) (receive (drop 20 frame0) n1) in
  pmsSerial n1 = take 20 frame0
  ∧ pmsSerial n2 = []
  ∧ pm25 (currentData n2) = f32_of_Z (be16 (frame_of (drop 2 frame0)) 12)
  ∧ pm10 (currentData n2) = f32_of_Z (be16 (frame_of (drop 2 frame0)) 14).
Proof.
  apply (decoder_waits_for_complete_frame (replicate 32 x00) (replicate 32 xff)
           (take 20 frame0) (drop 20 frame0) (drop 2 frame0) node0);
    first [reflexivity | cbn; lia].
Defined.

(** X5.  A stray 0x42 in front of a frame makes the decoder lose the frame.
    The scan reads the byte after a 0x42 without looking at it again, so
    the 0x42 of the sync is taken for that byte and skipped; when nothing
    behind it looks like a sync, the call drains the queue, the complete
    frame in it included, and the sample keeps its old values. *)
Theorem stray_0x42_hides_frame (stack body rest : list byte) (n : Node) :
  (30 ≤ length body)%nat →
  (∀ i : nat, ¬ sync_at (body ++ rest) i) →
  readPMS5003 stack (with_pmsSerial (x42 :: frame_of body ++ rest) n)
  = with_pmsSerial [] n.
Proof.
  intros Hbody Hno. unfold readPMS5003. cbn [pmsSerial with_pmsSerial].
  assert ((32 <=? Z.of_nat (length (x42 :: frame_of body ++ rest))) = true) as ->.
  { apply Z.leb_le. cbn [length frame_of app]. rewrite length_app. lia. }
  assert (find_sync (x42 :: frame_of body ++ rest) = (false, [])) as ->; [|done].
  unfold frame_of. cbn [app find_sync].
  change (Byte.eqb x42 x42) with true. change (Byte.eqb x42 x4d) with false.
  change (Byte.eqb x4d x42) with false. cbn iota.
  by apply find_sync_none.
Qed.

Lemma stray_0x42_hides_frame_witness :
  readPMS5003 (replicate 32 xff)
    (with_pmsSerial (x42 :: frame_of (drop 2 frame0) ++ [x01]) node0)
  = with_pmsSerial [] node0.
Proof.
  apply (stray_0x42_hides_frame (replicate 32 xff) (drop 2 frame0) [x01] node0).
  - cbn. lia.
  - intros i [H1 H2].
    do 31 (destruct i as [|i]; [discriminate|]).
    destruct i; discriminate.
Defined.

(** ** The index engine and the label *)

(** X6.  Both sub-indices grow with the concentration and level off at 500:
    on the values a frame can deliver, a larger PM2.5 (PM10) reading never
    gets a smaller sub-index, the PM2.5 sub-index is 500 from 500 ug/m3
    on and the PM10 sub-index from 604 ug/m3 on. *)
Theorem subindex_monotone_saturating (c1 c2 : Z) :
  0 ≤ c1 ≤ c2 → c2 ≤ 65535 →
  ∃ a1 a2 b1 b2 : Z,
    pm25_aqi_of (f32_of_Z c1) = Some a1 ∧ pm25_aqi_of (f32_of_Z c2) = Some a2
    ∧ pm10_aqi_of (f32_of_Z c1) = Some b1 ∧ pm10_aqi_of (f32_of_Z c2) = Some b2
    ∧ a1 ≤ a2 ∧ b1 ≤ b2
    ∧ (500 ≤ c1 → a1 = 500) ∧ (604 ≤ c1 → b1 = 500).
Proof.
  intros H1 H2.
  exists (Reference.pm25_subindex c1), (Reference.pm25_subindex c2),
    (Reference.pm10_subindex c1), (Reference.pm10_subindex c2).
  rewrite !pm25_aqi_of_decoded, !pm10_aqi_of_decoded by lia.
  repeat split.
  - by apply pm25_subindex_mono.
  - by apply pm10_subindex_mono.
  - apply pm25_subindex_saturated.
  - apply pm10_subindex_saturated.
Qed.

Lemma subindex_monotone_saturating_witness :
  ∃ a1 a2 b1 b2 : Z,
    pm25_aqi_of (f32_of_Z 600) = Some a1 ∧ pm25_aqi_of (f32_of_Z 700) = Some a2
    ∧ pm10_aqi_of (f32_of_Z 600) = Some b1 ∧ pm10_aqi_of (f32_of_Z 700) = Some b2
    ∧ a1 ≤ a2 ∧ b1 ≤ b2
    ∧ (500 ≤ 600 → a1 = 500) ∧ (604 ≤ 600 → b1 = 500).
Proof. apply (subindex_monotone_saturating 600 700); lia. Defined.

(** X7.  The engine reads neither the index nor the time stamp of the sample
    and writes the index only: run again on its own result it changes
    nothing. *)
Theorem calculateAQI_idempotent (d d' : SensorData) :
  calculateAQI d = Some d' → calculateAQI d' = Some d'.
Proof.
  intros H. unfold calculateAQI in H.
  destruct (pm25_aqi_of (pm25 d)) as [p25|] eqn:E25; [|done].
  destruct (pm10_aqi_of (pm10 d)) as [p10|] eqn:E10; [|done].
  cbn [mbind option_bind] in H. cbv zeta in H.
  destruct (f_to_int _) as [a|] eqn:Ea in H; [|done].
  cbn [mbind option_bind] in H. injection H as <-.
  unfold calculateAQI.
  cbn [set_aqi pm25 pm10 temperature humidity gasLevel smokeLevel].
  rewrite E25, E10. cbn [mbind option_bind]. cbv zeta.
  rewrite Ea. done.
Qed.

Lemma calculateAQI_idempotent_witness :
  calculateAQI (mkSensorData 0 (f32_of_Z 25) (f32_of_Z 50) (f32_of_Z 10)
                  (f32_of_Z 20) 0 0 21)
  = Some (mkSensorData 0 (f32_of_Z 25) (f32_of_Z 50) (f32_of_Z 10)
            (f32_of_Z 20) 0 0 21).
Proof.
  apply (calculateAQI_idempotent sample0). vm_compute. reflexivity.
Defined.

(** X8.  An infinite temperature or humidity reading drives the index to its
    upper bound.  When one of the two is an infinity and the other one is
    a number, the stress bonus is infinite, the first bounds check
    replaces the sum by 500, and the index is 500 whatever the particulate
    values and the analog levels are. *)
Theorem infinite_reading_saturates_index (d : SensorData) :
  (∃ s, temperature d = S754_infinity s) ∧ is_nan (humidity d) = false
  ∨ is_nan (temperature d) = false ∧ (∃ s, humidity d = S754_infinity s) →
  is_Some (f_to_int (f32_mul (pm25 d) Lit.f10)) →
  is_Some (f_to_int (pm10 d)) →
  calculateAQI d = Some (set_aqi 500 d).
Proof.
  intros Hinf H25 H10.
  destruct (pm25_aqi_of_defined _ H25) as (p25 & E25 & R25).
  destruct (pm10_aqi_of_defined _ H10) as (p10 & E10 & R10).
  unfold calculateAQI. rewrite E25, E10. cbn [mbind option_bind]. cbv zeta.
  rewrite (stress_sum_infinite _ _ Hinf).
  change (f32_mul (f32_of_f64 (f64_div (f64_of_f32 (S754_infinity false)) Lit.d100_0))
            Lit.f10) with (S754_infinity false).
  pose proof (corrected_composite_fin p25 p10
                (Arduino.map (gasLevel d) 0 4095 0 50)
                (Arduino.map (smokeLevel d) 0 4095 0 50)
                (temperature d) (humidity d) R25 R10
                (map_range _ _ _ _ _) (map_range _ _ _ _ _)) as Hfin.
  unfold f32_add. rewrite (SFadd_fin_infinity 24 128 46) by exact Hfin.
  done.
Qed.

Lemma infinite_reading_saturates_index_witness :
  calculateAQI (mkSensorData 0 (S754_infinity true) (f32_of_Z 50) (f32_of_Z 10)
                  (f32_of_Z 20) 0 0 0)
  = Some (set_aqi 500
            (mkSensorData 0 (S754_infinity true) (f32_of_Z 50) (f32_of_Z 10)
               (f32_of_Z 20) 0 0 0)).
Proof.
  apply (infinite_reading_saturates_index
           (mkSensorData 0 (S754_infinity true) (f32_of_Z 50) (f32_of_Z 10)
              (f32_of_Z 20) 0 0 0)).
  - left. split; [by exists true | reflexivity].
  - vm_compute. by eexists.
  - vm_compute. by eexists.
Defined.

(** X9.  The label changes exactly when the index passes 50, 100, 150, 200 or
    300: everything up to 50, negative values included, is [Good],
    everything above 300 is [Hazardous], and the labels of two
    neighbouring bands differ. *)
Theorem category_changes_at_thresholds (a : Z) :
  (getAQICategory a ≠ getAQICategory (a + 1) ↔ a ∈ [50; 100; 150; 200; 300])
  ∧ (a ≤ 50 → getAQICategory a = "Good"%string)
  ∧ (300 < a → getAQICategory a = "Hazardous"%string).
Proof.
  assert (Hin : a ∈ [50; 100; 150; 200; 300]
                ↔ a = 50 ∨ a = 100 ∨ a = 150 ∨ a = 200 ∨ a = 300).
  { rewrite !elem_of_cons, elem_of_nil. tauto. }
  rewrite Hin. unfold getAQICategory.
  split; [|split].
  - destruct (Z.leb_spec a 50), (Z.leb_spec (a + 1) 50); try lia;
      [split; [done | lia] | |].
    + destruct (Z.leb_spec (a + 1) 100); [|lia]. split; [lia | done].
    + destruct (Z.leb_spec a 100), (Z.leb_spec (a + 1) 100); try lia;
        [split; [done | lia] | |].
      * destruct (Z.leb_spec (a + 1) 150); [|lia]. split; [lia | done].
      * destruct (Z.leb_spec a 150), (Z.leb_spec (a + 1) 150); try lia;
          [split; [done | lia] | |].
        -- destruct (Z.leb_spec (a + 1) 200); [|lia]. split; [lia | done].
        -- destruct (Z.leb_spec a 200), (Z.leb_spec (a + 1) 200); try lia;
             [split; [done | lia] | |].
           ++ destruct (Z.leb_spec (a + 1) 300); [|lia]. split; [lia | done].
           ++ destruct (Z.leb_spec a 300), (Z.leb_spec (a + 1) 300); try lia;
                [split; [done | lia] | split; [lia | done] | split; [done | lia]].
  - intros Ha. by destruct (Z.leb_spec a 50); [|lia].
  - intros Ha.
    repeat (match goal with
            | |- context [?x <=? ?y] => destruct (Z.leb_spec x y); [lia|]
            end).
    done.
Qed.

(** X10.  The band tables of the engine and the thresholds of the label agree.
    The sub-index the engine computes for a decoded PM2.5 value carries
    the label of the concentration band the value lies in (up to 12, 35,
    55, 150 and 250 ug/m3), and the PM10 sub-index that of its band (up
    to 54, 154, 254, 354 and 424 ug/m3): no interpolated value crosses
    into the next category. *)
Theorem subindex_label_matches_band (c : Z) :
  0 ≤ c ≤ 65535 →
  ∃ a b : Z,
    pm25_aqi_of (f32_of_Z c) = Some a
    ∧ pm10_aqi_of (f32_of_Z c) = Some b
    ∧ getAQICategory a
      = (if (c <=? 12)%Z then "Good"
         else if (c <=? 35)%Z then "Moderate"
         else if (c <=? 55)%Z then "Unhealthy for Sensitive"
         else if (c <=? 150)%Z then "Unhealthy"
         else if (c <=? 250)%Z then "Very Unhealthy"
         else "Hazardous")%string
    ∧ getAQICategory b
      = (if (c <=? 54)%Z then "Good"
         else if (c <=? 154)%Z then "Moderate"
         else if (c <=? 254)%Z then "Unhealthy for Sensitive"
         else if (c <=? 354)%Z then "Unhealthy"
         else if (c <=? 424)%Z then "Very Unhealthy"
         else "Hazardous")%string.
Proof.
  intros Hc.
  exists (Reference.pm25_subindex c), (Reference.pm10_subindex c).
  rewrite pm25_aqi_of_decoded, pm10_aqi_of_decoded by lia.
  split; [done|]. split; [done|].
  pose proof (subindex_band_25 c ltac:(lia)) as H25.
  pose proof (subindex_band_10 c ltac:(lia)) as H10.
  cbv zeta in H25, H10. unfold getAQICategory.
  split.
  - clear H10. generalize dependent (Reference.pm25_subindex c). intros a H25.
    repeat (match goal with
            | H : context [?x <=? ?y] |- _ => destruct (Z.leb_spec x y)
            end); split_leb; (done || lia).
  - clear H25. generalize dependent (Reference.pm10_subindex c). intros b H10.
    repeat (match goal with
            | H : context [?x <=? ?y] |- _ => destruct (Z.leb_spec x y)
            end); split_leb; (done || lia).
Qed.

Lemma subindex_label_matches_band_witness :
  ∃ a b : Z,
    pm25_aqi_of (f32_of_Z 40) = Some a
    ∧ pm10_aqi_of (f32_of_Z 40) = Some b
    ∧ getAQICategory a
      = (if (40 <=? 12)%Z then "Good"
         else if (40 <=? 35)%Z then "Moderate"
         else if (40 <=? 55)%Z then "Unhealthy for Sensitive"
         else if (40 <=? 150)%Z then "Unhealthy"
         else if (40 <=? 250)%Z then "Very Unhealthy"
         else "Hazardous")%string
    ∧ getAQICategory b
      = (if (40 <=? 54)%Z then "Good"
         else if (40 <=? 154)%Z then "Moderate"
         else if (40 <=? 254)%Z then "Unhealthy for Sensitive"
         else if (40 <=? 354)%Z then "Unhealthy"
         else if (40 <=? 424)%Z then "Very Unhealthy"
         else "Hazardous")%string.
Proof. apply (subindex_label_matches_band 40). lia. Defined.

(** ** Transmission *)

(** X11.  Rounding to one decimal place loses nothing on the particulate
    fields.  For a sample whose particulate fields hold decoded values
    (integers up to 65535), the [pm25] and [pm10] fields of the packet that
    [transmitData] sends are exactly those integers as [double]s: the
    product by 10, the rounding and the division by 10.0 are all exact. *)
Theorem transmit_keeps_particulate_values (n : Node) (c25 c10 : Z) :
  0 ≤ c25 ≤ 65535 → 0 ≤ c10 ≤ 65535 →
  pm25 (currentData n) = f32_of_Z c25 → pm10 (currentData n) = f32_of_Z c10 →
  ∃ p : Packet,
    lora_sent (transmitData n) = lora_sent n ++ [p]
    ∧ pk_pm25 p = f64_of_Z c25
    ∧ pk_pm10 p = f64_of_Z c10.
Proof.
  intros H25 H10 E25 E10.
  exists (packet_of (packetCounter n) (currentData n)).
  split; [done|]. cbn [packet_of pk_pm25 pk_pm10].
  rewrite E25, E10. split; by apply RoundFacts.round1_decoded.
Qed.

Lemma transmit_keeps_particulate_values_witness :
  ∃ p : Packet,
    lora_sent (transmitData (with_data sample0 node0))
    = lora_sent (with_data sample0 node0) ++ [p]
    ∧ pk_pm25 p = f64_of_Z 10
    ∧ pk_pm10 p = f64_of_Z 20.
Proof.
  apply (transmit_keeps_particulate_values (with_data sample0 node0) 10 20);
    (lia || reflexivity).
Defined.

(** ** The loop and whole runs *)

(** X12.  From a boot on, the firmware never reaches a conversion without a
    defined result.  Whatever the clock values of the checks, whatever
    bytes arrive from the particulate sensor between them and whatever the
    drivers deliver at each of them (NaN or infinite temperatures, any
    analog levels, a card that does not answer), every pass of [loop]
    completes, and after it the sample holds decoded particulate values, a
    temperature and a humidity that are numbers, and an index between 0
    and 500. *)
Theorem firmware_never_stuck (b : Boot) (n0 : Node) (trace : list LoopCheck) :
  setup b = Some n0 →
  ∃ (log : list (Z * list Action)) (n' : Node),
    run_checks trace n0 = Some (log, n')
    ∧ List.map fst log = List.map clock trace
    ∧ pm_decoded (currentData n')
    ∧ 0 ≤ aqi (currentData n') ≤ 500
    ∧ is_nan (temperature (currentData n')) = false
    ∧ is_nan (humidity (currentData n')) = false.
Proof.
  intros Hsetup.
  destruct (setup_state b n0 Hsetup) as (_ & _ & _ & _ & Hc & _).
  destruct (run_effect trace n0 (setup_sample_ok b n0 Hsetup))
    as (log & n' & _ & _ & Hrun & Hlog & Hok & _).
  { rewrite Hc. unfold in_int. lia. }
  exists log, n'. split; [done|]. split; [done|]. exact Hok.
Qed.

Lemma firmware_never_stuck_witness :
  ∃ (log : list (Z * list Action)) (n' : Node),
    run_checks trace0 node0 = Some (log, n')
    ∧ List.map fst log = List.map clock trace0
    ∧ pm_decoded (currentData n')
    ∧ 0 ≤ aqi (currentData n') ≤ 500
    ∧ is_nan (temperature (currentData n')) = false
    ∧ is_nan (humidity (currentData n')) = false.
Proof. apply (firmware_never_stuck boot0 node0 trace0). reflexivity. Defined.

(** X13.  Every packet the radio ever sends after a boot carries the node id 1
    and the fields of a well-formed sample: an index between 0 and 500 and
    particulate, temperature and humidity fields rounded from decoded
    values and from numbers. *)
Theorem packets_carry_valid_samples (b : Boot) (n0 : Node)
    (trace : list LoopCheck) :
  setup b = Some n0 →
  ∃ (log : list (Z * list Action)) (n' : Node),
    run_checks trace n0 = Some (log, n')
    ∧ Forall (λ p, pk_node_id p = NODE_ID ∧ 0 ≤ pk_aqi p ≤ 500
                   ∧ ∃ d, sample_ok d ∧ p = packet_of (pk_packet p) d)
        (lora_sent n').
Proof.
  intros Hsetup.
  destruct (setup_state b n0 Hsetup) as (_ & _ & _ & _ & Hc & Hsent0).
  destruct (run_effect trace n0 (setup_sample_ok b n0 Hsetup))
    as (log & n' & _ & ps & Hrun & _ & _ & _ & _ & _ & _ & Hsent & _ & Hps & _).
  { rewrite Hc. unfold in_int. lia. }
  exists log, n'. split; [done|].
  rewrite Hsent, Hsent0. cbn [app].
  eapply Forall_impl; [exact Hps|].
  intros p (d & Hd & Hp). rewrite Hp. cbn.
  split; [done|]. split; [apply Hd|]. by exists d.
Qed.

Lemma packets_carry_valid_samples_witness :
  ∃ (log : list (Z * list Action)) (n' : Node),
    run_checks trace0 node0 = Some (log, n')
    ∧ Forall (λ p, pk_node_id p = NODE_ID ∧ 0 ≤ pk_aqi p ≤ 500
                   ∧ ∃ d, sample_ok d ∧ p = packet_of (pk_packet p) d)
        (lora_sent n').
Proof. apply (packets_carry_valid_samples boot0 node0 trace0). reflexivity. Defined.

(** X14.  The packets of a run are numbered in the order they were sent: one
    packet per firing of the transmit timer, the first one numbered 0, each
    next one numbered one more (reduced to the range of [int]), and the
    counter holds the number of the next packet. *)
Theorem packets_numbered_in_order (b : Boot) (n0 : Node)
    (trace : list LoopCheck) :
  setup b = Some n0 →
  ∃ (log : list (Z * list Action)) (n' : Node),
    run_checks trace n0 = Some (log, n')
    ∧ length (lora_sent n') = length (fired_at ActTransmit log)
    ∧ pk_packet <$> lora_sent n'
      = (λ i : nat, Int.wrap_s32 (Z.of_nat i)) <$> seq 0 (length (lora_sent n'))
    ∧ packetCounter n' = Int.wrap_s32 (Z.of_nat (length (lora_sent n'))).
Proof.
  intros Hsetup.
  destruct (setup_state b n0 Hsetup) as (_ & _ & _ & _ & Hc & Hsent0).
  destruct (run_effect trace n0 (setup_sample_ok b n0 Hsetup))
    as (log & n' & _ & ps & Hrun & _ & _ & _ & _ & _ & _ & Hsent & Hlen & _
        & Hnum & Hcnt).
  { rewrite Hc. unfold in_int. lia. }
  exists log, n'. split; [done|].
  rewrite Hsent, Hsent0, Hc in *. cbn [app Z.add] in *. done.
Qed.

Lemma packets_numbered_in_order_witness :
  ∃ (log : list (Z * list Action)) (n' : Node),
    run_checks trace0 node0 = Some (log, n')
    ∧ length (lora_sent n') = length (fired_at ActTransmit log)
    ∧ pk_packet <$> lora_sent n'
      = (λ i : nat, Int.wrap_s32 (Z.of_nat i)) <$> seq 0 (length (lora_sent n'))
    ∧ packetCounter n' = Int.wrap_s32 (Z.of_nat (length (lora_sent n'))).
Proof. apply (packets_numbered_in_order boot0 node0 trace0). reflexivity. Defined.

(** X15.  The running firmware only ever appends data rows to the log.  After
    any run from a boot the log is what [setup] left, unchanged, followed
    by one row per sample logged; the rows are rows of well-formed samples,
    none of them is a header line, there are never more rows than firings
    of the persist action, and exactly as many when the card answered at
    every check. *)
Theorem log_is_append_only (b : Boot) (n0 : Node) (trace : list LoopCheck) :
  setup b = Some n0 →
  ∃ (log : list (Z * list Action)) (n' : Node) (ds : list SensorData),
    run_checks trace n0 = Some (log, n')
    ∧ sd_file n' = appended (csv_row <$> ds) (sd_file n0)
    ∧ Forall sample_ok ds
    ∧ (csv_header ∉ csv_row <$> ds)
    ∧ (length ds ≤ length (fired_at ActPersist log))%nat
    ∧ (Forall (λ c, sd_card_ok (drivers c) = true) trace →
       length ds = length (fired_at ActPersist log)).
Proof.
  intros Hsetup.
  destruct (setup_state b n0 Hsetup) as (_ & _ & _ & _ & Hc & _).
  destruct (run_effect trace n0 (setup_sample_ok b n0 Hsetup))
    as (log & n' & ds & _ & Hrun & _ & _ & Hfile & Hds & Hle & Heq & _).
  { rewrite Hc. unfold in_int. lia. }
  exists log, n', ds. repeat (split; [done|]).
  split; [apply header_not_in_rows|]. done.
Qed.

Lemma log_is_append_only_witness :
  ∃ (log : list (Z * list Action)) (n' : Node) (ds : list SensorData),
    run_checks trace0 node0 = Some (log, n')
    ∧ sd_file n' = appended (csv_row <$> ds) (sd_file node0)
    ∧ Forall sample_ok ds
    ∧ (csv_header ∉ csv_row <$> ds)
    ∧ (length ds ≤ length (fired_at ActPersist log))%nat
    ∧ (Forall (λ c, sd_card_ok (drivers c) = true) trace0 →
       length ds = length (fired_at ActPersist log)).
Proof. apply (log_is_append_only boot0 node0 trace0). reflexivity. Defined.

(** X16.  A write that fails is not tried again.  When the persist action runs
    and the card does not answer, the row is dropped: the log stays as it
    was, the error line is printed, and the persist timer is stamped all
    the same, so that over any checks that follow within ten seconds of
    the failed one, whatever arrives and whatever the card does then, the
    persist action does not run and the log still is as it was. *)
Theorem failed_write_not_retried (now : Z) (r : Readings) (n : Node)
    (trace : list LoopCheck) :
  pm_decoded (currentData n) →
  sample_due now n = true → persist_due now n = true →
  sd_card_ok r = false →
  Forall (λ c, 0 ≤ clock c - now < SD_WRITE_INTERVAL) trace →
  ∃ (acts : list Action) (n' : Node),
    loop now r n = Some (acts, n')
    ∧ ActPersist ∈ acts
    ∧ sd_file n' = sd_file n
    ∧ ("✗ Error writing to SD card"%string ∈ console n')
    ∧ lastSDWrite n' = now
    ∧ ∃ (log : list (Z * list Action)) (n2 : Node),
        run_checks trace n' = Some (log, n2)
        ∧ fired_at ActPersist log = []
        ∧ sd_file n2 = sd_file n.
Proof.
  intros Hpm Hs Hp Hcard Hw.
  destruct (loop_effect now r n Hpm)
    as (a & n' & Hloop & _ & _ & _ & Hpm' & Hfile & _ & _ & _ & Hcons & _ & Hsd & _).
  rewrite Hs, Hp, Hcard in *. cbn [andb] in *.
  exists (due_actions now n), n'.
  split; [done|].
  split; [apply persist_in_due_actions; by rewrite Hs, Hp|].
  split; [done|].
  split.
  { rewrite Hcons. apply elem_of_app. right. apply elem_of_app. left.
    apply elem_of_app. right. apply list_elem_of_here. }
  split; [done|].
  destruct (run_no_persist now trace n' Hpm' Hsd Hw) as (log & n2 & Hrun & Hnone & Hf).
  exists log, n2. split; [done|]. split; [done|]. congruence.
Qed.

Lemma failed_write_not_retried_witness :
  ∃ (acts : list Action) (n' : Node),
    loop 10000 readings_no_card node0 = Some (acts, n')
    ∧ ActPersist ∈ acts
    ∧ sd_file n' = sd_file node0
    ∧ ("✗ Error writing to SD card"%string ∈ console n')
    ∧ lastSDWrite n' = 10000
    ∧ ∃ (log : list (Z * list Action)) (n2 : Node),
        run_checks [mkLoopCheck [] 10100 readings0; mkLoopCheck frame0 15000 readings0;
                    mkLoopCheck [] 19900 readings0] n'
        = Some (log, n2)
        ∧ fired_at ActPersist log = []
        ∧ sd_file n2 = sd_file node0.
Proof.
  apply (failed_write_not_retried 10000 readings_no_card node0
           [mkLoopCheck [] 10100 readings0; mkLoopCheck frame0 15000 readings0;
            mkLoopCheck [] 19900 readings0]).
  - split; exists 0; (split; [lia | reflexivity]).
  - reflexivity.
  - reflexivity.
  - reflexivity.
  - unfold SD_WRITE_INTERVAL. repeat constructor; cbn; lia.
Defined.

(** X17.  The timers survive the roll-over of the 32-bit millisecond clock.
    With [ts], [tp] and [tt] the true times at which the three stamps were
    taken and [t] the true time of the check, each less than 2^32 ms
    earlier, the sample action runs exactly when 5 s have gone by since
    [ts], the persist action when in addition 10 s have gone by since
    [tp], and the transmit action when 30 s have gone by since [tt],
    although the node only sees the times reduced modulo 2^32. *)
Theorem scheduler_survives_clock_rollover (t ts tp tt : Z) (r : Readings) (n : Node) :
  pm_decoded (currentData n) →
  lastSensorRead n = Int.wrap_u32 ts → 0 ≤ t - ts < 4294967296 →
  lastSDWrite n = Int.wrap_u32 tp → 0 ≤ t - tp < 4294967296 →
  lastLoRaTransmit n = Int.wrap_u32 tt → 0 ≤ t - tt < 4294967296 →
  ∃ (acts : list Action) (n' : Node),
    loop (Int.wrap_u32 t) r n = Some (acts, n')
    ∧ (ActSample ∈ acts ↔ SENSOR_READ_INTERVAL ≤ t - ts)
    ∧ (ActPersist ∈ acts
       ↔ SENSOR_READ_INTERVAL ≤ t - ts ∧ SD_WRITE_INTERVAL ≤ t - tp)
    ∧ (ActTransmit ∈ acts ↔ LORA_TRANSMIT_INTERVAL ≤ t - tt).
Proof.
  intros Hpm Es Hs Ep Hp Et Ht.
  destruct (loop_spec (Int.wrap_u32 t) r n Hpm) as (n' & Hloop & _).
  exists (due_actions (Int.wrap_u32 t) n), n'.
  split; [done|].
  rewrite sample_in_due_actions, persist_in_due_actions, transmit_in_due_actions.
  unfold sample_due, persist_due, transmit_due.
  rewrite Es, Ep, Et, !wrap_u32_sub, !wrap_u32_small, !Z.leb_le by lia.
  done.
Qed.

Lemma scheduler_survives_clock_rollover_witness :
  ∃ (acts : list Action) (n' : Node),
    loop (Int.wrap_u32 4294971296) readings0
      (with_lastSensorRead 4294966296 node0) = Some (acts, n')
    ∧ (ActSample ∈ acts ↔ SENSOR_READ_INTERVAL ≤ 4294971296 - 4294966296)
    ∧ (ActPersist ∈ acts
       ↔ SENSOR_READ_INTERVAL ≤ 4294971296 - 4294966296
         ∧ SD_WRITE_INTERVAL ≤ 4294971296 - 4294967296)
    ∧ (ActTransmit ∈ acts ↔ LORA_TRANSMIT_INTERVAL ≤ 4294971296 - 4294967296).
Proof.
  apply (scheduler_survives_clock_rollover 4294971296 4294966296 4294967296
           4294967296 readings0 (with_lastSensorRead 4294966296 node0)).
  - split; exists 0; (split; [lia | reflexivity]).
  - reflexivity.
  - lia.
  - reflexivity.
  - lia.
  - reflexivity.
  - lia.
Defined.

(** X18.  No action runs more often than its period allows.  On any trace of
    checks within one run of the clock after a boot, two consecutive runs
    of the sample action are at least 5 s apart, of the persist action at
    least 10 s, and of the transmit action at least 30 s; the first run of
    each comes no earlier than one period after the boot. *)
Theorem firings_are_spaced (b : Boot) (n0 : Node) (trace : list LoopCheck) :
  setup b = Some n0 →
  clock_trace 0 trace →
  ∃ (log : list (Z * list Action)) (n' : Node),
    run_checks trace n0 = Some (log, n')
    ∧ spaced SENSOR_READ_INTERVAL 0 (fired_at ActSample log)
    ∧ spaced SD_WRITE_INTERVAL 0 (fired_at ActPersist log)
    ∧ spaced LORA_TRANSMIT_INTERVAL 0 (fired_at ActTransmit log).
Proof.
  intros Hsetup Hclock.
  destruct (setup_state b n0 Hsetup) as (_ & Es & Ep & Et & Hc & _).
  pose proof (setup_sample_ok b n0 Hsetup) as Hok.
  destruct (run_effect trace n0 Hok) as (log & n' & _ & _ & Hrun & _).
  { rewrite Hc. unfold in_int. lia. }
  exists log, n'. split; [done|].
  pose proof (run_spaced trace n0 0 log n' (proj1 Hok) Hclock) as Hsp.
  rewrite Es, Ep, Et in Hsp. apply Hsp; [lia | lia | lia | done].
Qed.

Lemma firings_are_spaced_witness :
  ∃ (log : list (Z * list Action)) (n' : Node),
    run_checks trace0 node0 = Some (log, n')
    ∧ spaced SENSOR_READ_INTERVAL 0 (fired_at ActSample log)
    ∧ spaced SD_WRITE_INTERVAL 0 (fired_at ActPersist log)
    ∧ spaced LORA_TRANSMIT_INTERVAL 0 (fired_at ActTransmit log).
Proof.
  apply (firings_are_spaced boot0 node0 trace0).
  - reflexivity.
  - cbn. lia.
Defined.

(** X19.  Within a pass the sample is taken before it is logged and sent.
    When the transmit timer has run out, the packet appended to the
    radio's output carries the sample as the pass leaves it: the one just
    read and indexed when the sample timer has run out as well, the one of
    an earlier pass otherwise; it is numbered with the counter value
    before the call.  A row written in the same pass is the row of the
    same sample. *)
Theorem pass_outputs_carry_its_sample (now : Z) (r : Readings) (n : Node) :
  pm_decoded (currentData n) →
  transmit_due now n = true →
  ∃ (acts : list Action) (n' : Node),
    loop now r n = Some (acts, n')
    ∧ ActTransmit ∈ acts
    ∧ lora_sent n' = lora_sent n ++ [packet_of (packetCounter n) (currentData n')]
    ∧ (sample_due now n = true →
       calculateAQI (currentData (readAllSensors r n)) = Some (currentData n'))
    ∧ (sample_due now n = false → currentData n' = currentData n)
    ∧ (ActPersist ∈ acts → sd_card_ok r = true →
       sd_file n' = Some (default [] (sd_file n) ++ [csv_row (currentData n')])).
Proof.
  intros Hpm Ht.
  destruct (loop_effect now r n Hpm)
    as (a & n' & Hloop & _ & Hd & Hcalc & _ & Hfile & Hsent & _).
  exists (due_actions now n), n'.
  split; [done|].
  split; [by apply transmit_in_due_actions|].
  rewrite Hsent, Ht. split; [done|]. split; [done|].
  split; [intros Hs; by rewrite Hd, Hs|].
  intros [Hs Hp]%persist_in_due_actions Hcard.
  by rewrite Hfile, Hs, Hp, Hcard.
Qed.

Lemma pass_outputs_carry_its_sample_witness :
  ∃ (acts : list Action) (n' : Node),
    loop 30000 readings0 node0 = Some (acts, n')
    ∧ ActTransmit ∈ acts
    ∧ lora_sent n'
      = lora_sent node0 ++ [packet_of (packetCounter node0) (currentData n')]
    ∧ (sample_due 30000 node0 = true →
       calculateAQI (currentData (readAllSensors readings0 node0))
       = Some (currentData n'))
    ∧ (sample_due 30000 node0 = false → currentData n' = currentData node0)
    ∧ (ActPersist ∈ acts → sd_card_ok readings0 = true →
       sd_file n'
       = Some (default [] (sd_file node0) ++ [csv_row (currentData n')])).
Proof.
  apply (pass_outputs_carry_its_sample 30000 readings0 node0).
  - split; exists 0; (split; [lia | reflexivity]).
  - reflexivity.
Defined.

(** X20.  The first thing the node does after a boot is to take a sample.  In
    the log of any run the passes before the first one that samples run no
    action at all: nothing is transmitted and nothing is written in a pass
    earlier than the one in which the sensors are read for the first
    time. *)
Theorem first_action_is_a_sample (b : Boot) (n0 : Node)
    (trace : list LoopCheck) :
  setup b = Some n0 →
  ∃ (log : list (Z * list Action)) (n' : Node)
    (quiet rest : list (Z * list Action)),
    run_checks trace n0 = Some (log, n')
    ∧ log = quiet ++ rest
    ∧ Forall (λ e, e.2 = []) quiet
    ∧ match rest with
      | [] => True
      | (_, acts) :: _ => ActSample ∈ acts
      end.
Proof.
  intros Hsetup.
  destruct (setup_state b n0 Hsetup) as (_ & Es & _ & Et & Hc & _).
  pose proof (setup_sample_ok b n0 Hsetup) as Hok.
  destruct (run_effect trace n0 Hok) as (log & n' & _ & _ & Hrun & _).
  { rewrite Hc. unfold in_int. lia. }
  destruct (run_quiet_until_sample trace n0 log n' (proj1 Hok)
              ltac:(congruence) Hrun) as (quiet & rest & Hlog & Hquiet & Hrest).
  by exists log, n', quiet, rest.
Qed.

Lemma first_action_is_a_sample_witness :
  ∃ (log : list (Z * list Action)) (n' : Node)
    (quiet rest : list (Z * list Action)),
    run_checks (mkLoopCheck [] 100 readings0 :: trace0) node0 = Some (log, n')
    ∧ log = quiet ++ rest
    ∧ Forall (λ e, e.2 = []) quiet
    ∧ match rest with
      | [] => True
      | (_, acts) :: _ => ActSample ∈ acts
      end.
Proof.
  apply (first_action_is_a_sample boot0 node0 (mkLoopCheck [] 100 readings0 :: trace0)).
  reflexivity.
Defined.

(** X21.  From the bytes on the wire to the packet on the air, in one pass.
    The queue holds no 0x42, a complete frame arrives (and possibly more
    bytes behind it), both timers have run out, the DHT11 delivers numbers
    and the analog levels are conversion results: then the pass sends one
    packet whose particulate fields are exactly the two 16-bit values at
    frame offsets 12 and 14, whose index is the one the reference
    algorithm gives for these values and readings, whose gas, smoke and
    time stamp fields are the readings, and which is numbered with the
    counter; what arrived behind the frame stays queued. *)
Theorem frame_to_packet (body more : list byte) (now : Z) (r : Readings) (n : Node) :
  pm_decoded (currentData n) →
  Forall (λ b, b ≠ x42) (pmsSerial n) →
  length body = 30%nat → length (pms_stack r) = 32%nat →
  sample_due now n = true → transmit_due now n = true →
  is_nan (dht_temperature r) = false → is_nan (dht_humidity r) = false →
  adc_level (adc_gas r) → adc_level (adc_smoke r) →
  ∃ (acts : list Action) (n' : Node) (a : Z),
    loop now r (receive (frame_of body ++ more) n) = Some (acts, n')
    ∧ Reference.aqi (be16 (frame_of body) 12) (be16 (frame_of body) 14)
        (dht_temperature r) (dht_humidity r) (adc_gas r) (adc_smoke r) = Some a
    ∧ lora_sent n'
      = lora_sent n
        ++ [mkPacket NODE_ID (packetCounter n)
              (Int.wrap_u32 (stamp_millis r) / 1000)
              (round1 (dht_temperature r)) (round1 (dht_humidity r))
              (f64_of_Z (be16 (frame_of body) 12))
              (f64_of_Z (be16 (frame_of body) 14))
              (adc_gas r) (adc_smoke r) a]
    ∧ pmsSerial n' = more.
Proof.
  intros Hpm Hq Hbody Hstack Hs Ht Hnt Hnh Hgas Hsmoke.
  set (m := receive (frame_of body ++ more) n).
  destruct (loop_effect now r m Hpm)
    as (a0 & n' & Hloop & _ & _ & Hcalc & _ & _ & Hsent & _ & Hser & _).
  change (sample_due now m) with (sample_due now n) in *.
  change (transmit_due now m) with (transmit_due now n) in *.
  change (due_actions now m) with (due_actions now n) in *.
  rewrite Hs in *. rewrite Ht in *. specialize (Hcalc eq_refl).
  assert (Hread : readAllSensors r m
                  = with_data
                      (mkSensorData (Int.wrap_u32 (stamp_millis r) / 1000)
                         (dht_temperature r) (dht_humidity r)
                         (f32_of_Z (be16 (frame_of body) 12))
                         (f32_of_Z (be16 (frame_of body) 14))
                         (adc_gas r) (adc_smoke r) (aqi (currentData n)))
                      (with_pmsSerial more m)).
  { unfold readAllSensors. rewrite Hnt, Hnh. cbn [orb]. cbv zeta.
    rewrite (readPMS5003_frame (pms_stack r) (pmsSerial n) (body ++ more) m);
      [|done|done|rewrite length_app; lia|unfold m, receive, frame_of; done].
    rewrite take_app_length', drop_app_length' by done.
    done. }
  rewrite Hread in Hcalc, Hser.
  cbn [currentData with_data pmsSerial with_pmsSerial] in Hcalc, Hser.
  rewrite (calculateAQI_reference _ (be16 (frame_of body) 12)
             (be16 (frame_of body) 14)) in Hcalc
    by (done || apply be16_range).
  cbn [temperature humidity gasLevel smokeLevel] in Hcalc.
  destruct (Reference.aqi _ _ _ _ _ _) as [a|] eqn:Ea; [|done].
  cbn in Hcalc. injection Hcalc as Hd.
  exists (due_actions now n), n', a.
  split; [done|]. split; [done|]. split; [|done].
  rewrite Hsent, <- Hd. unfold packet_of. cbn.
  rewrite !RoundFacts.round1_decoded by apply be16_range. done.
Qed.

Lemma frame_to_packet_witness :
  ∃ (acts : list Action) (n' : Node) (a : Z),
    loop 30000 readings0 (receive (frame_of (drop 2 frame0) ++ [x01]) node0)
    = Some (acts, n')
    ∧ Reference.aqi (be16 (frame_of (drop 2 frame0)) 12)
        (be16 (frame_of (drop 2 frame0)) 14)
        (dht_temperature readings0) (dht_humidity readings0)
        (adc_gas readings0) (adc_smoke readings0) = Some a
    ∧ lora_sent n'
      = lora_sent node0
        ++ [mkPacket NODE_ID (packetCounter node0)
              (Int.wrap_u32 (stamp_millis readings0) / 1000)
              (round1 (dht_temperature readings0))
              (round1 (dht_humidity readings0))
              (f64_of_Z (be16 (frame_of (drop 2 frame0)) 12))
              (f64_of_Z (be16 (frame_of (drop 2 frame0)) 14))
              (adc_gas readings0) (adc_smoke readings0) a]
    ∧ pmsSerial n' = [x01].
Proof.
  apply (frame_to_packet (drop 2 frame0) [x01] 30000 readings0 node0).
  - split; exists 0; (split; [lia | reflexivity]).
  - constructor.
  - reflexivity.
  - reflexivity.
  - reflexivity.
  - reflexivity.
  - reflexivity.
  - reflexivity.
  - unfold adc_level. cbn. lia.
  - unfold adc_level. cbn. lia.
Defined.



(** X23.  A node whose particulate sensor never sends a byte reports clean air.
    When the queue is empty at boot and nothing arrives, every pass
    completes, the particulate fields of the sample stay at zero, and every
    packet sent carries 0 in its [pm25] and [pm10] fields: a missing
    sensor cannot be told from a reading of zero. *)
Theorem silent_sensor_reads_as_zero (b : Boot) (n0 : Node)
    (trace : list LoopCheck) :
  setup b = Some n0 →
  boot_serial b = [] →
  Forall (λ c, arrived c = []) trace →
  ∃ (log : list (Z * list Action)) (n' : Node),
    run_checks trace n0 = Some (log, n')
    ∧ pm25 (currentData n') = f32_of_Z 0
    ∧ pm10 (currentData n') = f32_of_Z 0
    ∧ Forall (λ p, pk_pm25 p = f64_of_Z 0 ∧ pk_pm10 p = f64_of_Z 0)
        (lora_sent n').
Proof.
  intros Hsetup Hboot Hrx.
  destruct (setup_state b n0 Hsetup) as (Hd & _ & _ & _ & Hc & Hsent0).
  pose proof (setup_sample_ok b n0 Hsetup) as Hok.
  destruct (run_effect trace n0 Hok) as (log & n' & _ & _ & Hrun & _).
  { rewrite Hc. unfold in_int. lia. }
  exists log, n'. split; [done|].
  destruct (run_no_bytes trace n0 log n') as (_ & H25 & H10 & ps & Hsent & Hps);
    try done.
  - by rewrite (setup_serial b n0 Hsetup).
  - by rewrite Hd.
  - by rewrite Hd.
  - split; [done|]. split; [done|]. by rewrite Hsent, Hsent0.
Qed.

Lemma silent_sensor_reads_as_zero_witness :
  ∃ (log : list (Z * list Action)) (n' : Node),
    run_checks [mkLoopCheck [] 5000 readings0; mkLoopCheck [] 30000 readings0]
      node0 = Some (log, n')
    ∧ pm25 (currentData n') = f32_of_Z 0
    ∧ pm10 (currentData n') = f32_of_Z 0
    ∧ Forall (λ p, pk_pm25 p = f64_of_Z 0 ∧ pk_pm10 p = f64_of_Z 0)
        (lora_sent n').
Proof.
  apply (silent_sensor_reads_as_zero boot0 node0
           [mkLoopCheck [] 5000 readings0; mkLoopCheck [] 30000 readings0]).
  - reflexivity.
  - reflexivity.
  - repeat constructor.
Defined.
